(** * A verified model of the WebP image optimizer

    The development embeds the decision core of the optimizer
    (quality-optimizer.ts, batch-processor.ts, progress-reporter.ts and
    types/index.ts) as Rocq functions and proves the properties its
    design document states about it.

    Conventions of the embedding.
    - A JavaScript [number] that the code only compares, adds or scales is
      an exact rational ([Q]); a number that is an integer percentage or a
      byte count is an integer ([Z]).  NaN and the infinities are not
      represented: the places where the source could produce them (an
      empty channel list, a division by a zero file size) are excluded by
      the types or named where they occur.  Where [Math.round] decides
      between two integers on the result of a division and a
      multiplication (the percentage and the bar of the progress display,
      the dimensions of a resized image), each of the two operations is
      rounded to a double first, by [Num.double].
    - An [async] function that can reject, or a function that can throw,
      returns [result A]; a thrown [Error] is identified with its message,
      the only part of it the source reads.
    - The file system is a finite map from paths to files; what the image
      library reports about a file is data attached to the file.
    - Everything the optimizer gets from its runtime (path manipulation,
      number formatting, the encoder itself, the clock) is a field of
      [Platform]. *)

From Stdlib Require Import ZArith QArith Qround Qabs Qminmax Qpower Lia Lqa.
From Stdlib Require Import Ascii String DecimalString.
From stdpp Require Import base strings gmap list.

Local Open Scope string_scope.
Local Open Scope Z_scope.

(** ** Results of fallible computations *)

Inductive result (A : Type) : Type :=
| Ok (a : A)
| Throw (message : string).
Arguments Ok {A} a.
Arguments Throw {A} message.

Definition bind {A B : Type} (m : result A) (k : A -> result B) : result B :=
  match m with
  | Ok a => k a
  | Throw e => Throw e
  end.

Definition try_catch {A : Type} (body : result A) (handler : string -> result A)
  : result A :=
  match body with
  | Ok a => Ok a
  | Throw e => handler e
  end.

Definition is_ok {A : Type} (m : result A) : bool :=
  match m with Ok _ => true | Throw _ => false end.

Notation "'await' x ':=' m 'in' k" := (bind m (fun x => k))
  (at level 10, x name, m at level 100, k at level 200).

(** ** Numbers *)

Module Num.

(** Comparison operators of the source on rationals. *)
Definition gt (x y : Q) : bool := negb (Qle_bool x y).
Definition lt (x y : Q) : bool := negb (Qle_bool y x).
Definition ge (x y : Q) : bool := Qle_bool y x.
Definition le (x y : Q) : bool := Qle_bool x y.

(** [Math.round]: the nearest integer, halves towards plus infinity. *)
Definition Math_round (x : Q) : Z := Qfloor (x + (1 # 2)).

(** *** Double precision *)

(** [2 ^ e] *)
Definition pow2 (e : Z) : Q := (2 ^ e)%Q.

(** The largest [e] with [2 ^ e <= x], for a positive [x]. *)
Definition exponent (x : Q) : Z :=
  let d := Z.log2 (Qnum x) - Z.log2 (Zpos (Qden x)) in
  if Qle_bool (pow2 d) x then d else d - 1.

(** The nearest integer, halves to the even one. *)
Definition nearest_even (x : Q) : Z :=
  let below := Qfloor x in
  match (x - inject_Z below ?= 1 # 2)%Q with
  | Lt => below
  | Gt => below + 1
  | Eq => if Z.even below then below else below + 1
  end.

(** A positive [x] with 53 significant bits. *)
Definition double_pos (x : Q) : Q :=
  let e := exponent x - 52 in
  (inject_Z (nearest_even (x / pow2 e)) * pow2 e)%Q.

(** The double that an arithmetic operation with the exact result [x]
    delivers: the nearest number with 53 significant bits, ties to the
    even one.  The exponent is not limited: the numbers that are rounded
    here are far from the ends of the range of a double. *)
Definition double (x : Q) : Q :=
  Qred match (x ?= 0)%Q with
       | Eq => 0%Q
       | Gt => double_pos x
       | Lt => (- double_pos (- x))%Q
       end.

(** A positive number with at most 53 significant bits. *)
Definition dyadic (c : Q) : Prop :=
  exists (n k : Z), 0 < n <= 2 ^ 53 /\ (c == inject_Z n * pow2 k)%Q.

(** [`${n}`] for an integer [n]. *)
Definition toString (n : Z) : string := NilZero.string_of_int (Z.to_int n).

Definition sum (l : list Q) : Q := fold_left Qplus l 0%Q.

(** [l.reduce((s, x) => s + x, 0) / l.length] *)
Definition average (l : list Q) : Q :=
  (sum l / inject_Z (Z.of_nat (length l)))%Q.

End Num.

(** ** Strings *)

Module Str.

(** [s.replace(c, d)] with one-character strings: only the first
    occurrence is replaced. *)
Fixpoint replace (c d : ascii) (s : string) : string :=
  match s with
  | EmptyString => EmptyString
  | String a rest =>
      if Ascii.eqb a c then String d rest else String a (replace c d rest)
  end.

(** [xs.join(sep)] *)
Definition join (sep : string) (xs : list string) : string :=
  String.concat sep xs.

Definition lower_ascii (a : ascii) : ascii :=
  let n := nat_of_ascii a in
  if ((65 <=? n)%nat && (n <=? 90)%nat)%bool then ascii_of_nat (n + 32) else a.

(** [s.toLowerCase()] on ASCII text. *)
Fixpoint toLowerCase (s : string) : string :=
  match s with
  | EmptyString => EmptyString
  | String a rest => String (lower_ascii a) (toLowerCase rest)
  end.

(** [s.replace(c, '')]: the first occurrence of [c] is removed. *)
Fixpoint remove (c : ascii) (s : string) : string :=
  match s with
  | EmptyString => EmptyString
  | String a rest => if Ascii.eqb a c then rest else String a (remove c rest)
  end.

(** [xs.includes(s)] *)
Definition includes (xs : list string) (s : string) : bool :=
  existsb (String.eqb s) xs.

(** [s || d]: [undefined] and the empty string both give [d]. *)
Definition or_default (s : option string) (d : string) : string :=
  match s with
  | Some EmptyString | None => d
  | Some s => s
  end.


(** [s.repeat(count)] for an integer [count]; a negative count is a
    [RangeError]. *)
Definition repeat (s : string) (count : Z) : result string :=
  if count <? 0 then Throw ("Invalid count value: " +:+ Num.toString count)
  else Ok (String.concat "" (List.repeat s (Z.to_nat count))).

(** [s.slice(-n)]: the last [n] characters. *)
Definition slice_last (n : nat) (s : string) : string :=
  substring (String.length s - n) n s.

(** [s.startsWith(p)] *)
Definition startsWith (p s : string) : bool := String.prefix p s.

(** [s.includes(sub)] for a non-empty [sub]. *)
Fixpoint contains (sub s : string) : bool :=
  String.prefix sub s ||
  match s with
  | EmptyString => false
  | String _ rest => contains sub rest
  end.

End Str.

(** ** What the image library reports *)

Record ChannelStats := {
  ch_min : Q;
  ch_max : Q;
  ch_mean : Q;
  ch_stdev : Q
}.

(** [sharp.Stats]: the library reports at least one channel. *)
Record Stats := {
  channel0 : ChannelStats;
  channels_rest : list ChannelStats
}.

Definition channels (s : Stats) : list ChannelStats :=
  channel0 s :: channels_rest s.

(** [sharp.Metadata]; an absent field is [None].  [md_depth] is [Some d]
    only when [typeof metadata.depth === 'number']. *)
Record Metadata := {
  md_format : option string;
  md_width : option Z;
  md_height : option Z;
  md_channels : option Z;
  md_hasAlpha : option bool;
  md_depth : option Q;
  md_density : option Q
}.

(** A decodable image: its metadata and the statistics of the three
    pipelines the source runs on it. *)
Record Picture := {
  pic_metadata : Metadata;
  pic_stats : result Stats;        (* .stats() *)
  pic_grey_stats : result Stats;   (* .clone().greyscale().stats() *)
  pic_edge_stats : result Stats    (* .clone().greyscale().convolve(K).stats() *)
}.

(** A file: its leading bytes, its size, and the decoded image or the
    decoder's error. *)
Record File := {
  file_bytes : list Z;
  file_size : Z;
  file_image : result Picture
}.

Abbreviation FileSystem := (gmap string File).

(** ** Domain types of types/index.ts *)

Module Types.

Inductive ContentType := photo | graphic | mixed.
Inductive Strategy := high_quality | balanced | size_optimized.
Inductive Status := success | failed | skipped.

Definition ContentType_name (c : ContentType) : string :=
match c with photo => "photo" | graphic => "graphic" | mixed => "mixed" end.

Definition Strategy_name (s : Strategy) : string :=
match s with
| high_quality => "high_quality"
| balanced => "balanced"
| size_optimized => "size_optimized"
end.

Definition Status_eqb (a b : Status) : bool :=
match a, b with
| success, success | failed, failed | skipped, skipped => true
| _, _ => false
end.

Record OptimizationResult := {
originalPath : string;
optimizedPath : string;
originalSize : Z;
optimizedSize : Z;
compressionRatio : Q;
qualityScore : Q;
processingTime : Z;
status : Status;
errorMessage : option string
}.

Record ProcessingReport := {
totalImages : Z;
successfulConversions : Z;
failedConversions : Z;
totalSizeReduction : Z;
averageCompressionRatio : Q;
report_processingTime : Z;
results : list OptimizationResult
}.

End Types.
Import Types.


(** ** types/index.ts: DataValidator

    The [typeof] tests of the source hold by typing; [!s] on a string is
    the test for the empty string, and the membership test of a status
    or content type in the list of all of them always succeeds. *)

Module DataValidator.

Record ImageMetadata := {
  im_originalPath : string;
  im_filename : string;
  im_format : string;
  im_width : Z;
  im_height : Z;
  im_fileSize : Z;
  im_contentType : ContentType
}.

(** [!s] *)
Definition blank (s : string) : bool := String.eqb s "".

Definition isContentType (c : ContentType) : bool :=
  match c with photo | graphic | mixed => true end.

Definition isStatus (s : Status) : bool :=
  match s with success | failed | skipped => true end.

Definition validateImageMetadata (metadata : ImageMetadata) : bool :=
  if blank (im_originalPath metadata) then false
  else if blank (im_filename metadata) then false
  else if blank (im_format metadata) then false
  else if (im_width metadata <=? 0) || (im_height metadata <=? 0) then false
  else if im_fileSize metadata <=? 0 then false
  else if negb (isContentType (im_contentType metadata)) then false
  else true.

Definition validateOptimizationResult (result : OptimizationResult) : bool :=
  if blank (originalPath result) then false
  else if blank (optimizedPath result) then false
  else if originalSize result <=? 0 then false
  else if optimizedSize result <=? 0 then false
  else if Num.lt (compressionRatio result) 0 then false
  else if Num.lt (qualityScore result) 0 || Num.gt (qualityScore result) 100
  then false
  else if processingTime result <? 0 then false
  else if negb (isStatus (status result)) then false
  else true.

Definition validateProcessingReport (report : ProcessingReport) : bool :=
  if totalImages report <? 0 then false
  else if successfulConversions report <? 0 then false
  else if failedConversions report <? 0 then false
  else if totalSizeReduction report <? 0 then false
  else if Num.lt (averageCompressionRatio report) 0 then false
  else if report_processingTime report <? 0 then false
  else if negb (totalImages report =? Z.of_nat (length (results report)))
  then false
  else true.

End DataValidator.

(** The payload of the reporter's ['error'] event. *)
Record ErrorEvent := {
  ev_error : string;
  ev_filename : string;
  ev_processedFiles : Z
}.

(** The object that [saveFilenameMapping] hands to [fs.writeJson]. *)
Record MappingData := {
  mp_generatedAt : string;
  mp_totalFiles : Z;
  mp_mapping : gmap string string
}.

(** The object that [saveProcessingArtifacts] hands to [fs.writeJson]. *)
Record ReportSummary := {
  rs_totalImages : Z;
  rs_successfulConversions : Z;
  rs_failedConversions : Z;
  rs_totalSizeReduction : Z;
  rs_averageCompressionRatio : Q;
  rs_processingTimeSeconds : Q
}.

Record ReportData := {
  rd_generatedAt : string;
  rd_summary : ReportSummary;
  rd_results : list OptimizationResult
}.

(** ** The runtime the optimizer runs on *)

Record Platform := {
  path_extname : string -> string;
  path_basename : string -> string;
  path_parse_name : string -> string;          (* path.parse(p).name *)
  path_join : string -> string -> string;
  toFixed1 : Q -> string;                      (* x.toFixed(1) *)
  util_inspect : ErrorEvent -> string;
  sharp_resize : Picture -> option Z -> option Z -> Picture;
  (* preprocess, constrain to the maximal dimensions and encode as WebP:
     format, input, quality, maxWidth, maxHeight *)
  webp_encode : string -> File -> Z -> Q -> Q -> result File;
  (* wall-clock milliseconds spent converting a file *)
  elapsed : string -> Z;
  (* Date.now() as the progress reporter reads it in the update for the
     k-th result that a run records *)
  Date_now : Z -> Z;
  (* new Date().toISOString() as read for the file written at a path *)
  toISOString_now : string -> string;
  (* fs.writeJson(path, data, { spaces: 2 }): the file it stores at the
     path, or its error *)
  writeJson_mapping : string -> MappingData -> result File;
  writeJson_report : string -> ReportData -> result File
}.

(** [sharp(path)]: opening is lazy, every later read reports the same
    decoded image or the same error. *)
Definition sharp (fs : FileSystem) (path : string) : result Picture :=
  match fs !! path with
  | Some f => file_image f
  | None => Throw ("Input file is missing: " +:+ path)
  end.

Definition sharp_metadata (inst : result Picture) : result Metadata :=
  await p := inst in Ok (pic_metadata p).

Definition sharp_stats (inst : result Picture) : result Stats :=
  await p := inst in pic_stats p.

Definition sharp_grey_stats (inst : result Picture) : result Stats :=
  await p := inst in pic_grey_stats p.

Definition sharp_edge_stats (inst : result Picture) : result Stats :=
  await p := inst in pic_edge_stats p.

Definition fs_stat (fs : FileSystem) (path : string) : result Z :=
  match fs !! path with
  | Some f => Ok (file_size f)
  | None => Throw ("ENOENT: no such file or directory, stat '" +:+ path +:+ "'")
  end.

Definition fs_pathExists (fs : FileSystem) (path : string) : bool :=
  bool_decide (is_Some (fs !! path)).

(** [x || d] for an optional number: [undefined] and [0] both give [d]. *)
Definition or_default (x : option Z) (d : Z) : Z :=
  match x with
  | Some v => if v =? 0 then d else v
  | None => d
  end.

(** [xs.push(x)] *)
Definition push {A : Type} (xs : list A) (x : A) : list A := app xs (cons x nil).

(** ** quality-optimizer.ts: ImageContentAnalyzer *)

Module ImageContentAnalyzer.

Record Characteristics := {
  colorComplexity : Q;
  edgeCount : Q;
  hasTransparency : bool;
  colorDepth : Q;
  aspectRatio : Q
}.

Record Analysis := {
  contentType : ContentType;
  compressionStrategy : Strategy;
  characteristics : Characteristics
}.

Definition calculateColorComplexity (stats : Stats) : Q :=
  let channelVariances := map ch_stdev (channels stats) in
  let averageVariance := Num.average channelVariances in
  Qmin 100 ((averageVariance / 50) * 100)%Q.

Definition estimateEdgeCount (sharpInstance : result Picture) : result Q :=
  try_catch
    (await edgeDetected := sharp_edge_stats sharpInstance in
     let edgeIntensity := ch_mean (channel0 edgeDetected) in
     Ok (Qmin 100 ((edgeIntensity / 128) * 100)%Q))
    (fun _ => Ok 50%Q).

Definition determineColorDepth (metadata : Metadata) (stats : Stats) : Q :=
  let depth := match md_depth metadata with Some d => d | None => 8%Q end in
  let channelRanges :=
    map (fun channel => (ch_max channel - ch_min channel)%Q) (channels stats) in
  let averageRange := Num.average channelRanges in
  if Num.lt averageRange 64 then Qmin depth 6
  else if Num.lt averageRange 128 then Qmin depth 7
  else depth.

Definition extractImageCharacteristics
    (sharpInstance : result Picture) (metadata : Metadata)
  : result Characteristics :=
  let width := or_default (md_width metadata) 0 in
  let height := or_default (md_height metadata) 0 in
  let channels := or_default (md_channels metadata) 3 in
  let aspectRatio :=
    if (0 <? width) && (0 <? height)
    then (inject_Z width / inject_Z height)%Q else 1%Q in
  let hasTransparency :=
    (channels =? 4) ||
    match md_hasAlpha metadata with Some true => true | _ => false end in
  await stats := sharp_stats sharpInstance in
  let colorComplexity := calculateColorComplexity stats in
  await edgeCount := estimateEdgeCount sharpInstance in
  let colorDepth := determineColorDepth metadata stats in
  Ok {| colorComplexity := colorComplexity;
        edgeCount := edgeCount;
        hasTransparency := hasTransparency;
        colorDepth := colorDepth;
        aspectRatio := aspectRatio |}.

Definition determineContentType (c : Characteristics) (metadata : Metadata)
  : ContentType :=
  if hasTransparency c || Num.gt (edgeCount c) 70
     || (Num.lt (colorComplexity c) 40 && Num.le (colorDepth c) 6)
  then graphic
  else if Num.gt (colorComplexity c) 60 && Num.lt (edgeCount c) 40
          && negb (hasTransparency c) && Num.ge (colorDepth c) 8
  then photo
  else mixed.

Definition determineCompressionStrategy
    (contentType : ContentType) (c : Characteristics) : Strategy :=
  match contentType with
  | photo =>
      if Num.gt (colorComplexity c) 80 then high_quality else balanced
  | graphic =>
      if hasTransparency c || Num.gt (edgeCount c) 80 then high_quality
      else if Num.lt (colorComplexity c) 30 && Num.lt (edgeCount c) 50
      then size_optimized
      else balanced
  | mixed =>
      if Num.gt (colorComplexity c) 70 || Num.gt (edgeCount c) 70
      then high_quality else balanced
  end.

Definition analyzeImageContent (fs : FileSystem) (imagePath : string)
  : result Analysis :=
  try_catch
    (let sharpInstance := sharp fs imagePath in
     await metadata := sharp_metadata sharpInstance in
     await stats := sharp_stats sharpInstance in
     await characteristics :=
       extractImageCharacteristics sharpInstance metadata in
     let contentType := determineContentType characteristics metadata in
     let compressionStrategy :=
       determineCompressionStrategy contentType characteristics in
     Ok {| contentType := contentType;
           compressionStrategy := compressionStrategy;
           characteristics := characteristics |})
    (fun message => Throw ("Failed to analyze image content: " +:+ message)).

End ImageContentAnalyzer.

(** ** quality-optimizer.ts: DynamicQualityCalculator *)

Module DynamicQualityCalculator.

Import ImageContentAnalyzer.

(** The object's only mutable field. *)
Record t := { minimumQuality : Z }.

Definition new (minimumQuality : option Z) : t :=
  {| minimumQuality := default 70 minimumQuality |}.

Record Decision := {
  quality : Z;
  strategy : Strategy;
  reasoning : string;
  contentType : ContentType
}.

Definition getBaseQuality (contentType : ContentType) (strategy : Strategy) : Z :=
  match contentType, strategy with
  | photo, high_quality => 92
  | photo, balanced => 88
  | photo, size_optimized => 82
  | graphic, high_quality => 90
  | graphic, balanced => 85
  | graphic, size_optimized => 78
  | mixed, high_quality => 91
  | mixed, balanced => 86
  | mixed, size_optimized => 80
  end.

Definition applyQualityAdjustments
    (baseQuality : Z) (c : Characteristics) (contentType : ContentType) : Z :=
  let adjustedQuality := baseQuality in
  (* colour complexity *)
  let adjustedQuality :=
    if Num.gt (colorComplexity c) 80 then adjustedQuality + 3
    else if Num.lt (colorComplexity c) 30 then adjustedQuality - 2
    else adjustedQuality in
  (* edge content *)
  let adjustedQuality :=
    if Num.gt (edgeCount c) 70 then adjustedQuality + 2
    else if Num.lt (edgeCount c) 30 then adjustedQuality - 1
    else adjustedQuality in
  (* transparency *)
  let adjustedQuality :=
    if hasTransparency c then adjustedQuality + 2 else adjustedQuality in
  (* colour depth *)
  let adjustedQuality :=
    if Num.ge (colorDepth c) 10 then adjustedQuality + 2
    else if Num.le (colorDepth c) 6 then adjustedQuality - 1
    else adjustedQuality in
  (* aspect ratio *)
  let adjustedQuality :=
    if Num.gt (aspectRatio c) 3 || Num.lt (aspectRatio c) 0.33
    then adjustedQuality + 1 else adjustedQuality in
  (* content-specific adjustments *)
  let adjustedQuality :=
    match contentType with
    | photo =>
        if Num.lt (edgeCount c) 25 then adjustedQuality - 1 else adjustedQuality
    | graphic =>
        if Num.gt (colorComplexity c) 60 then adjustedQuality + 2
        else adjustedQuality
    | mixed =>
        if Num.gt (colorComplexity c) 70 && Num.gt (edgeCount c) 60
        then adjustedQuality + 1 else adjustedQuality
    end in
  Z.min 95 (Z.max 50 (Num.Math_round (inject_Z adjustedQuality))).

Definition generateQualityReasoning
    (self : t) (contentType : ContentType) (strategy : Strategy)
    (c : Characteristics) (finalQuality : Z) : string :=
  let reasons : list string := [] in
  let reasons :=
    push reasons (ContentType_name contentType +:+ " content with "
                  +:+ Str.replace "_" " " (Strategy_name strategy)
                  +:+ " strategy") in
  let reasons :=
    if Num.gt (colorComplexity c) 80
    then push reasons "high color complexity requires higher quality"
    else if Num.lt (colorComplexity c) 30
    then push reasons "low color complexity allows lower quality"
    else reasons in
  let reasons :=
    if Num.gt (edgeCount c) 70
    then push reasons "high edge content needs quality preservation"
    else if Num.lt (edgeCount c) 30
    then push reasons "smooth gradients allow quality reduction"
    else reasons in
  let reasons :=
    if hasTransparency c
    then push reasons "transparency requires careful compression"
    else reasons in
  let reasons :=
    if Num.ge (colorDepth c) 10
    then push reasons "high color depth needs quality preservation"
    else if Num.le (colorDepth c) 6
    then push reasons "limited color depth allows compression"
    else reasons in
  let reasons :=
    if finalQuality =? minimumQuality self
    then push reasons ("enforced minimum quality threshold ("
                       +:+ Num.toString (minimumQuality self) +:+ "%)")
    else reasons in
  "Quality " +:+ Num.toString finalQuality +:+ "%: " +:+ Str.join ", " reasons.

Definition calculateOptimalQuality
    (self : t) (fs : FileSystem) (imagePath : string)
    (targetStrategy : option Strategy) : result Decision :=
  try_catch
    (await analysis := analyzeImageContent fs imagePath in
     let strategy := default (compressionStrategy analysis) targetStrategy in
     let baseQuality :=
       getBaseQuality (ImageContentAnalyzer.contentType analysis) strategy in
     let adjustedQuality :=
       applyQualityAdjustments baseQuality (characteristics analysis)
         (ImageContentAnalyzer.contentType analysis) in
     let finalQuality := Z.max (minimumQuality self) adjustedQuality in
     let reasoning :=
       generateQualityReasoning self
         (ImageContentAnalyzer.contentType analysis) strategy
         (characteristics analysis) finalQuality in
     Ok {| quality := finalQuality;
           strategy := strategy;
           reasoning := reasoning;
           contentType := ImageContentAnalyzer.contentType analysis |})
    (fun message =>
       Throw ("Failed to calculate optimal quality: " +:+ message)).

Definition setMinimumQuality (self : t) (newMinimum : Z) : result t :=
  if (newMinimum <? 1) || (100 <? newMinimum)
  then Throw "Minimum quality must be between 1 and 100"
  else Ok {| minimumQuality := newMinimum |}.


Definition getMinimumQuality (self : t) : Z := minimumQuality self.

(** An element of the array that [calculateBatchQuality] returns. *)
Record BatchQuality := {
  b_imagePath : string;
  b_quality : Z;
  b_strategy : Strategy;
  b_reasoning : string;
  b_contentType : ContentType
}.

(** The [for] loop of [calculateBatchQuality] over the paths that are
    left; [results] is the array built so far. *)
Fixpoint calculateBatchQuality_loop
    (self : t) (fs : FileSystem) (imagePaths : list string)
    (strategy : option Strategy) (results : list BatchQuality)
  : result (list BatchQuality) :=
  match imagePaths with
  | [] => Ok results
  | imagePath :: rest =>
      await results :=
        try_catch
          (await qualityResult :=
             calculateOptimalQuality self fs imagePath strategy in
           Ok (push results
                 {| b_imagePath := imagePath;
                    b_quality := quality qualityResult;
                    b_strategy := DynamicQualityCalculator.strategy qualityResult;
                    b_reasoning := reasoning qualityResult;
                    b_contentType :=
                      DynamicQualityCalculator.contentType qualityResult |}))
          (fun _ =>
             Ok (push results
                   {| b_imagePath := imagePath;
                      b_quality := minimumQuality self;
                      b_strategy := default balanced strategy;
                      b_reasoning :=
                        "Failed to analyze image, using minimum quality ("
                        +:+ Num.toString (minimumQuality self) +:+ "%)";
                      b_contentType := mixed |})) in
      calculateBatchQuality_loop self fs rest strategy results
  end.

Definition calculateBatchQuality
    (self : t) (fs : FileSystem) (imagePaths : list string)
    (strategy : option Strategy) : result (list BatchQuality) :=
  calculateBatchQuality_loop self fs imagePaths strategy [].

End DynamicQualityCalculator.

(** ** quality-optimizer.ts: QualityValidator *)

Module QualityValidator.

Record t := {
  minimumQualityThreshold : Z;
  maximumSizeIncrease : Q
}.

Definition new (minimumQualityThreshold : option Z)
    (maximumSizeIncrease : option Q) : t :=
  {| minimumQualityThreshold := default 70 minimumQualityThreshold;
     maximumSizeIncrease := default 1.2%Q maximumSizeIncrease |}.

Record QualityMetrics := {
  qualityLoss : Q;
  structuralSimilarity : Q;
  colorAccuracy : Q;
  sharpnessRetention : Q
}.

Record ValidationMetrics := {
  m_originalSize : Z;
  m_optimizedSize : Z;
  m_compressionRatio : Q;
  m_qualityLoss : Q;
  m_structuralSimilarity : Q
}.

Record Validation := {
  isValid : bool;
  v_qualityScore : Q;
  sizeReduction : Q;
  meetsThreshold : bool;
  issues : list string;
  metrics : ValidationMetrics
}.

Record Integrity := {
  i_isValid : bool;
  i_error : option string
}.

Definition calculateStructuralSimilarity
    (originalImage optimizedImage : result Picture) : result Q :=
  try_catch
    (await originalStats := sharp_grey_stats originalImage in
     await optimizedStats := sharp_grey_stats optimizedImage in
     let meanDiff :=
       Qabs (ch_mean (channel0 originalStats)
             - ch_mean (channel0 optimizedStats))%Q in
     let stdevDiff :=
       Qabs (ch_stdev (channel0 originalStats)
             - ch_stdev (channel0 optimizedStats))%Q in
     let meanSimilarity := (1 - meanDiff / 255)%Q in
     let stdevSimilarity := (1 - stdevDiff / 128)%Q in
     Ok ((meanSimilarity + stdevSimilarity) / 2)%Q)
    (fun _ => Ok 0.8%Q).

(** The [for] loop over the first [channelCount] channels of both images. *)
Fixpoint colorAccuracy_loop
    (originals optimizeds : list ChannelStats) (totalSimilarity : Q) : Q :=
  match originals, optimizeds with
  | originalChannel :: originals', optimizedChannel :: optimizeds' =>
      let meanDiff :=
        Qabs (ch_mean originalChannel - ch_mean optimizedChannel)%Q in
      let channelSimilarity := (1 - meanDiff / 255)%Q in
      colorAccuracy_loop originals' optimizeds'
        (totalSimilarity + channelSimilarity)%Q
  | _, _ => totalSimilarity
  end.

Definition calculateColorAccuracy
    (originalImage optimizedImage : result Picture) : result Q :=
  try_catch
    (await originalStats := sharp_stats originalImage in
     await optimizedStats := sharp_stats optimizedImage in
     let channelCount :=
       Z.min (Z.of_nat (length (channels originalStats)))
             (Z.of_nat (length (channels optimizedStats))) in
     let totalSimilarity :=
       colorAccuracy_loop (channels originalStats) (channels optimizedStats)
         0%Q in
     Ok (totalSimilarity / inject_Z channelCount)%Q)
    (fun _ => Ok 0.85%Q).

Definition calculateSharpnessRetention
    (originalImage optimizedImage : result Picture) : result Q :=
  try_catch
    (await originalEdges := sharp_edge_stats originalImage in
     await optimizedEdges := sharp_edge_stats optimizedImage in
     let originalEdgeIntensity := ch_mean (channel0 originalEdges) in
     let optimizedEdgeIntensity := ch_mean (channel0 optimizedEdges) in
     if Qeq_bool originalEdgeIntensity 0 then Ok 1%Q
     else
       let retention := (optimizedEdgeIntensity / originalEdgeIntensity)%Q in
       Ok (Qmin 1 retention))
    (fun _ => Ok 0.8%Q).

Definition calculateQualityMetrics
    (P : Platform) (fs : FileSystem) (originalPath optimizedPath : string)
  : result QualityMetrics :=
  try_catch
    (let originalImage := sharp fs originalPath in
     let optimizedImage := sharp fs optimizedPath in
     await originalMeta := sharp_metadata originalImage in
     await optimizedMeta := sharp_metadata optimizedImage in
     let resizedOptimized :=
       await p := optimizedImage in
       Ok (sharp_resize P p (md_width originalMeta) (md_height originalMeta)) in
     await structuralSimilarity :=
       calculateStructuralSimilarity originalImage resizedOptimized in
     await colorAccuracy :=
       calculateColorAccuracy originalImage resizedOptimized in
     await sharpnessRetention :=
       calculateSharpnessRetention originalImage resizedOptimized in
     let qualityLoss :=
       (100 - ((structuralSimilarity + colorAccuracy + sharpnessRetention)
               / 3 * 100))%Q in
     Ok {| qualityLoss := Qmax 0 qualityLoss;
           structuralSimilarity := structuralSimilarity;
           colorAccuracy := colorAccuracy;
           sharpnessRetention := sharpnessRetention |})
    (fun _ =>
       Ok {| qualityLoss := 20;
             structuralSimilarity := 0.8;
             colorAccuracy := 0.85;
             sharpnessRetention := 0.8 |}).

Definition calculateOverallQualityScore
    (metrics : QualityMetrics) (targetQuality : Q) : Q :=
  let structuralWeight := 0.4%Q in
  let colorWeight := 0.3%Q in
  let sharpnessWeight := 0.3%Q in
  let weightedScore :=
    ((structuralSimilarity metrics * structuralWeight
      + colorAccuracy metrics * colorWeight
      + sharpnessRetention metrics * sharpnessWeight) * 100)%Q in
  let targetAdjustment := (targetQuality / 100)%Q in
  let adjustedScore := (weightedScore * targetAdjustment)%Q in
  Qmin 100 (Qmax 0 adjustedScore).

Definition validateFileIntegrity (fs : FileSystem) (imagePath : string)
  : result Integrity :=
  try_catch
    (let exists_ := fs_pathExists fs imagePath in
     if negb exists_
     then Ok {| i_isValid := false;
                i_error := Some "Output file does not exist" |}
     else
       let sharpInstance := sharp fs imagePath in
       await _metadata := sharp_metadata sharpInstance in
       await size := fs_stat fs imagePath in
       if size =? 0
       then Ok {| i_isValid := false; i_error := Some "Output file is empty" |}
       else Ok {| i_isValid := true; i_error := None |})
    (fun message =>
       Ok {| i_isValid := false;
             i_error := Some ("File integrity check failed: " +:+ message) |}).

Definition validateOutputQuality
    (P : Platform) (self : t) (fs : FileSystem)
    (originalPath optimizedPath : string) (targetQuality : Q)
  : result Validation :=
  try_catch
    (let issues : list string := [] in
     await originalSize := fs_stat fs originalPath in
     await optimizedSize := fs_stat fs optimizedPath in
     let sizeReduction :=
       ((inject_Z originalSize - inject_Z optimizedSize)
        / inject_Z originalSize * 100)%Q in
     let compressionRatio :=
       (inject_Z originalSize / inject_Z optimizedSize)%Q in
     let issues :=
       if Num.gt (inject_Z optimizedSize)
            (inject_Z originalSize * maximumSizeIncrease self)%Q
       then push issues
              ("Output file is "
               +:+ toFixed1 P ((inject_Z optimizedSize / inject_Z originalSize
                                - 1) * 100)%Q
               +:+ "% larger than original")
       else issues in
     await qualityMetrics :=
       calculateQualityMetrics P fs originalPath optimizedPath in
     let qualityScore :=
       calculateOverallQualityScore qualityMetrics targetQuality in
     let meetsThreshold :=
       Num.ge qualityScore (inject_Z (minimumQualityThreshold self)) in
     let issues :=
       if negb meetsThreshold
       then push issues
              ("Quality score " +:+ toFixed1 P qualityScore
               +:+ "% below threshold "
               +:+ Num.toString (minimumQualityThreshold self) +:+ "%")
       else issues in
     let issues :=
       if Num.gt (qualityLoss qualityMetrics) 30
       then push issues
              ("Excessive quality loss: "
               +:+ toFixed1 P (qualityLoss qualityMetrics) +:+ "%")
       else issues in
     let issues :=
       if Num.lt (structuralSimilarity qualityMetrics) 0.8
       then push issues
              ("Low structural similarity: "
               +:+ toFixed1 P (structuralSimilarity qualityMetrics * 100)%Q
               +:+ "%")
       else issues in
     await integrityCheck := validateFileIntegrity fs optimizedPath in
     let issues :=
       if negb (i_isValid integrityCheck)
       then push issues
              ("File integrity issue: "
               +:+ default "undefined" (i_error integrityCheck))
       else issues in
     let isValid := bool_decide (length issues = 0%nat) in
     Ok {| isValid := isValid;
           v_qualityScore := qualityScore;
           sizeReduction := sizeReduction;
           meetsThreshold := meetsThreshold;
           issues := issues;
           metrics :=
             {| m_originalSize := originalSize;
                m_optimizedSize := optimizedSize;
                m_compressionRatio := compressionRatio;
                m_qualityLoss := qualityLoss qualityMetrics;
                m_structuralSimilarity :=
                  structuralSimilarity qualityMetrics |} |})
    (fun message =>
       Ok {| isValid := false;
             v_qualityScore := 0;
             sizeReduction := 0;
             meetsThreshold := false;
             issues := ["Validation failed: " +:+ message];
             metrics :=
               {| m_originalSize := 0;
                  m_optimizedSize := 0;
                  m_compressionRatio := 0;
                  m_qualityLoss := 100;
                  m_structuralSimilarity := 0 |} |}).


(** An element of the array passed to [generateQualityReport]: a
    validation result with the path it belongs to. *)
Record ValidationResult := {
  imagePath : string;
  validation : Validation
}.

Record OverallMetrics := {
  totalOriginalSize : Z;
  totalOptimizedSize : Z;
  o_totalSizeReduction : Z;
  o_averageCompressionRatio : Q
}.

(** [commonIssues] is a plain object used as a map from issue texts to
    counts; an issue text is taken not to name a member that every
    object inherits ([inherited] below). *)
Record QualityReport := {
  r_totalImages : Z;
  validImages : Z;
  averageQualityScore : Q;
  averageSizeReduction : Q;
  thresholdCompliance : Q;
  commonIssues : gmap string Z;
  overallMetrics : OverallMetrics
}.

(** The property names an object literal inherits from
    [Object.prototype]. *)
Definition inherited : list string :=
  [ "constructor"; "__defineGetter__"; "__defineSetter__"; "hasOwnProperty";
    "__lookupGetter__"; "__lookupSetter__"; "isPrototypeOf";
    "propertyIsEnumerable"; "toString"; "valueOf"; "__proto__";
    "toLocaleString" ].

(** [commonIssues[issue] = (commonIssues[issue] || 0) + 1] *)
Definition countIssue (commonIssues : gmap string Z) (issue : string)
  : gmap string Z :=
  <[issue := or_default (commonIssues !! issue) 0 + 1]> commonIssues.

Definition generateQualityReport (validationResults : list ValidationResult)
  : QualityReport :=
  let totalImages := Z.of_nat (length validationResults) in
  let validImages :=
    Z.of_nat (length (List.filter (fun r => isValid (validation r))
                        validationResults)) in
  let totalQualityScore :=
    fold_left (fun sum r => (sum + v_qualityScore (validation r))%Q)
      validationResults 0%Q in
  let averageQualityScore :=
    if 0 <? totalImages then (totalQualityScore / inject_Z totalImages)%Q
    else 0%Q in
  let totalSizeReduction :=
    fold_left (fun sum r => (sum + sizeReduction (validation r))%Q)
      validationResults 0%Q in
  let averageSizeReduction :=
    if 0 <? totalImages then (totalSizeReduction / inject_Z totalImages)%Q
    else 0%Q in
  let thresholdCompliant :=
    Z.of_nat (length (List.filter (fun r => meetsThreshold (validation r))
                        validationResults)) in
  let thresholdCompliance :=
    if 0 <? totalImages
    then (inject_Z thresholdCompliant / inject_Z totalImages * 100)%Q
    else 0%Q in
  let commonIssues :=
    fold_left
      (fun commonIssues result =>
         fold_left countIssue (issues (validation result)) commonIssues)
      validationResults ∅ in
  let totalOriginalSize :=
    fold_left (fun sum r => sum + m_originalSize (metrics (validation r)))
      validationResults 0 in
  let totalOptimizedSize :=
    fold_left (fun sum r => sum + m_optimizedSize (metrics (validation r)))
      validationResults 0 in
  let totalSizeReductionBytes := totalOriginalSize - totalOptimizedSize in
  let averageCompressionRatio :=
    if 0 <? totalOptimizedSize
    then (inject_Z totalOriginalSize / inject_Z totalOptimizedSize)%Q
    else 1%Q in
  {| r_totalImages := totalImages;
     validImages := validImages;
     averageQualityScore := averageQualityScore;
     averageSizeReduction := averageSizeReduction;
     thresholdCompliance := thresholdCompliance;
     commonIssues := commonIssues;
     overallMetrics :=
       {| totalOriginalSize := totalOriginalSize;
          totalOptimizedSize := totalOptimizedSize;
          o_totalSizeReduction := totalSizeReductionBytes;
          o_averageCompressionRatio := averageCompressionRatio |} |}.



End QualityValidator.

(** ** types/index.ts: configuration *)

Module Config.

Inductive ReportFormat := json | text.

Record QualityConfig := {
  q_photo : Z;
  q_graphic : Z;
  q_mixed : Z;
  q_minimum : Z
}.

Record DimensionsConfig := {
  maxWidth : Q;
  maxHeight : Q;
  preserveAspectRatio : bool
}.

Record ProcessingConfig := {
  concurrency : Q;
  enableProgressReporting : bool;
  continueOnError : bool
}.

Record OutputConfig := {
  preserveFilenames : bool;
  generateReport : bool;
  reportFormat : ReportFormat
}.

Record OptimizationConfig := {
  quality : QualityConfig;
  dimensions : DimensionsConfig;
  processing : ProcessingConfig;
  output : OutputConfig;
  supportedFormats : list string
}.

(** An object literal passed as [Partial<OptimizationConfig>]: any key may
    be missing, at both levels, as in the repository's own tests. *)
Record QualityUpdates := {
  u_photo : option Z;
  u_graphic : option Z;
  u_mixed : option Z;
  u_minimum : option Z
}.

Record DimensionsUpdates := {
  u_maxWidth : option Q;
  u_maxHeight : option Q;
  u_preserveAspectRatio : option bool
}.

Record ProcessingUpdates := {
  u_concurrency : option Q;
  u_enableProgressReporting : option bool;
  u_continueOnError : option bool
}.

Record OutputUpdates := {
  u_preserveFilenames : option bool;
  u_generateReport : option bool;
  u_reportFormat : option ReportFormat
}.

Record ConfigUpdates := {
  u_quality : option QualityUpdates;
  u_dimensions : option DimensionsUpdates;
  u_processing : option ProcessingUpdates;
  u_output : option OutputUpdates;
  u_supportedFormats : option (list string)
}.

Definition DEFAULT_CONFIG : OptimizationConfig :=
  {| quality :=
       {| q_photo := 88; q_graphic := 85; q_mixed := 86; q_minimum := 78 |};
     dimensions :=
       {| maxWidth := 1920%Q;
          maxHeight := 1080%Q;
          preserveAspectRatio := true |};
     processing :=
       {| concurrency := 4%Q;
          enableProgressReporting := true;
          continueOnError := true |};
     output :=
       {| preserveFilenames := true;
          generateReport := true;
          reportFormat := json |};
     supportedFormats := ["jpg"; "jpeg"; "png"; "dng"] |}.

End Config.
Import Config.

Module ConfigManager.

Record t := { config : OptimizationConfig }.

(** [{ ...base.quality, ...updates.quality }] and its three siblings. *)
Definition spread_quality (base : QualityConfig) (u : option QualityUpdates)
  : QualityConfig :=
  match u with
  | None => base
  | Some u =>
      {| q_photo := default (q_photo base) (u_photo u);
         q_graphic := default (q_graphic base) (u_graphic u);
         q_mixed := default (q_mixed base) (u_mixed u);
         q_minimum := default (q_minimum base) (u_minimum u) |}
  end.

Definition spread_dimensions
    (base : DimensionsConfig) (u : option DimensionsUpdates)
  : DimensionsConfig :=
  match u with
  | None => base
  | Some u =>
      {| maxWidth := default (maxWidth base) (u_maxWidth u);
         maxHeight := default (maxHeight base) (u_maxHeight u);
         preserveAspectRatio :=
           default (preserveAspectRatio base) (u_preserveAspectRatio u) |}
  end.

Definition spread_processing
    (base : ProcessingConfig) (u : option ProcessingUpdates)
  : ProcessingConfig :=
  match u with
  | None => base
  | Some u =>
      {| concurrency := default (concurrency base) (u_concurrency u);
         enableProgressReporting :=
           default (enableProgressReporting base)
             (u_enableProgressReporting u);
         continueOnError :=
           default (continueOnError base) (u_continueOnError u) |}
  end.

Definition spread_output (base : OutputConfig) (u : option OutputUpdates)
  : OutputConfig :=
  match u with
  | None => base
  | Some u =>
      {| preserveFilenames :=
           default (preserveFilenames base) (u_preserveFilenames u);
         generateReport := default (generateReport base) (u_generateReport u);
         reportFormat := default (reportFormat base) (u_reportFormat u) |}
  end.

Definition mergeConfig
    (base : OptimizationConfig) (updates : option ConfigUpdates)
  : OptimizationConfig :=
  match updates with
  | None => base
  | Some updates =>
      {| quality := spread_quality (quality base) (u_quality updates);
         dimensions :=
           spread_dimensions (dimensions base) (u_dimensions updates);
         processing :=
           spread_processing (processing base) (u_processing updates);
         output := spread_output (output base) (u_output updates);
         supportedFormats :=
           default (supportedFormats base) (u_supportedFormats updates) |}
  end.

(** The constructor merges and stores; it does not call
    [validateConfig]. *)
Definition new (customConfig : option ConfigUpdates) : result t :=
  Ok {| config := mergeConfig DEFAULT_CONFIG customConfig |}.

Definition getConfig (self : t) : OptimizationConfig := config self.

Definition getConcurrency (self : t) : Q :=
  concurrency (processing (config self)).

Definition shouldContinueOnError (self : t) : bool :=
  continueOnError (processing (config self)).

Definition validateConfig (self : t) : result unit :=
  let quality := quality (config self) in
  let processing := processing (config self) in
  let between :=
    " quality must be between " +:+ Num.toString (q_minimum quality)
    +:+ " and 100" in
  if (q_photo quality <? q_minimum quality) || (100 <? q_photo quality)
  then Throw ("Photo" +:+ between)
  else if (q_graphic quality <? q_minimum quality)
          || (100 <? q_graphic quality)
  then Throw ("Graphic" +:+ between)
  else if (q_mixed quality <? q_minimum quality) || (100 <? q_mixed quality)
  then Throw ("Mixed" +:+ between)
  else if (q_minimum quality <? 1) || (100 <? q_minimum quality)
  then Throw "Minimum quality must be between 1 and 100"
  else if Num.lt (concurrency processing) 1
  then Throw "Concurrency must be at least 1"
  else Ok tt.

(** The merged configuration is stored before it is validated, so the
    object keeps it also when validation throws. *)
Definition updateConfig (self : t) (updates : option ConfigUpdates)
  : result unit * t :=
  let self := {| config := mergeConfig (config self) updates |} in
  (validateConfig self, self).


Definition getQualityForContentType (self : t) (contentType : ContentType) : Z :=
  match contentType with
  | photo => q_photo (quality (config self))
  | graphic => q_graphic (quality (config self))
  | mixed => q_mixed (quality (config self))
  end.

Definition isFormatSupported (self : t) (format : string) : bool :=
  Str.includes (supportedFormats (config self)) (Str.toLowerCase format).

Definition isProgressReportingEnabled (self : t) : bool :=
  enableProgressReporting (processing (config self)).

Definition getMaxWidth (self : t) : Q := maxWidth (dimensions (config self)).

Definition getMaxHeight (self : t) : Q := maxHeight (dimensions (config self)).

Definition shouldPreserveAspectRatio (self : t) : bool :=
  preserveAspectRatio (dimensions (config self)).

End ConfigManager.

(** ** Node's EventEmitter, as far as the optimizer relies on it

    Emitting ['error'] on an emitter without a listener for it throws;
    every other event, and ['error'] with a listener, returns normally
    (listeners are taken to return normally). *)

Module EventEmitter.

Record t := { errorListener : bool }.

Definition new : t := {| errorListener := false |}.

(** [emitter.on('error', listener)] *)
Definition on_error (self : t) : t := {| errorListener := true |}.

(** [emit('error', err)]: [unhandled] is the message of what Node throws
    when nobody listens. *)
Definition emit_error (self : t) (unhandled : string) : result unit :=
  if errorListener self then Ok tt else Throw unhandled.

End EventEmitter.

(** ** progress-reporter.ts: ProgressReporter

    The ['start'], ['progress'] and ['complete'] events have no effect on
    the reporter and are left out, and so are the lines that [start],
    [reportError] and [complete] print, which are made of fixed texts and
    formatted numbers.  The progress bar that [updateProgress] prints is
    kept: building it can throw. *)

Module ProgressReporter.

Record ProgressReporterConfig := {
  enableConsoleOutput : bool;
  enableDetailedStats : bool;
  updateInterval : Q;
  showFileNames : bool;
  showSizeReduction : bool;
  showTimeEstimates : bool
}.

Definition DEFAULT_PROGRESS_CONFIG : ProgressReporterConfig :=
  {| enableConsoleOutput := true;
     enableDetailedStats := true;
     updateInterval := 100%Q;
     showFileNames := true;
     showSizeReduction := true;
     showTimeEstimates := true |}.

(** An object literal passed as [Partial<ProgressReporterConfig>]. *)
Record ProgressConfigUpdates := {
  pu_enableConsoleOutput : option bool;
  pu_enableDetailedStats : option bool;
  pu_updateInterval : option Q;
  pu_showFileNames : option bool;
  pu_showSizeReduction : option bool;
  pu_showTimeEstimates : option bool
}.

(** [{ ...base, ...updates }] *)
Definition spread
    (base : ProgressReporterConfig) (updates : option ProgressConfigUpdates)
  : ProgressReporterConfig :=
  match updates with
  | None => base
  | Some u =>
      {| enableConsoleOutput :=
           default (enableConsoleOutput base) (pu_enableConsoleOutput u);
         enableDetailedStats :=
           default (enableDetailedStats base) (pu_enableDetailedStats u);
         updateInterval := default (updateInterval base) (pu_updateInterval u);
         showFileNames := default (showFileNames base) (pu_showFileNames u);
         showSizeReduction :=
           default (showSizeReduction base) (pu_showSizeReduction u);
         showTimeEstimates :=
           default (showTimeEstimates base) (pu_showTimeEstimates u) |}
  end.

Record t := {
  emitter : EventEmitter.t;
  config : ProgressReporterConfig;
  startTime : Z;
  lastUpdateTime : Z;
  processedFiles : Z;
  totalFiles : Z;
  results : list OptimizationResult;
  processingTimes : list Z;
  isActive : bool
}.

Definition new (config : option ProgressConfigUpdates) : t :=
  {| emitter := EventEmitter.new;
     config := spread DEFAULT_PROGRESS_CONFIG config;
     startTime := 0;
     lastUpdateTime := 0;
     processedFiles := 0;
     totalFiles := 0;
     results := [];
     processingTimes := [];
     isActive := false |}.

Definition getConfig (self : t) : ProgressReporterConfig := config self.

Definition updateConfig (self : t) (updates : option ProgressConfigUpdates)
  : t :=
  {| emitter := emitter self;
     config := spread (config self) updates;
     startTime := startTime self;
     lastUpdateTime := lastUpdateTime self;
     processedFiles := processedFiles self;
     totalFiles := totalFiles self;
     results := results self;
     processingTimes := processingTimes self;
     isActive := isActive self |}.

(** [now] is the reading of [Date.now()]. *)
Definition start (self : t) (totalFiles : Z) (sourceDirectory : string)
    (now : Z) : t :=
  {| emitter := emitter self;
     config := config self;
     startTime := now;
     lastUpdateTime := now;
     processedFiles := 0;
     totalFiles := totalFiles;
     results := [];
     processingTimes := [];
     isActive := true |}.

(** The event's payload is a plain object, not an [Error]: without a
    listener Node throws an "Unhandled error" that wraps it. *)
Definition reportError
    (P : Platform) (self : t) (error : string) (filename : string)
  : result unit :=
  if negb (isActive self) then Ok tt
  else
    EventEmitter.emit_error (emitter self)
      ("Unhandled error. ("
       +:+ util_inspect P {| ev_error := error;
                             ev_filename := filename;
                             ev_processedFiles := processedFiles self |}
       +:+ ")").

Definition has_status (s : Status) (r : OptimizationResult) : bool :=
  Status_eqb (status r) s.

Definition generateFinalReport (self : t) (totalProcessingTime : Z)
  : ProcessingReport :=
  let successfulResults := List.filter (has_status success) (results self) in
  let failedResults := List.filter (has_status failed) (results self) in
  let totalSizeReduction :=
    fold_left (fun sum result => sum + (originalSize result - optimizedSize result))
      successfulResults 0 in
  let averageCompressionRatio :=
    if (0 <? length successfulResults)%nat
    then (fold_left (fun sum result => (sum + compressionRatio result)%Q)
            successfulResults 0%Q
          / inject_Z (Z.of_nat (length successfulResults)))%Q
    else 0%Q in
  {| totalImages := Z.of_nat (length (results self));
     successfulConversions := Z.of_nat (length successfulResults);
     failedConversions := Z.of_nat (length failedResults);
     totalSizeReduction := totalSizeReduction;
     averageCompressionRatio := averageCompressionRatio;
     report_processingTime := totalProcessingTime;
     Types.results := results self |}.

Definition complete (self : t) (now : Z) : result ProcessingReport * t :=
  if negb (isActive self)
  then (Throw "Progress reporter is not active", self)
  else
    let self' :=
      {| emitter := emitter self;
         config := config self;
         startTime := startTime self;
         lastUpdateTime := lastUpdateTime self;
         processedFiles := processedFiles self;
         totalFiles := totalFiles self;
         results := results self;
         processingTimes := processingTimes self;
         isActive := false |} in
    let totalProcessingTime := now - startTime self in
    (Ok (generateFinalReport self' totalProcessingTime), self').

Definition isReporting (self : t) : bool := isActive self.

(** *** What the reporter shows *)

(** ['processing' | 'completed' | 'failed' | 'skipped'] *)
Inductive ProgressStatus :=
| is_processing
| is_completed
| is_failed
| is_skipped.

Record DetailedProgress := {
  p_current : Z;
  p_total : Z;
  p_percentage : Z;
  p_currentFile : string;
  p_currentStatus : ProgressStatus;
  p_startTime : Z;
  p_elapsedTime : Z;
  p_estimatedTimeRemaining : Q;
  p_averageProcessingTime : Q;
  p_successCount : Z;
  p_failureCount : Z;
  p_skippedCount : Z;
  p_totalOriginalSize : Z;
  p_totalOptimizedSize : Z;
  p_totalSizeReduction : Z;
  p_averageCompressionRatio : Q;
  p_currentResult : option OptimizationResult
}.

Definition mapResultStatusToProgressStatus (status : Status) : ProgressStatus :=
  match status with
  | success => is_completed
  | failed => is_failed
  | skipped => is_skipped
  end.

Definition getStatusIcon (status : ProgressStatus) : string :=
  match status with
  | is_processing => "⚡"
  | is_completed => "✅"
  | is_failed => "❌"
  | is_skipped => "⏭️"
  end.

(** [currentTime] is the reading of [Date.now()].  With [totalFiles = 0]
    the percentage of the source is [NaN] or infinite; the properties
    below are about reporters started with at least one file. *)
Definition generateDetailedProgress
    (self : t) (currentResult : OptimizationResult) (currentFile : string)
    (currentTime : Z) : DetailedProgress :=
  let elapsedTime := currentTime - startTime self in
  let percentage :=
    Num.Math_round
      (Num.double
         (Num.double (inject_Z (processedFiles self) / inject_Z (totalFiles self))
          * 100))%Q in
  let averageProcessingTime :=
    if (0 <? length (processingTimes self))%nat
    then (inject_Z (fold_left (fun sum time => (sum + time)%Z)
                      (processingTimes self) 0%Z)
          / inject_Z (Z.of_nat (length (processingTimes self))))%Q
    else 0%Q in
  let remainingFiles := totalFiles self - processedFiles self in
  let estimatedTimeRemaining :=
    (inject_Z remainingFiles * averageProcessingTime)%Q in
  let successCount :=
    Z.of_nat (length (List.filter (has_status success) (results self))) in
  let failureCount :=
    Z.of_nat (length (List.filter (has_status failed) (results self))) in
  let skippedCount :=
    Z.of_nat (length (List.filter (has_status skipped) (results self))) in
  let successfulResults := List.filter (has_status success) (results self) in
  let totalOriginalSize :=
    fold_left (fun sum r => sum + originalSize r) successfulResults 0 in
  let totalOptimizedSize :=
    fold_left (fun sum r => sum + optimizedSize r) successfulResults 0 in
  let totalSizeReduction := totalOriginalSize - totalOptimizedSize in
  let averageCompressionRatio :=
    if (0 <? length successfulResults)%nat
    then (fold_left (fun sum r => (sum + compressionRatio r)%Q)
            successfulResults 0%Q
          / inject_Z (Z.of_nat (length successfulResults)))%Q
    else 0%Q in
  {| p_current := processedFiles self;
     p_total := totalFiles self;
     p_percentage := percentage;
     p_currentFile := currentFile;
     p_currentStatus := mapResultStatusToProgressStatus (status currentResult);
     p_startTime := startTime self;
     p_elapsedTime := elapsedTime;
     p_estimatedTimeRemaining := estimatedTimeRemaining;
     p_averageProcessingTime := averageProcessingTime;
     p_successCount := successCount;
     p_failureCount := failureCount;
     p_skippedCount := skippedCount;
     p_totalOriginalSize := totalOriginalSize;
     p_totalOptimizedSize := totalOptimizedSize;
     p_totalSizeReduction := totalSizeReduction;
     p_averageCompressionRatio := averageCompressionRatio;
     p_currentResult := Some currentResult |}.

(** What [displayConsoleProgress] sends to the terminal. *)
Inductive Output :=
| Written (text : string)     (* process.stdout.write *)
| Logged (line : string).     (* console.log *)

(** ["\r\x1b[K"] and ["\x1b[1A\x1b[K"] *)
Definition clearLine : string := String "013" (String "027" "[K").
Definition clearPreviousLine : string :=
  String "027" ("[1A" +:+ String "027" "[K").

Definition displayConsoleProgress
    (P : Platform) (config : ProgressReporterConfig)
    (progress : DetailedProgress) : result (list Output) :=
  let percentage := p_percentage progress in
  let current := p_current progress in
  let total := p_total progress in
  let currentFile := p_currentFile progress in
  let currentStatus := p_currentStatus progress in
  let barLength := 30 in
  let filledLength :=
    Num.Math_round
      (Num.double (Num.double (inject_Z percentage / 100) * inject_Z barLength))%Q in
  await filled := Str.repeat "█" filledLength in
  await unfilled := Str.repeat "░" (barLength - filledLength) in
  let bar := filled +:+ unfilled in
  let statusIcon := getStatusIcon currentStatus in
  let maxFileNameLength := 25%nat in
  let displayFileName :=
    if (maxFileNameLength <? String.length currentFile)%nat
    then "..." +:+ Str.slice_last (maxFileNameLength - 3) currentFile
    else currentFile in
  let progressLine :=
    statusIcon +:+ " [" +:+ bar +:+ "] " +:+ Num.toString percentage
    +:+ "% (" +:+ Num.toString current +:+ "/" +:+ Num.toString total +:+ ")" in
  let progressLine :=
    if showFileNames config then progressLine +:+ " | " +:+ displayFileName
    else progressLine in
  let statsLine := "" in
  let statsLine :=
    if enableDetailedStats config
    then
      let statsLine :=
        "   ✅ " +:+ Num.toString (p_successCount progress)
        +:+ " | ❌ " +:+ Num.toString (p_failureCount progress)
        +:+ " | ⏭️  " +:+ Num.toString (p_skippedCount progress) in
      let statsLine :=
        if showSizeReduction config && (0 <? p_totalSizeReduction progress)
        then
          let sizeReductionMB :=
            toFixed1 P (inject_Z (p_totalSizeReduction progress)
                        / inject_Z (1024 * 1024))%Q in
          let compressionPercent :=
            toFixed1 P (p_averageCompressionRatio progress) in
          statsLine +:+ " | 💾 -" +:+ sizeReductionMB +:+ "MB ("
          +:+ compressionPercent +:+ "%)"
        else statsLine in
      let statsLine :=
        if showTimeEstimates config
           && Num.gt (p_estimatedTimeRemaining progress) 0
        then
          let remainingSeconds :=
            Num.Math_round (p_estimatedTimeRemaining progress / 1000)%Q in
          let remainingTime :=
            if 60 <? remainingSeconds
            then Num.toString (remainingSeconds / 60) +:+ "m "
                 +:+ Num.toString (remainingSeconds mod 60) +:+ "s"
            else Num.toString remainingSeconds +:+ "s" in
          statsLine +:+ " | ⏱️  ~" +:+ remainingTime
        else statsLine in
      statsLine
    else statsLine in
  let shown := negb (String.eqb statsLine "") in
  Ok ([Written clearLine]
      ++ (if shown then [Written clearPreviousLine] else [])
      ++ [Logged progressLine]
      ++ (if shown then [Logged statsLine] else []))%list.

(** What drawing the bar gives: the output, or what it throws. *)
Abbreviation Drawn := (result (list Output)).

(** [currentTime] is the reading of [Date.now()].  The counters are
    updated first; the bar is drawn afterwards, when the interval has
    passed or the last file is reached, and what it throws leaves the
    counters as they are.  [generateDetailedProgress] reads the clock
    once more, for the elapsed time, which the bar does not show: it is
    given the same reading. *)
Definition updateProgress
    (P : Platform) (self : t) (result : OptimizationResult)
    (filename : string) (currentTime : Z) : Drawn * t :=
  if negb (isActive self) then (Ok [], self)
  else
    let self :=
      {| emitter := emitter self;
         config := config self;
         startTime := startTime self;
         lastUpdateTime := lastUpdateTime self;
         processedFiles := processedFiles self + 1;
         totalFiles := totalFiles self;
         results := push (results self) result;
         processingTimes :=
           if 0 <? processingTime result
           then push (processingTimes self) (processingTime result)
           else processingTimes self;
         isActive := true |} in
    let shouldUpdate :=
      Num.ge (inject_Z (currentTime - lastUpdateTime self))
        (updateInterval (config self)) in
    if shouldUpdate || (processedFiles self =? totalFiles self)
    then
      let self :=
        {| emitter := emitter self;
           config := config self;
           startTime := startTime self;
           lastUpdateTime := currentTime;
           processedFiles := processedFiles self;
           totalFiles := totalFiles self;
           results := results self;
           processingTimes := processingTimes self;
           isActive := true |} in
      let progress :=
        generateDetailedProgress self result filename currentTime in
      if enableConsoleOutput (config self)
      then (displayConsoleProgress P (config self) progress, self)
      else (Ok [], self)
    else (Ok [], self).

End ProgressReporter.


(** ** Stateful, fallible computations

    [M St A] is a computation over a mutable state [St] that returns an
    [A] or throws.  What was written before a throw stays written: the
    handler of [mtry] runs in the state the body left. *)

Definition M (St A : Type) : Type := St -> result A * St.

Definition ret {St A : Type} (a : A) : M St A := fun st => (Ok a, st).

Definition throw {St A : Type} (message : string) : M St A :=
  fun st => (Throw message, st).

Definition mbind {St A B : Type} (m : M St A) (k : A -> M St B) : M St B :=
  fun st =>
    match m st with
    | (Ok a, st') => k a st'
    | (Throw e, st') => (Throw e, st')
    end.

Definition mtry {St A : Type} (body : M St A) (handler : string -> M St A)
  : M St A :=
  fun st =>
    match body st with
    | (Ok a, st') => (Ok a, st')
    | (Throw e, st') => handler e st'
    end.

(** A computation that only reads the state. *)
Definition reads {St A : Type} (f : St -> result A) : M St A :=
  fun st => (f st, st).

Definition modify {St : Type} (f : St -> St) : M St unit :=
  fun st => (Ok tt, f st).

Notation "'run' x ':=' m 'in' k" := (mbind m (fun x => k))
  (at level 10, x name, m at level 100, k at level 200).

Abbreviation IO := (M FileSystem).

(** ** core/index.ts: FormatDetector *)

Module FormatDetector.

Record t := { supportedFormats : list string }.

Definition new (supportedFormats : option (list string)) : t :=
  {| supportedFormats :=
       default (Config.supportedFormats DEFAULT_CONFIG) supportedFormats |}.

Record FileValidation := {
  isValid : bool;
  format : option string;
  isWebPCompatible : bool;
  errorMessage : option string
}.

(** [buffer[i]] of a [Buffer]. *)
Definition byte (buffer : list Z) (i : nat) : Z := nth i buffer 0.

(** [Buffer.alloc(12)] filled by [fs.read(fd, buffer, 0, 12, 0)]. *)
Definition read12 (fs : FileSystem) (imagePath : string) : result (list Z) :=
  match fs !! imagePath with
  | Some f => Ok (take 12 (app (file_bytes f) (replicate 12 0)))
  | None =>
      Throw ("ENOENT: no such file or directory, open '" +:+ imagePath +:+ "'")
  end.

Definition identifyFormatFromBuffer (buffer : list Z) : option string :=
  if (byte buffer 0 =? 0xFF) && (byte buffer 1 =? 0xD8) && (byte buffer 2 =? 0xFF)
  then Some "jpeg"
  else if (byte buffer 0 =? 0x89) && (byte buffer 1 =? 0x50)
          && (byte buffer 2 =? 0x4E) && (byte buffer 3 =? 0x47)
          && (byte buffer 4 =? 0x0D) && (byte buffer 5 =? 0x0A)
          && (byte buffer 6 =? 0x1A) && (byte buffer 7 =? 0x0A)
  then Some "png"
  else if ((byte buffer 0 =? 0x49) && (byte buffer 1 =? 0x49)
           && (byte buffer 2 =? 0x2A) && (byte buffer 3 =? 0x00))
          || ((byte buffer 0 =? 0x4D) && (byte buffer 1 =? 0x4D)
              && (byte buffer 2 =? 0x00) && (byte buffer 3 =? 0x2A))
  then Some "dng"
  else None.

Definition isFormatConsistentWithExtension
    (detectedFormat fileExtension : string) : bool :=
  let extensionMap : list (string * list string) :=
    [("jpeg", ["jpg"; "jpeg"]); ("png", ["png"]); ("dng", ["dng"; "tiff"; "tif"])] in
  match List.find (fun kv => String.eqb (fst kv) (Str.toLowerCase detectedFormat))
          extensionMap with
  | Some (_, validExtensions) =>
      Str.includes validExtensions (Str.toLowerCase fileExtension)
  | None => false
  end.

Definition detectFormatFromExtension
    (P : Platform) (self : t) (imagePath : string) : option string :=
  let extension :=
    Str.remove "." (Str.toLowerCase (path_extname P imagePath)) in
  let extensionMap : list (string * string) :=
    [("jpg", "jpeg"); ("jpeg", "jpeg"); ("png", "png"); ("dng", "dng")] in
  match List.find (fun kv => String.eqb (fst kv) extension) extensionMap with
  | Some (_, format) =>
      if Str.includes (supportedFormats self) format then Some format else None
  | None => None
  end.

Definition detectFormat
    (P : Platform) (self : t) (fs : FileSystem) (imagePath : string)
  : result (option string) :=
  try_catch
    (let exists_ := fs_pathExists fs imagePath in
     if negb exists_ then Throw ("File does not exist: " +:+ imagePath)
     else
       await buffer := read12 fs imagePath in
       let format := identifyFormatFromBuffer buffer in
       let fileExtension :=
         Str.remove "." (Str.toLowerCase (path_extname P imagePath)) in
       match format with
       | Some detected =>
           if isFormatConsistentWithExtension detected fileExtension
           then Ok (Some detected)
           else Ok (detectFormatFromExtension P self imagePath)
       | None => Ok (detectFormatFromExtension P self imagePath)
       end)
    (fun message =>
       Throw ("Failed to detect format for " +:+ imagePath +:+ ": " +:+ message)).

Definition validateWebPCompatibility (format : string) : bool :=
  let webpCompatibleFormats := ["jpeg"; "png"; "dng"] in
  Str.includes webpCompatibleFormats (Str.toLowerCase format).

Definition isFormatSupported (self : t) (format : string) : bool :=
  Str.includes (supportedFormats self) (Str.toLowerCase format).

Definition validateImageFile
    (P : Platform) (self : t) (fs : FileSystem) (imagePath : string)
  : result FileValidation :=
  try_catch
    (await format := detectFormat P self fs imagePath in
     match format with
     | None =>
         Ok {| isValid := false;
               format := None;
               isWebPCompatible := false;
               errorMessage := Some "Unsupported or unrecognized image format" |}
     | Some format =>
         let isSupported := isFormatSupported self format in
         let isWebPCompatible := validateWebPCompatibility format in
         if negb isSupported
         then Ok {| isValid := false;
                    format := Some format;
                    isWebPCompatible := isWebPCompatible;
                    errorMessage :=
                      Some ("Format " +:+ format +:+ " is not supported") |}
         else if negb isWebPCompatible
         then Ok {| isValid := false;
                    format := Some format;
                    isWebPCompatible := isWebPCompatible;
                    errorMessage :=
                      Some ("Format " +:+ format
                            +:+ " cannot be converted to WebP") |}
         else Ok {| isValid := true;
                    format := Some format;
                    isWebPCompatible := true;
                    errorMessage := None |}
     end)
    (fun message =>
       Ok {| isValid := false;
             format := None;
             isWebPCompatible := false;
             errorMessage := Some message |}).


Definition getSupportedFormats (self : t) : list string := supportedFormats self.

End FormatDetector.

(** ** utils/index.ts: FileManager *)

Module FileManager.

Record t := { supportedExtensions : list string }.

Definition new (supportedFormats : option (list string)) : t :=
  {| supportedExtensions :=
       default (Config.supportedFormats DEFAULT_CONFIG) supportedFormats |}.

Definition isSupportedImageFile (P : Platform) (self : t) (filename : string)
  : bool :=
  let extension := Str.remove "." (Str.toLowerCase (path_extname P filename)) in
  Str.includes (supportedExtensions self) extension.

Definition getSupportedExtensions (self : t) : list string :=
  supportedExtensions self.

(** *** Scanning a directory

    What a path names: a regular file, a directory with what [readdir]
    gives for it (the entries with what they name, or the error), some
    other kind of entry, or nothing (then [stat] throws). *)
#[warnings="-register-all"] Inductive Node :=
| RegularFile
| Directory (listing : result (list (string * Node)))
| Special
| Missing.

Fixpoint scanDirectory
    (P : Platform) (self : t) (sourcePath : string) (node : Node)
  : result (list string) :=
  try_catch
    (match node with
     | Missing =>
         Throw ("ENOENT: no such file or directory, stat '" +:+ sourcePath
                +:+ "'")
     | RegularFile | Special =>
         Throw ("Source path is not a directory: " +:+ sourcePath)
     | Directory (Throw message) => Throw message
     | Directory (Ok entries) =>
         (fix loop (entries : list (string * Node)) (imageFiles : list string)
            : result (list string) :=
            match entries with
            | [] => Ok imageFiles
            | (name, entry) :: rest =>
                let fullPath := path_join P sourcePath name in
                match entry with
                | Directory _ =>
                    await subDirectoryFiles :=
                      scanDirectory P self fullPath entry in
                    loop rest (app imageFiles subDirectoryFiles)
                | RegularFile =>
                    if isSupportedImageFile P self name
                    then loop rest (push imageFiles fullPath)
                    else loop rest imageFiles
                | Special | Missing => loop rest imageFiles
                end
            end) entries []
     end)
    (fun message =>
       Throw ("Failed to scan directory " +:+ sourcePath +:+ ": " +:+ message)).

(** Every directory of the tree, the top one included, can be listed. *)
Fixpoint listable (node : Node) : bool :=
  match node with
  | Directory (Ok entries) =>
      forallb (fun entry : string * Node =>
                 match entry.2 with
                 | Directory _ => listable entry.2
                 | _ => true
                 end) entries
  | Directory (Throw _) => false
  | RegularFile | Special | Missing => false
  end.

(** [fs.pathExists(path)] and [fs.readdir(path)] on what the path names. *)
Definition pathExists (node : Node) : bool :=
  match node with Missing => false | _ => true end.

Definition readdir (path : string) (node : Node) : result (list string) :=
  match node with
  | Directory (Ok entries) => Ok (map fst entries)
  | Directory (Throw message) => Throw message
  | Missing =>
      Throw ("ENOENT: no such file or directory, scandir '" +:+ path +:+ "'")
  | RegularFile | Special =>
      Throw ("ENOTDIR: not a directory, scandir '" +:+ path +:+ "'")
  end.

Definition generateWebPFilename (P : Platform) (originalPath : string) : string :=
  path_parse_name P originalPath +:+ ".webp".

Definition generateWebPOutputPath
    (P : Platform) (originalPath outputDirectory : string) : string :=
  let webpFilename := generateWebPFilename P originalPath in
  path_join P outputDirectory webpFilename.


(** *** File names

    A file name is the sequence of its UTF-16 code units, which is what
    the regular expressions and [trim] of the source read. *)

Definition reservedChar (c : Z) : bool :=
  (c =? 60) || (c =? 62) || (c =? 58) || (c =? 34) || (c =? 124)
  || (c =? 63) || (c =? 42).
  (* the class of < > : double quote | ? and the asterisk *)

Definition controlChar (c : Z) : bool :=
  ((0 <=? c) && (c <=? 31)) || ((128 <=? c) && (c <=? 159)).
  (* the class \x00-\x1f\x80-\x9f *)

(** White space and line terminators, which [trim] removes. *)
Definition whiteSpace (c : Z) : bool :=
  ((9 <=? c) && (c <=? 13)) || (c =? 32) || (c =? 160) || (c =? 5760)
  || ((8192 <=? c) && (c <=? 8202)) || (c =? 8232) || (c =? 8233)
  || (c =? 8239) || (c =? 8287) || (c =? 12288) || (c =? 65279).

Fixpoint trimStart (s : list Z) : list Z :=
  match s with
  | c :: rest => if whiteSpace c then trimStart rest else s
  | [] => []
  end.

Definition trimEnd (s : list Z) : list Z := rev (trimStart (rev s)).

Definition trim (s : list Z) : list Z := trimEnd (trimStart s).

Definition validateFilename (filename : list Z) : bool :=
  if (length filename =? 0)%nat || (length (trim filename) =? 0)%nat
  then false
  else if existsb reservedChar filename then false
  else if existsb controlChar filename then false
  else true.

Definition sanitizeFilename (filename : list Z) : list Z :=
  if validateFilename filename then filename
  else
    let sanitized :=
      trim (List.filter (fun c => negb (controlChar c))
              (map (fun c => if reservedChar c then 95 else c) filename)) in
    let sanitized :=
      if (length sanitized =? 0)%nat
      then [105; 109; 97; 103; 101]                (* the word image *)
      else sanitized in
    sanitized.

(** *** The mapping file and the output directory *)

(** [mapping] is a plain object used as a map from the names of the
    original files to the names of their WebP files; [__proto__] is not
    a key that such an object can hold. *)
Definition generateFilenameMapping
    (P : Platform) (originalFiles : list string) (outputDirectory : string)
  : gmap string string :=
  fold_left
    (fun mapping originalPath =>
       let originalFilename := path_basename P originalPath in
       let webpFilename := generateWebPFilename P originalPath in
       let webpPath := path_join P outputDirectory webpFilename in
       <[originalFilename := webpFilename]> mapping)
    originalFiles ∅.

(** [filename] is the optional third argument. *)
Definition saveFilenameMapping
    (P : Platform) (mapping : gmap string string) (outputDirectory : string)
    (filename : option string) : IO unit :=
  mtry
    (let filename := default "filename-mapping.json" filename in
     let mappingPath := path_join P outputDirectory filename in
     let mappingData :=
       {| mp_generatedAt := toISOString_now P mappingPath;
          mp_totalFiles := Z.of_nat (size mapping);
          mp_mapping := mapping |} in
     run written := reads (fun _ => writeJson_mapping P mappingPath mappingData) in
     modify (fun fs => <[mappingPath := written]> fs))
    (fun message => throw ("Failed to save filename mapping: " +:+ message)).

(** [basename_without file ext] is [path.basename(file, ext)]; [output]
    is what [outputPath] names. *)
Definition isOutputDirectorySafe
    (P : Platform) (basename_without : string -> string -> string)
    (outputPath : string) (output : Node) : result bool :=
  try_catch
    (let exists_ := pathExists output in
     if negb exists_ then Ok true
     else
       await files := readdir outputPath output in
       let safeFiles :=
         List.filter
           (fun file =>
              let ext := Str.toLowerCase (path_extname P file) in
              let basename := Str.toLowerCase (basename_without file ext) in
              String.eqb ext ".json"
              && (Str.contains "mapping" basename
                  || Str.contains "report" basename
                  || Str.contains "optimization" basename))
           files in
       Ok (length files =? length safeFiles)%nat)
    (fun _ => Ok false).

End FileManager.

(** ** core/index.ts: WebPConverter

    Metadata extraction, the format-specific preprocessing, the dimension
    constraints and the encoder proper are the platform's [webp_encode];
    directories are not part of the file-system model, so [ensureDir] has
    nothing to do. *)

Module WebPConverter.

Record t := { formatDetector : FormatDetector.t }.

Definition new (formatDetector : option FormatDetector.t) : t :=
  {| formatDetector := default (FormatDetector.new None) formatDetector |}.

Definition getImageMetadata (fs : FileSystem) (imagePath : string)
  : result Metadata :=
  try_catch
    (let sharpInstance := sharp fs imagePath in
     await metadata := sharp_metadata sharpInstance in
     await _size := fs_stat fs imagePath in
     Ok metadata)
    (fun message => Throw ("Failed to get image metadata: " +:+ message)).

Definition createSharpInstance (fs : FileSystem) (inputPath : string)
  : result (result Picture) :=
  try_catch
    (let sharpInstance := sharp fs inputPath in
     await _metadata := sharp_metadata sharpInstance in
     Ok sharpInstance)
    (fun message =>
       Throw ("Corrupted or unsupported image file: " +:+ message)).

(** [processedImage.webp({...}).toFile(outputPath)] *)
Definition toFile
    (P : Platform) (format inputPath outputPath : string)
    (quality : Z) (maxWidth maxHeight : Q) : IO unit :=
  fun fs =>
    match fs !! inputPath with
    | None => (Throw ("Input file is missing: " +:+ inputPath), fs)
    | Some input =>
        match webp_encode P format input quality maxWidth maxHeight with
        | Ok encoded => (Ok tt, <[outputPath := encoded]> fs)
        | Throw message => (Throw message, fs)
        end
    end.

Definition convertToWebP
    (P : Platform) (self : t) (inputPath outputPath : string)
    (quality : Z) (maxWidth maxHeight : Q) : IO OptimizationResult :=
  mtry
    (run validation :=
       reads (fun fs =>
                FormatDetector.validateImageFile P (formatDetector self) fs
                  inputPath) in
     if negb (FormatDetector.isValid validation)
     then throw (Str.or_default (FormatDetector.errorMessage validation)
                   "Invalid image file")
     else
       run originalSize := reads (fun fs => fs_stat fs inputPath) in
       run _metadata := reads (fun fs => getImageMetadata fs inputPath) in
       run _sharpInstance := reads (fun fs => createSharpInstance fs inputPath) in
       run _written :=
         toFile P (default "" (FormatDetector.format validation)) inputPath
           outputPath (Num.Math_round (inject_Z quality)) maxWidth maxHeight in
       run optimizedSize := reads (fun fs => fs_stat fs outputPath) in
       let compressionRatio :=
         ((inject_Z originalSize - inject_Z optimizedSize)
          / inject_Z originalSize * 100)%Q in
       let processingTime := elapsed P inputPath in
       ret {| originalPath := inputPath;
              optimizedPath := outputPath;
              originalSize := originalSize;
              optimizedSize := optimizedSize;
              compressionRatio := compressionRatio;
              qualityScore := inject_Z quality;
              processingTime := processingTime;
              status := success;
              Types.errorMessage := None |})
    (fun errorMessage =>
       let processingTime := elapsed P inputPath in
       ret {| originalPath := inputPath;
              optimizedPath := outputPath;
              originalSize := 0;
              optimizedSize := 0;
              compressionRatio := 0;
              qualityScore := inject_Z quality;
              processingTime := processingTime;
              status := failed;
              Types.errorMessage := Some errorMessage |}).


(** What [applyDimensionConstraints] does to the image: nothing, or one
    [resize] to the given width and height (with [withoutEnlargement]).
    [width] and [height] are [metadata.dimensions], the pixel counts of
    the decoded image; the two limits are the caller's numbers. *)
Inductive Resizing :=
| Untouched
| Resized (newWidth newHeight : Z).

Definition applyDimensionConstraints
    (width height : Z) (maxWidth maxHeight : Q) : Resizing :=
  if Num.le (inject_Z width) maxWidth && Num.le (inject_Z height) maxHeight
  then Untouched
  else
    let widthScale := Num.double (maxWidth / inject_Z width)%Q in
    let heightScale := Num.double (maxHeight / inject_Z height)%Q in
    let scale := Qmin widthScale heightScale in
    let newWidth := Num.Math_round (Num.double (inject_Z width * scale))%Q in
    let newHeight := Num.Math_round (Num.double (inject_Z height * scale))%Q in
    Resized newWidth newHeight.

Definition isConversionSupported
    (P : Platform) (self : t) (fs : FileSystem) (imagePath : string)
  : result bool :=
  try_catch
    (await validation :=
       FormatDetector.validateImageFile P (formatDetector self) fs imagePath in
     Ok (FormatDetector.isValid validation
         && FormatDetector.isWebPCompatible validation))
    (fun _ => Ok false).

(** The [catch] block reads the size again, and fails if that fails. *)
Definition estimateOutputSize
    (P : Platform) (self : t) (fs : FileSystem) (imagePath : string)
    (quality : Q) : result Z :=
  try_catch
    (await originalSize := fs_stat fs imagePath in
     await validation :=
       FormatDetector.validateImageFile P (formatDetector self) fs imagePath in
     let format := Str.or_default (FormatDetector.format validation) "" in
     if negb (FormatDetector.isValid validation) || String.eqb format ""
     then Ok originalSize
     else
       let lowered := Str.toLowerCase format in
       let estimatedReduction :=
         if String.eqb lowered "png" then 0.8%Q
         else if String.eqb lowered "jpeg" then 0.35%Q
         else if String.eqb lowered "dng" then 0.6%Q
         else 0.4%Q in
       let qualityFactor := (quality / 100)%Q in
       let adjustedReduction :=
         (estimatedReduction * (1 - qualityFactor * 0.3))%Q in
       Ok (Num.Math_round
             (inject_Z originalSize * (1 - adjustedReduction))%Q))
    (fun _ => await size := fs_stat fs imagePath in Ok size).

End WebPConverter.

(** ** batch-processor.ts: Semaphore

    A queued [resolve] callback is identified with the index of the task
    that waits on it. *)

Module Semaphore.

Record t := {
  permits : Q;
  waitQueue : list nat
}.

Definition new (permits : Q) : t := {| permits := permits; waitQueue := [] |}.

(** [acquire()] called by task [who]: [true] when the promise resolves at
    once, [false] when the task is queued. *)
Definition acquire (self : t) (who : nat) : bool * t :=
  if Num.gt (permits self) 0
  then (true, {| permits := (permits self - 1)%Q; waitQueue := waitQueue self |})
  else (false, {| permits := permits self; waitQueue := push (waitQueue self) who |}).

(** [release()]: the task it wakes up, if any. *)
Definition release (self : t) : option nat * t :=
  let permits := (permits self + 1)%Q in
  match waitQueue self with
  | nextResolve :: rest =>
      (Some nextResolve, {| permits := (permits - 1)%Q; waitQueue := rest |})
  | [] => (None, {| permits := permits; waitQueue := [] |})
  end.


Definition availablePermits (self : t) : Q := permits self.

Definition getQueueLength (self : t) : Z := Z.of_nat (length (waitQueue self)).

End Semaphore.

(** ** batch-processor.ts: BatchProcessor

    JavaScript runs one continuation at a time.  A run of the batch is
    therefore determined by the order in which the pending [processImage]
    calls finish; a [schedule] is that order, each entry choosing one of
    the tasks in flight.  The effects of one [processImage] call on the
    file system are applied when the call finishes.  The optional
    [onProgress] and [onError] hooks of the caller are taken to return
    normally. *)

Module BatchProcessor.

Record t := {
  emitter : EventEmitter.t;
  configManager : ConfigManager.t;
  formatDetector : FormatDetector.t;
  webpConverter : WebPConverter.t;
  qualityCalculator : DynamicQualityCalculator.t;
  qualityValidator : QualityValidator.t;
  progressReporter : ProgressReporter.t
}.

Definition new (config : option ConfigUpdates) : result t :=
  await configManager := ConfigManager.new config in
  let currentConfig := ConfigManager.getConfig configManager in
  let formatDetector :=
    FormatDetector.new (Some (supportedFormats currentConfig)) in
  Ok {| emitter := EventEmitter.new;
        configManager := configManager;
        formatDetector := formatDetector;
        webpConverter := WebPConverter.new (Some formatDetector);
        qualityCalculator :=
          DynamicQualityCalculator.new (Some (q_minimum (quality currentConfig)));
        qualityValidator :=
          QualityValidator.new (Some (q_minimum (quality currentConfig))) None;
        progressReporter := ProgressReporter.new None |}.

(** [processor.on('error', listener)] *)
Definition on_error (self : t) : t :=
  {| emitter := EventEmitter.on_error (emitter self);
     configManager := configManager self;
     formatDetector := formatDetector self;
     webpConverter := webpConverter self;
     qualityCalculator := qualityCalculator self;
     qualityValidator := qualityValidator self;
     progressReporter := progressReporter self |}.

Definition updateConfig (self : t) (updates : option ConfigUpdates)
  : result unit * t :=
  let '(outcome, configManager) :=
    ConfigManager.updateConfig (configManager self) updates in
  (outcome,
   {| emitter := emitter self;
      configManager := configManager;
      formatDetector := formatDetector self;
      webpConverter := webpConverter self;
      qualityCalculator := qualityCalculator self;
      qualityValidator := qualityValidator self;
      progressReporter := progressReporter self |}).

(** [result.status = s] *)
Definition set_status (result : OptimizationResult) (s : Status)
  : OptimizationResult :=
  {| originalPath := originalPath result;
     optimizedPath := optimizedPath result;
     originalSize := originalSize result;
     optimizedSize := optimizedSize result;
     compressionRatio := compressionRatio result;
     qualityScore := qualityScore result;
     processingTime := processingTime result;
     status := s;
     errorMessage := errorMessage result |}.

(** [result.errorMessage = m] *)
Definition set_errorMessage (result : OptimizationResult) (m : string)
  : OptimizationResult :=
  {| originalPath := originalPath result;
     optimizedPath := optimizedPath result;
     originalSize := originalSize result;
     optimizedSize := optimizedSize result;
     compressionRatio := compressionRatio result;
     qualityScore := qualityScore result;
     processingTime := processingTime result;
     status := status result;
     errorMessage := Some m |}.

(** The result literal the source builds for an item without output. *)
Definition blank_result (imagePath : string) (s : Status) (message : string)
  : OptimizationResult :=
  {| originalPath := imagePath;
     optimizedPath := "";
     originalSize := 0;
     optimizedSize := 0;
     compressionRatio := 0;
     qualityScore := 0;
     processingTime := 0;
     status := s;
     errorMessage := Some message |}.

Definition processImage
    (P : Platform) (self : t) (imagePath outputDirectory : string)
  : IO OptimizationResult :=
  mtry
    (run validation :=
       reads (fun fs =>
                FormatDetector.validateImageFile P (formatDetector self) fs
                  imagePath) in
     if negb (FormatDetector.isValid validation)
     then ret (blank_result imagePath skipped
                 (Str.or_default (FormatDetector.errorMessage validation)
                    "Invalid image file"))
     else
       run qualityResult :=
         reads (fun fs =>
                  DynamicQualityCalculator.calculateOptimalQuality
                    (qualityCalculator self) fs imagePath None) in
       let optimalQuality := DynamicQualityCalculator.quality qualityResult in
       let outputPath :=
         FileManager.generateWebPOutputPath P imagePath outputDirectory in
       let config := ConfigManager.getConfig (configManager self) in
       run result :=
         WebPConverter.convertToWebP P (webpConverter self) imagePath outputPath
           optimalQuality (maxWidth (dimensions config))
           (maxHeight (dimensions config)) in
       run result :=
         (if Status_eqb (status result) success
          then
            run qualityValidation :=
              reads (fun fs =>
                       QualityValidator.validateOutputQuality P
                         (qualityValidator self) fs imagePath outputPath
                         (inject_Z optimalQuality)) in
            if negb (QualityValidator.isValid qualityValidation)
            then
              let result := set_status result failed in
              let result :=
                set_errorMessage result
                  ("Quality validation failed: "
                   +:+ Str.join ", " (QualityValidator.issues qualityValidation)) in
              ret result
            else ret result
          else ret result) in
       ret result)
    (fun errorMessage => ret (blank_result imagePath failed errorMessage)).

(** *** The state of one [processDirectory] call *)

(** The locals [results] and [processedFiles] that the callbacks close
    over, and the reporter they drive. *)
Record RunState := {
  run_results : list OptimizationResult;
  run_processedFiles : Z;
  run_reporter : ProgressReporter.t
}.

(** The [onResult] callback of [processDirectory]: the result is
    stored and counted before the reporter is told, and the reporter has
    counted it too when drawing the bar throws.  The ['progress'] event
    that follows has no effect on the state. *)
Definition onResult
    (P : Platform) (imageFiles : list string)
    (result : OptimizationResult) (index : nat) : M RunState unit :=
  fun s =>
    let results := push (run_results s) result in
    let processedFiles := run_processedFiles s + 1 in
    let filename := path_basename P (nth index imageFiles "") in
    let '(drawn, reporter) :=
      ProgressReporter.updateProgress P (run_reporter s) result filename
        (Date_now P processedFiles) in
    (match drawn with
     | Ok _ => Ok tt
     | Throw error => Throw error
     end,
     {| run_results := results;
        run_processedFiles := processedFiles;
        run_reporter := reporter |}).

(** The [onError] callback of [processDirectory]; an [Error] emitted as
    ['error'] without a listener is thrown as it is. *)
Definition onError
    (P : Platform) (self : t) (error : string) (imagePath : string)
  : M RunState unit :=
  run _reported :=
    reads (fun s =>
             ProgressReporter.reportError P (run_reporter s) error
               (path_basename P imagePath)) in
  run _emitted := reads (fun _ => EventEmitter.emit_error (emitter self) error) in
  ret tt.

(** *** The pool of tasks *)

Inductive Event :=
| Started (index : nat)                               (* processImage is called *)
| Recorded (index : nat) (result : OptimizationResult)   (* onResult is called *)
| Settled (index : nat) (outcome : result unit).      (* the promise settles *)

Record Pool := {
  pool_fs : FileSystem;
  pool_run : RunState;
  semaphore : Semaphore.t;
  running : list nat;
  settled : gmap nat (result unit);
  trace : list Event
}.

(** The part of a task after [await this.processImage(...)]: the [try]
    body, the [catch] handler, and the promise's outcome.  The state is
    the callbacks' state and the trace. *)
Definition log (e : Event) : M (RunState * list Event) unit :=
  modify (fun st => (st.1, push st.2 e)).

Definition call {A : Type} (m : M RunState A) : M (RunState * list Event) A :=
  fun st => let '(outcome, s) := m st.1 in (outcome, (s, st.2)).

Definition continuation
    (P : Platform) (self : t) (imageFiles : list string)
    (imagePath : string) (index : nat) (awaited : result OptimizationResult)
  : M (RunState * list Event) unit :=
  let continueOnError :=
    ConfigManager.shouldContinueOnError (configManager self) in
  mtry
    (run result := reads (fun _ => awaited) in
     run _logged := log (Recorded index result) in
     run _called := call (onResult P imageFiles result index) in
     if Status_eqb (status result) failed && negb continueOnError
     then throw (Str.or_default (errorMessage result) "Image processing failed")
     else ret tt)
    (fun processError =>
       let failedResult := blank_result imagePath failed processError in
       run _logged := log (Recorded index failedResult) in
       run _called := call (onResult P imageFiles failedResult index) in
       run _reported := call (onError P self processError imagePath) in
       if negb continueOnError then throw processError else ret tt).

(** The synchronous start of task [index]: it asks for a permit and either
    calls [processImage] or waits. *)
Definition spawn (pool : Pool) (index : nat) : Pool :=
  let '(acquired, semaphore) := Semaphore.acquire (semaphore pool) index in
  {| pool_fs := pool_fs pool;
     pool_run := pool_run pool;
     semaphore := semaphore;
     running := if acquired then push (running pool) index else running pool;
     settled := settled pool;
     trace := if acquired then push (trace pool) (Started index) else trace pool |}.

(** Task [index] finishes its [processImage] call and runs to the end,
    [finally] block included. *)
Definition finish
    (P : Platform) (self : t) (imageFiles : list string)
    (outputDirectory : string) (index : nat) (pool : Pool) : Pool :=
  let imagePath := nth index imageFiles "" in
  let '(awaited, fs) := processImage P self imagePath outputDirectory (pool_fs pool) in
  let '(outcome, (state, trace)) :=
    continuation P self imageFiles imagePath index awaited
      (pool_run pool, trace pool) in
  let '(woken, semaphore) := Semaphore.release (semaphore pool) in
  let trace := push trace (Settled index outcome) in
  let others := List.filter (fun i => negb (Nat.eqb i index)) (running pool) in
  {| pool_fs := fs;
     pool_run := state;
     semaphore := semaphore;
     running := match woken with Some j => push others j | None => others end;
     settled := <[index := outcome]> (settled pool);
     trace := match woken with Some j => push trace (Started j) | None => trace end |}.

(** One entry of the schedule: which task in flight finishes next. *)
Definition step
    (P : Platform) (self : t) (imageFiles : list string)
    (outputDirectory : string) (pool : Pool) (choice : nat) : Pool :=
  match running pool with
  | [] => pool
  | first :: _ =>
      let index := nth (choice mod length (running pool))%nat (running pool) first in
      finish P self imageFiles outputDirectory index pool
  end.

(** [Promise.allSettled]: the outcomes in submission order, once every
    promise has settled. *)
Definition allSettled (pool : Pool) (count : nat) : option (list (result unit)) :=
  mapM (fun index => settled pool !! index) (seq 0 count).

Definition is_rejected (outcome : result unit) : bool := negb (is_ok outcome).

(** [None]: with this schedule some promise is still pending, the call
    has not returned. *)
Definition processImagesInParallel
    (P : Platform) (self : t) (imageFiles : list string)
    (outputDirectory : string) (concurrency : Q) (schedule : list nat)
    (fs : FileSystem) (state : RunState)
  : option (result unit) * Pool :=
  let pool :=
    {| pool_fs := fs;
       pool_run := state;
       semaphore := Semaphore.new concurrency;
       running := [];
       settled := ∅;
       trace := [] |} in
  let pool := fold_left spawn (seq 0 (length imageFiles)) pool in
  let pool := fold_left (step P self imageFiles outputDirectory) schedule pool in
  match allSettled pool (length imageFiles) with
  | None => (None, pool)
  | Some results =>
      if negb (ConfigManager.shouldContinueOnError (configManager self))
      then
        let rejectedPromises := List.filter is_rejected results in
        match rejectedPromises with
        | Throw firstError :: _ => (Some (Throw firstError), pool)
        | _ => (Some (Ok tt), pool)
        end
      else (Some (Ok tt), pool)
  end.

Definition with_reporter (self : t) (reporter : ProgressReporter.t) : t :=
  {| emitter := emitter self;
     configManager := configManager self;
     formatDetector := formatDetector self;
     webpConverter := webpConverter self;
     qualityCalculator := qualityCalculator self;
     qualityValidator := qualityValidator self;
     progressReporter := reporter |}.

(** The [catch] block of [processDirectory]. *)
Definition fail (self : t) (errorMessage : string) : result ProcessingReport :=
  await _emitted := EventEmitter.emit_error (emitter self) errorMessage in
  Throw ("Batch processing failed: " +:+ errorMessage).

(** [this.fileManager]: the constructor builds it from the list of
    formats that it also gives to the format detector. *)
Definition fileManager (self : t) : FileManager.t :=
  {| FileManager.supportedExtensions :=
       FormatDetector.supportedFormats (formatDetector self) |}.

(** The mapping file and the report file; a failure to write either is
    only warned about. *)
Definition saveProcessingArtifacts
    (P : Platform) (self : t) (originalFiles : list string)
    (outputDirectory : string) (report : ProcessingReport) : IO unit :=
  mtry
    (let mapping :=
       FileManager.generateFilenameMapping P originalFiles outputDirectory in
     run _saved :=
       FileManager.saveFilenameMapping P mapping outputDirectory None in
     let reportPath := path_join P outputDirectory "optimization-report.json" in
     let reportData :=
       {| rd_generatedAt := toISOString_now P reportPath;
          rd_summary :=
            {| rs_totalImages := totalImages report;
               rs_successfulConversions := successfulConversions report;
               rs_failedConversions := failedConversions report;
               rs_totalSizeReduction := totalSizeReduction report;
               rs_averageCompressionRatio :=
                 (inject_Z (Num.Math_round
                              (averageCompressionRatio report * 100))
                  / 100)%Q;
               rs_processingTimeSeconds :=
                 (inject_Z (Num.Math_round
                              (inject_Z (report_processingTime report)
                               / 1000 * 100))
                  / 100)%Q |};
          rd_results := results report |} in
     run written := reads (fun _ => writeJson_report P reportPath reportData) in
     modify (fun fs => <[reportPath := written]> fs))
    (fun _ => ret tt).

(** [scanned] is what option validation, the directory scan and the
    creation of the output directory deliver; [progressConfig] is the
    option of that name; [startTime] and [endTime] are the clock
    readings of [start] and [complete].  The options [onProgress] and
    [onError] are not given. *)
Definition processDirectory
    (P : Platform) (self : t) (scanned : result (list string))
    (sourceDirectory outputDirectory : string)
    (progressConfig : option ProgressReporter.ProgressConfigUpdates)
    (startTime endTime : Z) (schedule : list nat) (fs : FileSystem)
  : option (result ProcessingReport) * t * FileSystem * list Event :=
  match scanned with
  | Throw message => (Some (fail self message), self, fs, [])
  | Ok imageFiles =>
      if (length imageFiles =? 0)%nat
      then (Some (fail self ("No supported image files found in "
                             +:+ sourceDirectory)), self, fs, [])
      else
        let totalFiles := Z.of_nat (length imageFiles) in
        let reporter :=
          match progressConfig with
          | Some _ =>
              ProgressReporter.updateConfig (progressReporter self)
                progressConfig
          | None => progressReporter self
          end in
        let state :=
          {| run_results := [];
             run_processedFiles := 0;
             run_reporter :=
               ProgressReporter.start reporter totalFiles sourceDirectory
                 startTime |} in
        let concurrency := ConfigManager.getConcurrency (configManager self) in
        let '(outcome, pool) :=
          processImagesInParallel P self imageFiles outputDirectory concurrency
            schedule fs state in
        let reporter := run_reporter (pool_run pool) in
        match outcome with
        | None =>
            (None, with_reporter self reporter, pool_fs pool, trace pool)
        | Some (Throw message) =>
            (Some (fail self message), with_reporter self reporter,
             pool_fs pool, trace pool)
        | Some (Ok _) =>
            let '(report, reporter) := ProgressReporter.complete reporter endTime in
            match report with
            | Ok report =>
                let fs :=
                  if generateReport
                       (output (ConfigManager.getConfig (configManager self)))
                  then (saveProcessingArtifacts P self imageFiles
                          outputDirectory report (pool_fs pool)).2
                  else pool_fs pool in
                (Some (Ok report), with_reporter self reporter, fs, trace pool)
            | Throw message =>
                (Some (fail self message), with_reporter self reporter,
                 pool_fs pool, trace pool)
            end
        end
  end.

(** *** Reading a trace *)

(** The results handed to [onResult], in order. *)
Definition recorded_results (trace : list Event) : list OptimizationResult :=
  flat_map (fun e => match e with Recorded _ r => [r] | _ => [] end) trace.

(** The items they belong to. *)
Definition recorded_indices (trace : list Event) : list nat :=
  flat_map (fun e => match e with Recorded i _ => [i] | _ => [] end) trace.

(** The results handed to [onResult] for item [index], in order. *)
Definition records_of (index : nat) (trace : list Event)
  : list OptimizationResult :=
  flat_map
    (fun e =>
       match e with
       | Recorded i r => if Nat.eqb i index then [r] else []
       | _ => []
       end)
    trace.




(** The error [e] with which the task of a failed result [r] rejects: the
    error made from the result's message, or Node's wrapper around the
    reporter's event for it. *)
Definition carries (P : Platform) (e : string) (r : OptimizationResult) : Prop :=
  let message := Str.or_default (errorMessage r) "Image processing failed" in
  e = message
  \/ exists filename processed,
       e = "Unhandled error. ("
           +:+ util_inspect P {| ev_error := message;
                                 ev_filename := filename;
                                 ev_processedFiles := processed |}
           +:+ ")".

(** The [RangeError] of [String.prototype.repeat], which drawing the
    progress bar throws when a part of the bar has a negative length. *)
Definition overflow (e : string) : Prop :=
  exists count, count < 0 /\ e = "Invalid count value: " +:+ Num.toString count.

(** The error [e] with which a task rejects whose [catch] block was
    entered with [processError]: that error, or Node's wrapper around the
    reporter's event for it. *)
Definition relays (P : Platform) (e processError : string) : Prop :=
  e = processError
  \/ exists filename processed,
       e = "Unhandled error. ("
           +:+ util_inspect P {| ev_error := processError;
                                 ev_filename := filename;
                                 ev_processedFiles := processed |}
           +:+ ")".


(** The items for which [processImage] was called, in order. *)
Definition started_indices (trace : list Event) : list nat :=
  flat_map (fun e => match e with Started i => [i] | _ => [] end) trace.

(** The number of tasks between their start and their settlement at the
    end of [trace], when [inflight] of them are so at its beginning. *)
Fixpoint in_flight (inflight : nat) (trace : list Event) : nat :=
  match trace with
  | [] => inflight
  | Started _ :: rest => in_flight (S inflight) rest
  | Settled _ _ :: rest => in_flight (pred inflight) rest
  | Recorded _ _ :: rest => in_flight inflight rest
  end.

(** The largest such number at any point of [trace]. *)
Fixpoint peak (inflight : nat) (trace : list Event) : nat :=
  match trace with
  | [] => inflight
  | Started _ :: rest => peak (S inflight) rest
  | Settled _ _ :: rest => Nat.max inflight (peak (pred inflight) rest)
  | Recorded _ _ :: rest => peak inflight rest
  end.

(** [source] and [output] are what the two directories of the options
    name. *)
Definition validateProcessingOptions
    (P : Platform) (basename_without : string -> string -> string)
    (self : t) (sourceDirectory outputDirectory : string)
    (source output : FileManager.Node) : result unit :=
  let sourceExists := FileManager.pathExists source in
  if negb sourceExists
  then Throw ("Source directory does not exist: " +:+ sourceDirectory)
  else
    let sourceIsDirectory :=
      match source with FileManager.Directory _ => true | _ => false end in
    if negb sourceIsDirectory
    then Throw ("Source path is not a directory: " +:+ sourceDirectory)
    else
      await isOutputSafe :=
        FileManager.isOutputDirectorySafe P basename_without outputDirectory
          output in
      if negb isOutputSafe
      then Throw ("Output directory contains files that might be overwritten: "
                  +:+ outputDirectory)
      else Ok tt.

Definition getConfig (self : t) : OptimizationConfig :=
  ConfigManager.getConfig (configManager self).

Definition generateProcessingReport
    (results : list OptimizationResult) (processingTime : Z)
  : ProcessingReport :=
  let successfulResults :=
    List.filter (ProgressReporter.has_status success) results in
  let failedResults :=
    List.filter (ProgressReporter.has_status failed) results in
  let totalSizeReduction :=
    fold_left (fun sum result => sum + (originalSize result - optimizedSize result))
      successfulResults 0 in
  let averageCompressionRatio :=
    if (0 <? length successfulResults)%nat
    then (fold_left (fun sum result => (sum + compressionRatio result)%Q)
            successfulResults 0%Q
          / inject_Z (Z.of_nat (length successfulResults)))%Q
    else 0%Q in
  {| totalImages := Z.of_nat (length results);
     successfulConversions := Z.of_nat (length successfulResults);
     failedConversions := Z.of_nat (length failedResults);
     totalSizeReduction := totalSizeReduction;
     averageCompressionRatio := averageCompressionRatio;
     report_processingTime := processingTime;
     Types.results := results |}.

End BatchProcessor.


(** ** cli/index.ts: CLIArgumentParser

    The option values are what the argument library hands over after it
    has run the option parsers below; an option that was not given is
    [None]. *)

Module CLI.

Record CLIOptions := {
  cli_source : string;
  cli_output : string;
  cli_quality : option Z;
  cli_photoQuality : option Z;
  cli_graphicQuality : option Z;
  cli_mixedQuality : option Z;
  cli_concurrency : option Z;
  cli_continueOnError : option bool;
  cli_noProgress : option bool;
  cli_noReport : option bool;
  cli_reportFormat : option ReportFormat;
  cli_verbose : option bool
}.

(** What the parser asks of its host: [fs.pathExists],
    [fs.stat(p).isDirectory()], [path.resolve], [path.relative] and
    [path.isAbsolute]. *)
Record Host := {
  pathExists : string -> bool;
  isDirectory : string -> result bool;
  resolve : string -> string;
  relative : string -> string -> string;
  isAbsolute : string -> bool
}.

(** [parseInt] is [parseInt(value, 10)], [None] when it gives [NaN]. *)
Definition parseQuality (parseInt : string -> option Z) (value : string)
  : result Z :=
  match parseInt value with
  | None =>
      Throw ("Quality must be a number between 1 and 100, got: " +:+ value)
  | Some quality =>
      if (quality <? 1) || (100 <? quality)
      then Throw ("Quality must be a number between 1 and 100, got: "
                  +:+ value)
      else Ok quality
  end.

Definition parseConcurrency (parseInt : string -> option Z) (value : string)
  : result Z :=
  match parseInt value with
  | None => Throw ("Concurrency must be a positive number, got: " +:+ value)
  | Some concurrency =>
      if concurrency <? 1
      then Throw ("Concurrency must be a positive number, got: " +:+ value)
      else Ok concurrency
  end.

Definition parseReportFormat (value : string) : result ReportFormat :=
  if String.eqb value "json" then Ok json
  else if String.eqb value "text" then Ok text
  else Throw ("Report format must be 'json' or 'text', got: " +:+ value).

(** [options.q && options.q < minQuality] *)
Definition below (q : option Z) (minQuality : Z) : bool :=
  match q with
  | Some q => negb (q =? 0) && (q <? minQuality)
  | None => false
  end.

(** [options.output = ...] *)
Definition set_output (options : CLIOptions) (output : string) : CLIOptions :=
  {| cli_source := cli_source options;
     cli_output := output;
     cli_quality := cli_quality options;
     cli_photoQuality := cli_photoQuality options;
     cli_graphicQuality := cli_graphicQuality options;
     cli_mixedQuality := cli_mixedQuality options;
     cli_concurrency := cli_concurrency options;
     cli_continueOnError := cli_continueOnError options;
     cli_noProgress := cli_noProgress options;
     cli_noReport := cli_noReport options;
     cli_reportFormat := cli_reportFormat options;
     cli_verbose := cli_verbose options |}.

(** The options are returned as the function leaves them: it may replace
    the output path by its absolute form. *)
Definition validateOptions (H : Host) (options : CLIOptions)
  : result CLIOptions :=
  await _checked :=
    try_catch
      (let sourceExists := pathExists H (cli_source options) in
       if negb sourceExists
       then Throw ("Source directory does not exist: " +:+ cli_source options)
       else
         await sourceIsDirectory := isDirectory H (cli_source options) in
         if negb sourceIsDirectory
         then Throw ("Source path is not a directory: " +:+ cli_source options)
         else Ok tt)
      (fun message => Throw ("Invalid source directory: " +:+ message)) in
  let options :=
    if negb (isAbsolute H (cli_output options))
    then set_output options (resolve H (cli_output options))
    else options in
  if String.eqb (resolve H (cli_source options)) (resolve H (cli_output options))
  then Throw "Output directory cannot be the same as source directory"
  else
    let relativePath := relative H (cli_source options) (cli_output options) in
    if negb (String.eqb relativePath "")
       && negb (Str.startsWith ".." relativePath)
       && negb (isAbsolute H relativePath)
    then Throw "Output directory cannot be a subdirectory of source directory"
    else
      let minQuality := q_minimum (Config.quality DEFAULT_CONFIG) in
      let threshold :=
        " cannot be below minimum threshold of " +:+ Num.toString minQuality
        +:+ "%" in
      if below (cli_quality options) minQuality
      then Throw ("Quality" +:+ threshold)
      else if below (cli_photoQuality options) minQuality
      then Throw ("Photo quality" +:+ threshold)
      else if below (cli_graphicQuality options) minQuality
      then Throw ("Graphic quality" +:+ threshold)
      else if below (cli_mixedQuality options) minQuality
      then Throw ("Mixed quality" +:+ threshold)
      else Ok options.

(** [a || b || d] on optional numbers. *)
Definition first_of (a b : option Z) (d : Z) : Z :=
  or_default a (or_default b d).

Definition convertToOptimizationConfig (cliOptions : CLIOptions)
  : OptimizationConfig :=
  {| Config.quality :=
       {| q_photo :=
            first_of (cli_photoQuality cliOptions) (cli_quality cliOptions)
              (q_photo (Config.quality DEFAULT_CONFIG));
          q_graphic :=
            first_of (cli_graphicQuality cliOptions) (cli_quality cliOptions)
              (q_graphic (Config.quality DEFAULT_CONFIG));
          q_mixed :=
            first_of (cli_mixedQuality cliOptions) (cli_quality cliOptions)
              (q_mixed (Config.quality DEFAULT_CONFIG));
          q_minimum := q_minimum (Config.quality DEFAULT_CONFIG) |};
     dimensions :=
       {| maxWidth := maxWidth (dimensions DEFAULT_CONFIG);
          maxHeight := maxHeight (dimensions DEFAULT_CONFIG);
          preserveAspectRatio :=
            preserveAspectRatio (dimensions DEFAULT_CONFIG) |};
     processing :=
       {| concurrency :=
            match cli_concurrency cliOptions with
            | Some given =>
                if given =? 0 then concurrency (processing DEFAULT_CONFIG)
                else inject_Z given
            | None => concurrency (processing DEFAULT_CONFIG)
            end;
          enableProgressReporting := negb (default false (cli_noProgress cliOptions));
          continueOnError :=
            default (continueOnError (processing DEFAULT_CONFIG))
              (cli_continueOnError cliOptions) |};
     output :=
       {| preserveFilenames := preserveFilenames (output DEFAULT_CONFIG);
          generateReport := negb (default false (cli_noReport cliOptions));
          reportFormat :=
            default (reportFormat (output DEFAULT_CONFIG))
              (cli_reportFormat cliOptions) |};
     supportedFormats := Config.supportedFormats DEFAULT_CONFIG |}.

(** A whole configuration passed where a [Partial<OptimizationConfig>]
    is expected, as [main] passes it to the processor's constructor. *)
Definition whole (config : OptimizationConfig) : ConfigUpdates :=
  {| u_quality :=
       Some {| u_photo := Some (q_photo (Config.quality config));
               u_graphic := Some (q_graphic (Config.quality config));
               u_mixed := Some (q_mixed (Config.quality config));
               u_minimum := Some (q_minimum (Config.quality config)) |};
     u_dimensions :=
       Some {| u_maxWidth := Some (maxWidth (dimensions config));
               u_maxHeight := Some (maxHeight (dimensions config));
               u_preserveAspectRatio :=
                 Some (preserveAspectRatio (dimensions config)) |};
     u_processing :=
       Some {| u_concurrency := Some (concurrency (processing config));
               u_enableProgressReporting :=
                 Some (enableProgressReporting (processing config));
               u_continueOnError := Some (continueOnError (processing config)) |};
     u_output :=
       Some {| u_preserveFilenames := Some (preserveFilenames (output config));
               u_generateReport := Some (generateReport (output config));
               u_reportFormat := Some (reportFormat (output config)) |};
     u_supportedFormats := Some (Config.supportedFormats config) |}.

End CLI.


(** ** The quality decision as the design document words it

    The base value is an entry of a three-by-three table, the adjustments
    are independent terms that are summed, and the sum is rounded, clamped
    and floored.  [DynamicQualityCalculator] is compared with this. *)

Module Documented.

Import ImageContentAnalyzer.

Definition matrix_row (contentType : ContentType) : Z * Z * Z :=
  match contentType with
  | photo => (92, 88, 82)
  | graphic => (90, 85, 78)
  | mixed => (91, 86, 80)
  end.

Definition matrix_entry (row : Z * Z * Z) (strategy : Strategy) : Z :=
  match strategy with
  | high_quality => row.1.1
  | balanced => row.1.2
  | size_optimized => row.2
  end.

Definition adjustments (contentType : ContentType) (c : Characteristics)
  : list Z :=
  [ if Num.gt (colorComplexity c) 80 then 3
    else if Num.lt (colorComplexity c) 30 then -2 else 0;
    if Num.gt (edgeCount c) 70 then 2
    else if Num.lt (edgeCount c) 30 then -1 else 0;
    if hasTransparency c then 2 else 0;
    if Num.ge (colorDepth c) 10 then 2
    else if Num.le (colorDepth c) 6 then -1 else 0;
    if Num.gt (aspectRatio c) 3 || Num.lt (aspectRatio c) 0.33 then 1 else 0;
    match contentType with
    | photo => if Num.lt (edgeCount c) 25 then -1 else 0
    | graphic => if Num.gt (colorComplexity c) 60 then 2 else 0
    | mixed =>
        if Num.gt (colorComplexity c) 70 && Num.gt (edgeCount c) 60
        then 1 else 0
    end ].

Definition total (deltas : list Z) : Z := fold_right Z.add 0 deltas.

Definition clamp (lo hi x : Z) : Z := Z.max lo (Z.min hi x).

Definition quality
    (minimumQuality : Z) (contentType : ContentType) (strategy : Strategy)
    (c : Characteristics) : Z :=
  let base := matrix_entry (matrix_row contentType) strategy in
  let adjusted := base + total (adjustments contentType c) in
  Z.max minimumQuality (clamp 50 95 (Num.Math_round (inject_Z adjusted))).

(** The overall score of a validation, as documented. *)
Definition qualityScore (structural color sharpness qualityUsed : Q) : Q :=
  let raw :=
    (100 * (0.4 * structural + 0.3 * color + 0.3 * sharpness)
     * (qualityUsed / 100))%Q in
  Qmin 100 (Qmax 0 raw).

End Documented.

(** ** The images of the integration tests

    A concrete platform and file system on which the model runs: a
    uniformly red 100x100 JPEG, and a text file that carries a [.jpg]
    extension. *)

Module Scenario.

(** The part of [s] after the last occurrence of [c]. *)
Fixpoint after_last (c : ascii) (s : string) : option string :=
  match s with
  | EmptyString => None
  | String a rest =>
      match after_last c rest with
      | Some t => Some t
      | None => if Ascii.eqb a c then Some rest else None
      end
  end.

Definition basename (p : string) : string := default p (after_last "/" p).

Definition extname (p : string) : string :=
  let b := basename p in
  match after_last "." b with
  | Some e =>
      if (String.length b =? S (String.length e))%nat then "" else "." +:+ e
  | None => ""
  end.

Definition parse_name (p : string) : string :=
  let b := basename p in
  substring 0 (String.length b - String.length (extname p)) b.

(** One decimal, halves away from zero. *)
Definition fixed1 (x : Q) : string :=
  let tenths := Qfloor (Qabs x * 10 + (1 # 2))%Q in
  (if Num.lt x 0 then "-" else "")
  +:+ Num.toString (tenths / 10) +:+ "." +:+ Num.toString (tenths mod 10).

Definition inspect (e : ErrorEvent) : string :=
  "{ error: " +:+ ev_error e +:+ ", filename: '" +:+ ev_filename e
  +:+ "', processedFiles: " +:+ Num.toString (ev_processedFiles e) +:+ " }".

(** An encoder that keeps the picture and writes [ratio] percent of the
    input's bytes. *)
Definition encode (ratio : Z) (_ : string) (input : File) (_ : Z) (_ _ : Q)
  : result File :=
  match file_image input with
  | Ok picture =>
      Ok {| file_bytes := [82; 73; 70; 70; 0; 0; 0; 0; 87; 69; 66; 80];
            file_size := file_size input * ratio / 100;
            file_image := Ok picture |}
  | Throw message => Throw message
  end.

(** A JSON file of [entries] entries; it is no image. *)
Definition jsonFile (entries : Z) : File :=
  {| file_bytes := [123; 10; 32; 32; 34; 103; 101; 110; 101; 114; 97; 116];
     file_size := 64 + 48 * entries;
     file_image := Throw "Input file contains unsupported image format" |}.

(** A runtime whose clock shows [pace] more milliseconds at each result
    that is recorded. *)
Definition paced (ratio pace : Z) : Platform :=
  {| path_extname := extname;
     path_basename := basename;
     path_parse_name := parse_name;
     path_join := fun directory name => directory +:+ "/" +:+ name;
     toFixed1 := fixed1;
     util_inspect := inspect;
     sharp_resize := fun picture _ _ => picture;
     webp_encode := encode ratio;
     elapsed := fun _ => 12;
     Date_now := fun k => pace * k;
     toISOString_now := fun _ => "2024-05-01T09:30:00.000Z";
     writeJson_mapping := fun _ data => Ok (jsonFile (mp_totalFiles data));
     writeJson_report :=
       fun _ data => Ok (jsonFile (rs_totalImages (rd_summary data))) |}.

(** Ten milliseconds between one result and the next. *)
Definition platform (ratio : Z) : Platform := paced ratio 10.

Definition flat (value : Q) : ChannelStats :=
  {| ch_min := value; ch_max := value; ch_mean := value; ch_stdev := 0 |}.

Definition redPicture : Picture :=
  {| pic_metadata :=
       {| md_format := Some "jpeg";
          md_width := Some 100;
          md_height := Some 100;
          md_channels := Some 3;
          md_hasAlpha := Some false;
          md_depth := None;
          md_density := Some 72%Q |};
     pic_stats :=
       Ok {| channel0 := flat 254; channels_rest := [flat 0; flat 0] |};
     pic_grey_stats := Ok {| channel0 := flat 76; channels_rest := [] |};
     pic_edge_stats := Ok {| channel0 := flat 0; channels_rest := [] |} |}.

Definition redJpeg : File :=
  {| file_bytes := [0xFF; 0xD8; 0xFF; 0xE0; 0; 16; 74; 70; 73; 70; 0; 1];
     file_size := 823;
     file_image := Ok redPicture |}.

(** The bytes of "not an image". *)
Definition notAnImage : File :=
  {| file_bytes := [110; 111; 116; 32; 97; 110; 32; 105; 109; 97; 103; 101];
     file_size := 12;
     file_image := Throw "Input file contains unsupported image format" |}.

(** A picture whose header decodes but whose pixels do not. *)
Definition truncatedPicture : Picture :=
  {| pic_metadata := pic_metadata redPicture;
     pic_stats := Throw "VipsJpeg: premature end of JPEG image";
     pic_grey_stats := Throw "VipsJpeg: premature end of JPEG image";
     pic_edge_stats := Throw "VipsJpeg: premature end of JPEG image" |}.

Definition truncatedJpeg : File :=
  {| file_bytes := file_bytes redJpeg;
     file_size := 400;
     file_image := Ok truncatedPicture |}.

Definition source : FileSystem :=
  <["src/valid.jpg" := redJpeg]> (<["src/invalid.jpg" := notAnImage]> ∅).





Definition processing (concurrency : Z) (continueOnError : bool)
  : ConfigUpdates :=
  {| u_quality := None;
     u_dimensions := None;
     u_processing :=
       Some {| u_concurrency := Some (inject_Z concurrency);
               u_enableProgressReporting := Some false;
               u_continueOnError := Some continueOnError |};
     u_output := None;
     u_supportedFormats := None |}.

Definition minimum (q : Z) : ConfigUpdates :=
  {| u_quality :=
       Some {| u_photo := None; u_graphic := None; u_mixed := None;
               u_minimum := Some q |};
     u_dimensions := None;
     u_processing := None;
     u_output := None;
     u_supportedFormats := None |}.

(** The processor that [new BatchProcessor(config)] returns; a
    constructor that throws leaves no object. *)
Definition processor (config : option ConfigUpdates) : option BatchProcessor.t :=
  match BatchProcessor.new config with
  | Ok p => Some p
  | Throw _ => None
  end.

End Scenario.


(** ** Invariants of the pool of tasks *)

Module Invariant.
Import BatchProcessor.

(** [count] tasks exist; each is in flight, queued or settled, and the
    permits account for the tasks in flight. *)
Definition accounted (count : nat) (concurrency : Q) (pool : Pool) : Prop :=
  (Semaphore.permits (semaphore pool)
   + inject_Z (Z.of_nat (length (running pool)))
   == concurrency)%Q
  /\ (-1 < Semaphore.permits (semaphore pool))%Q
  /\ (Semaphore.waitQueue (semaphore pool) <> []
      -> (Semaphore.permits (semaphore pool) <= 0)%Q)
  /\ NoDup (running pool ++ Semaphore.waitQueue (semaphore pool))%list
  /\ (forall i,
         (i ∈ (running pool ++ Semaphore.waitQueue (semaphore pool))%list
          \/ is_Some (settled pool !! i))
         <-> (i < count)%nat)
  /\ (forall i,
         i ∈ (running pool ++ Semaphore.waitQueue (semaphore pool))%list
         -> settled pool !! i = None).

(** The trace and the reporter tell the same story as the pool. *)
Definition traced (pool : Pool) : Prop :=
  (forall i, i ∈ running pool -> Started i ∈ trace pool)
  /\ (forall i outcome,
         settled pool !! i = Some outcome ->
         Started i ∈ trace pool /\ Settled i outcome ∈ trace pool
         /\ i ∈ recorded_indices (trace pool))
  /\ (forall i r, Recorded i r ∈ trace pool -> is_Some (settled pool !! i))
  /\ ProgressReporter.isActive (run_reporter (pool_run pool)) = true
  /\ ProgressReporter.results (run_reporter (pool_run pool))
     = recorded_results (trace pool).

(** The reporter has counted what was recorded, of [count] files. *)
Definition counted (count : nat) (pool : Pool) : Prop :=
  ProgressReporter.processedFiles (run_reporter (pool_run pool))
  = Z.of_nat (length (recorded_results (trace pool)))
  /\ ProgressReporter.totalFiles (run_reporter (pool_run pool))
     = Z.of_nat count.

(** With [continueOnError] every promise fulfils and every item is
    recorded once. *)
Definition lenient (pool : Pool) : Prop :=
  (forall i outcome, settled pool !! i = Some outcome -> outcome = Ok tt)
  /\ NoDup (recorded_indices (trace pool)).

(** Without it, a promise that fulfils has recorded one result, which
    did not fail.  A promise that rejects has recorded two: the result
    [r] of the item, and the failed result that the [catch] block of the
    task makes from the error it was entered with.  That error is the
    message of [r], which failed, or what drawing the bar threw when [r]
    was recorded.  The promise rejects with this error, with Node's
    wrapper around the reporter's event for it, or with what drawing the
    bar threw when the failed result was recorded.  For a reporter that
    draws nothing, it rejects exactly when the item failed, with an
    error that carries the item's message. *)
Definition strict (P : Platform) (imageFiles : list string) (pool : Pool)
  : Prop :=
  forall i outcome,
    settled pool !! i = Some outcome ->
    exists r,
      (outcome = Ok tt /\ records_of i (trace pool) = [r]
       /\ status r <> failed)
      \/ (exists e processError,
             outcome = Throw e
             /\ records_of i (trace pool)
                = [r; blank_result (nth i imageFiles "") failed processError]
             /\ ((status r = failed
                  /\ processError
                     = Str.or_default (errorMessage r) "Image processing failed")
                 \/ overflow processError)
             /\ (relays P e processError \/ overflow e)
             /\ (ProgressReporter.enableConsoleOutput
                   (ProgressReporter.config (run_reporter (pool_run pool)))
                 = false ->
                 status r = failed /\ carries P e r
                 /\ processError
                    = Str.or_default (errorMessage r) "Image processing failed")).

(** The state of the callbacks after [onResult] on item [index]. *)
Definition noted (P : Platform) (imageFiles : list string) (index : nat)
    (s : RunState) (r : OptimizationResult) : RunState :=
  (onResult P imageFiles r index s).2.

(** The trace accounts for the tasks in flight, and never shows as many
    of them as the permits plus one. *)
Definition bounded (c : Q) (pool : Pool) : Prop :=
  in_flight 0 (trace pool) = length (running pool)
  /\ (inject_Z (Z.of_nat (peak 0 (trace pool))) < c + 1)%Q.

(** The tasks that have not settled yet. *)
Definition pending (pool : Pool) : nat :=
  length (running pool ++ Semaphore.waitQueue (semaphore pool)).

(** All of the above, for the processor's error policy. *)
Definition healthy (P : Platform) (self : t) (imageFiles : list string)
    (count : nat) (concurrency : Q) (pool : Pool) : Prop :=
  accounted count concurrency pool /\ traced pool
  /\ counted (length imageFiles) pool
  /\ (ConfigManager.shouldContinueOnError (configManager self) = true
      -> lenient pool)
  /\ (ConfigManager.shouldContinueOnError (configManager self) = false
      -> strict P imageFiles pool).

End Invariant.

(** * Properties *)

(** ** Rounding and the result monad *)

Lemma Math_round_integer (z : Z) : Num.Math_round (inject_Z z) = z.
Proof.
  unfold Num.Math_round, Qfloor, Qplus, inject_Z. simpl.
  rewrite Z.mul_1_r.
  symmetry. apply (Z.div_unique _ _ _ 1); lia.
Qed.

Lemma try_catch_ok {A : Type} (body : result A) (handler : string -> result A) :
  (forall message, is_ok (handler message) = true) ->
  is_ok (try_catch body handler) = true.
Proof. intros H. destruct body; simpl; auto. Qed.

(** ** The quality calculator *)

Section QualityCalculator.

Import ImageContentAnalyzer DynamicQualityCalculator.

Lemma applyQualityAdjustments_range base c contentType :
  50 <= applyQualityAdjustments base c contentType <= 95.
Proof. unfold applyQualityAdjustments. cbv zeta. lia. Qed.

(** A conditional update of the running value adds a conditional term. *)
Lemma if_plus (b : bool) (a k : Z) :
  (if b then a + k else a) = a + (if b then k else 0).
Proof. destruct b; lia. Qed.

Lemma if_minus (b : bool) (a k : Z) :
  (if b then a - k else a) = a + (if b then - k else 0).
Proof. destruct b; lia. Qed.

Lemma if_plus_minus (b1 b2 : bool) (a k1 k2 : Z) :
  (if b1 then a + k1 else if b2 then a - k2 else a)
  = a + (if b1 then k1 else if b2 then - k2 else 0).
Proof. destruct b1, b2; lia. Qed.

Lemma getBaseQuality_matrix contentType strategy :
  getBaseQuality contentType strategy
  = Documented.matrix_entry (Documented.matrix_row contentType) strategy.
Proof. destruct contentType, strategy; reflexivity. Qed.

Lemma applyQualityAdjustments_documented base c contentType :
  applyQualityAdjustments base c contentType
  = Documented.clamp 50 95
      (Num.Math_round
         (inject_Z (base + Documented.total (Documented.adjustments contentType c)))).
Proof.
  unfold applyQualityAdjustments. cbv zeta.
  rewrite !Math_round_integer.
  rewrite (if_plus_minus _ _ base).
  rewrite (if_plus_minus _ _ (base + _)).
  rewrite (if_plus (hasTransparency c)).
  rewrite (if_plus_minus (Num.ge _ _)).
  rewrite (if_plus (_ || _)).
  unfold Documented.clamp, Documented.total, Documented.adjustments.
  destruct contentType; [rewrite if_minus | rewrite if_plus | rewrite if_plus];
    cbn [fold_right]; change (- (2)) with (-2); change (- (1)) with (-1); lia.
Qed.

(** What [calculateOptimalQuality] returns once the analysis is known. *)
Lemma calculateOptimalQuality_analysis self fs imagePath targetStrategy analysis :
  analyzeImageContent fs imagePath = Ok analysis ->
  calculateOptimalQuality self fs imagePath targetStrategy
  = let strategy := default (compressionStrategy analysis) targetStrategy in
    let finalQuality :=
      Z.max (minimumQuality self)
        (applyQualityAdjustments
           (getBaseQuality (ImageContentAnalyzer.contentType analysis) strategy)
           (characteristics analysis)
           (ImageContentAnalyzer.contentType analysis)) in
    Ok {| quality := finalQuality;
          strategy := strategy;
          reasoning :=
            generateQualityReasoning self
              (ImageContentAnalyzer.contentType analysis) strategy
              (characteristics analysis) finalQuality;
          contentType := ImageContentAnalyzer.contentType analysis |}.
Proof. intros H. unfold calculateOptimalQuality. rewrite H. reflexivity. Qed.

(** C1, amended.  Whenever the analysis of the image succeeds, the
    calculator returns a decision whose quality is at least the configured
    minimum and at most the larger of 95 and that minimum: it stays within
    [minimumQuality, 95] when the minimum is at most 95 and equals the
    minimum when the minimum is above 95.  The decision, quality and
    reasoning alike, is determined by the minimum, the analysis and the
    requested strategy: any other call with the same three returns the
    same decision. *)
Theorem quality_between_minimum_and_cap :
  forall self fs imagePath targetStrategy analysis,
    analyzeImageContent fs imagePath = Ok analysis ->
    exists decision,
      calculateOptimalQuality self fs imagePath targetStrategy = Ok decision
      /\ minimumQuality self <= quality decision
      /\ quality decision <= Z.max 95 (minimumQuality self)
      /\ (minimumQuality self <= 95 -> quality decision <= 95)
      /\ (95 < minimumQuality self -> quality decision = minimumQuality self)
      /\ forall fs' imagePath',
           analyzeImageContent fs' imagePath' = Ok analysis ->
           calculateOptimalQuality self fs' imagePath' targetStrategy
           = Ok decision.
Proof.
  intros self fs imagePath targetStrategy analysis Hanalysis.
  rewrite (calculateOptimalQuality_analysis _ _ _ _ _ Hanalysis). cbv zeta.
  eexists. split; [reflexivity |]. cbn [quality].
  pose proof (applyQualityAdjustments_range
    (getBaseQuality (ImageContentAnalyzer.contentType analysis)
       (default (compressionStrategy analysis) targetStrategy))
    (characteristics analysis) (ImageContentAnalyzer.contentType analysis))
    as Hrange.
  repeat split; try lia.
  intros fs' imagePath' Hsame.
  rewrite (calculateOptimalQuality_analysis _ _ _ _ _ Hsame). reflexivity.
Qed.

(** C1 as stated fails: with the valid minimum 100 the quality chosen for
    the red test image is 100, above 95. *)
Lemma quality_exceeds_95_when_minimum_does :
  exists decision,
    calculateOptimalQuality (DynamicQualityCalculator.new (Some 100))
      Scenario.source "src/valid.jpg" None = Ok decision
    /\ 1 <= minimumQuality (DynamicQualityCalculator.new (Some 100)) <= 100
    /\ quality decision = 100
    /\ ~ (quality decision <= 95).
Proof.
  eexists. split; [vm_compute; reflexivity |].
  split; [split; vm_compute; discriminate |].
  split; [reflexivity |].
  vm_compute. intros H. apply H. reflexivity.
Qed.

Lemma quality_between_minimum_and_cap_witness :
  exists decision,
    calculateOptimalQuality (DynamicQualityCalculator.new (Some 85))
      Scenario.source "src/valid.jpg" None = Ok decision
    /\ 85 <= quality decision <= 95.
Proof.
  destruct (quality_between_minimum_and_cap
              (DynamicQualityCalculator.new (Some 85)) Scenario.source
              "src/valid.jpg" None
              {| ImageContentAnalyzer.contentType := graphic;
                 compressionStrategy := size_optimized;
                 characteristics :=
                   {| colorComplexity := 0 # 150;
                      edgeCount := 0 # 128;
                      hasTransparency := false;
                      colorDepth := 6;
                      aspectRatio := 1.00 |} |})
    as (decision & Hdecision & Hmin & _ & Hcap & _).
  - vm_compute. reflexivity.
  - exists decision. split; [exact Hdecision |].
    change (minimumQuality (DynamicQualityCalculator.new (Some 85))) with 85
      in Hmin, Hcap.
    lia.
Defined.

(** C2.  The quality the calculator computes is the documented one: the
    entry of the fixed matrix for the content type and the strategy, plus
    the documented additive adjustments, rounded, clamped to [50, 95] and
    then floored at the minimum quality.  This holds for the two private
    steps on every content type, strategy and characteristics value, and
    for the decision [calculateOptimalQuality] returns. *)
Theorem quality_is_documented_quality :
  (forall minimumQuality contentType strategy c,
      Z.max minimumQuality
        (applyQualityAdjustments (getBaseQuality contentType strategy) c
           contentType)
      = Documented.quality minimumQuality contentType strategy c)
  /\ forall self fs imagePath targetStrategy analysis,
       analyzeImageContent fs imagePath = Ok analysis ->
       exists decision,
         calculateOptimalQuality self fs imagePath targetStrategy = Ok decision
         /\ quality decision
            = Documented.quality (minimumQuality self)
                (ImageContentAnalyzer.contentType analysis)
                (default (compressionStrategy analysis) targetStrategy)
                (characteristics analysis).
Proof.
  assert (Hsteps : forall minimumQuality contentType strategy c,
             Z.max minimumQuality
               (applyQualityAdjustments (getBaseQuality contentType strategy) c
                  contentType)
             = Documented.quality minimumQuality contentType strategy c).
  { intros minimumQuality contentType strategy c.
    rewrite applyQualityAdjustments_documented, getBaseQuality_matrix.
    reflexivity. }
  split; [exact Hsteps |].
  intros self fs imagePath targetStrategy analysis Hanalysis.
  rewrite (calculateOptimalQuality_analysis _ _ _ _ _ Hanalysis). cbv zeta.
  eexists. split; [reflexivity |]. cbn [quality]. apply Hsteps.
Qed.

Lemma quality_is_documented_quality_witness :
  exists decision,
    calculateOptimalQuality (DynamicQualityCalculator.new (Some 70))
      Scenario.source "src/valid.jpg" (Some high_quality) = Ok decision
    /\ quality decision = 86.
Proof.
  destruct (proj2 quality_is_documented_quality
              (DynamicQualityCalculator.new (Some 70)) Scenario.source
              "src/valid.jpg" (Some high_quality)
              {| ImageContentAnalyzer.contentType := graphic;
                 compressionStrategy := size_optimized;
                 characteristics :=
                   {| colorComplexity := 0 # 150;
                      edgeCount := 0 # 128;
                      hasTransparency := false;
                      colorDepth := 6;
                      aspectRatio := 1.00 |} |})
    as (decision & Hdecision & Hquality).
  - vm_compute. reflexivity.
  - exists decision. split; [exact Hdecision |].
    rewrite Hquality. vm_compute. reflexivity.
Defined.

Lemma analyzeImageContent_classifies fs imagePath analysis :
  analyzeImageContent fs imagePath = Ok analysis ->
  exists metadata,
    ImageContentAnalyzer.contentType analysis
    = determineContentType (characteristics analysis) metadata.
Proof.
  unfold analyzeImageContent. intros H.
  destruct (sharp_metadata (sharp fs imagePath)) as [metadata |];
    [| discriminate].
  cbn [bind try_catch] in H.
  destruct (sharp_stats (sharp fs imagePath)) as [stats |]; [| discriminate].
  cbn [bind try_catch] in H.
  destruct (extractImageCharacteristics (sharp fs imagePath) metadata)
    as [c |]; [| discriminate].
  cbn [bind try_catch] in H. inversion H; subst analysis.
  exists metadata. reflexivity.
Qed.

(** C3.  An image with transparency is never classified as a photo: it is
    a graphic (so, in particular, a graphic or mixed).  This holds for
    the classification rule on every characteristics value, and for the
    content type of every analysis the analyzer returns. *)
Theorem transparency_is_never_photo :
  (forall c metadata,
      hasTransparency c = true ->
      determineContentType c metadata <> photo
      /\ (determineContentType c metadata = graphic
          \/ determineContentType c metadata = mixed))
  /\ forall fs imagePath analysis,
       analyzeImageContent fs imagePath = Ok analysis ->
       hasTransparency (characteristics analysis) = true ->
       ImageContentAnalyzer.contentType analysis <> photo.
Proof.
  assert (Hrule : forall c metadata,
             hasTransparency c = true ->
             determineContentType c metadata = graphic).
  { intros c metadata Htransparent. unfold determineContentType.
    rewrite Htransparent. reflexivity. }
  split.
  - intros c metadata Htransparent. rewrite (Hrule c metadata Htransparent).
    split; [discriminate | left; reflexivity].
  - intros fs imagePath analysis Hanalysis Htransparent.
    destruct (analyzeImageContent_classifies _ _ _ Hanalysis) as [metadata ->].
    rewrite (Hrule _ metadata Htransparent). discriminate.
Qed.

Lemma transparency_is_never_photo_witness :
  determineContentType
    {| colorComplexity := 90; edgeCount := 10; hasTransparency := true;
       colorDepth := 8; aspectRatio := 1 |}
    (pic_metadata Scenario.redPicture) <> photo.
Proof.
  apply (proj1 transparency_is_never_photo
           {| colorComplexity := 90; edgeCount := 10; hasTransparency := true;
              colorDepth := 8; aspectRatio := 1 |}
           (pic_metadata Scenario.redPicture)).
  reflexivity.
Defined.

(** C10.  When the edge-detection pipeline fails, whatever the reason,
    [estimateEdgeCount] returns 50 and no error; the analysis of an image
    whose metadata and statistics can be read then succeeds with an edge
    count of 50, which is what classification and quality decision see. *)
Theorem edge_detection_failure_yields_50 :
  (forall sharpInstance message,
      sharp_edge_stats sharpInstance = Throw message ->
      estimateEdgeCount sharpInstance = Ok 50%Q)
  /\ forall fs imagePath picture stats message,
       sharp fs imagePath = Ok picture ->
       pic_stats picture = Ok stats ->
       pic_edge_stats picture = Throw message ->
       exists analysis,
         analyzeImageContent fs imagePath = Ok analysis
         /\ edgeCount (characteristics analysis) = 50%Q
         /\ ImageContentAnalyzer.contentType analysis
            = determineContentType (characteristics analysis)
                (pic_metadata picture).
Proof.
  split.
  - intros sharpInstance message Hfail. unfold estimateEdgeCount.
    rewrite Hfail. reflexivity.
  - intros fs imagePath picture stats message Hopen Hstats Hedges.
    unfold analyzeImageContent, extractImageCharacteristics, estimateEdgeCount,
      sharp_metadata, sharp_stats, sharp_edge_stats.
    rewrite Hopen. cbn [bind]. rewrite Hstats. cbn [bind]. rewrite Hedges.
    cbn [bind try_catch]. eexists. split; [reflexivity |].
    split; reflexivity.
Qed.

Lemma edge_detection_failure_yields_50_witness :
  estimateEdgeCount (Ok Scenario.truncatedPicture) = Ok 50%Q.
Proof.
  apply (proj1 edge_detection_failure_yields_50 (Ok Scenario.truncatedPicture)
           "VipsJpeg: premature end of JPEG image").
  reflexivity.
Defined.

End QualityCalculator.

(** ** The quality validator *)

Section Validator.

Import QualityValidator.

Lemma score_is_documented_score m q :
  (calculateOverallQualityScore m q ==
   Documented.qualityScore (structuralSimilarity m) (colorAccuracy m)
     (sharpnessRetention m) q)%Q.
Proof.
  unfold calculateOverallQualityScore, Documented.qualityScore. cbv zeta.
  apply Q.min_compat; [reflexivity |]. apply Q.max_compat; [reflexivity |].
  field.
Qed.

Lemma score_monotone m (q1 q2 : Q) :
  (0 <= q1)%Q -> (q1 <= q2)%Q ->
  (calculateOverallQualityScore m q1 <= calculateOverallQualityScore m q2)%Q.
Proof.
  intros H0 H12. unfold calculateOverallQualityScore. cbv zeta.
  set (w := ((structuralSimilarity m * 0.4 + colorAccuracy m * 0.3
              + sharpnessRetention m * 0.3) * 100)%Q).
  assert (Ht1 : (0 <= q1 / 100)%Q) by (apply Qle_shift_div_l; lra).
  assert (Ht : (q1 / 100 <= q2 / 100)%Q)
    by (unfold Qdiv; apply Qmult_le_compat_r; [exact H12 | discriminate]).
  revert Ht1 Ht. generalize (q1 / 100)%Q (q2 / 100)%Q. intros t1 t2 Ht1 Ht.
  apply Q.min_le_compat_l.
  destruct (Qlt_le_dec w 0) as [Hneg | Hpos].
  - assert (H1 : (w * t1 <= 0)%Q) by nra.
    rewrite (Q.max_l _ _ H1). apply Q.le_max_l.
  - apply Q.max_le_compat_l. nra.
Qed.

(** C6.  The overall score is
    100 * (0.4 * structural + 0.3 * colour + 0.3 * sharpness)
    * (qualityUsed / 100), clamped to [0, 100]; and with the three metrics
    fixed it does not decrease when the quality used grows, for qualities
    from 0 upwards. *)
Theorem score_formula_and_monotonicity :
  forall m,
    (forall q,
        (calculateOverallQualityScore m q ==
         Documented.qualityScore (structuralSimilarity m) (colorAccuracy m)
           (sharpnessRetention m) q)%Q
        /\ (0 <= calculateOverallQualityScore m q <= 100)%Q)
    /\ forall q1 q2,
         (0 <= q1)%Q -> (q1 <= q2)%Q ->
         (calculateOverallQualityScore m q1
          <= calculateOverallQualityScore m q2)%Q.
Proof.
  intros m. split.
  - intros q. split; [apply score_is_documented_score |].
    unfold calculateOverallQualityScore. cbv zeta. split.
    + apply Q.min_glb; [discriminate | apply Q.le_max_l].
    + apply Q.le_min_l.
  - apply score_monotone.
Qed.

Lemma score_formula_and_monotonicity_witness :
  (calculateOverallQualityScore
     {| qualityLoss := 5; structuralSimilarity := 0.9; colorAccuracy := 1;
        sharpnessRetention := 0.8 |} 70
   <= calculateOverallQualityScore
        {| qualityLoss := 5; structuralSimilarity := 0.9; colorAccuracy := 1;
           sharpnessRetention := 0.8 |} 85)%Q.
Proof.
  apply (proj2 (score_formula_and_monotonicity
                  {| qualityLoss := 5; structuralSimilarity := 0.9;
                     colorAccuracy := 1; sharpnessRetention := 0.8 |}) 70 85)%Q.
  - vm_compute. discriminate.
  - vm_compute. discriminate.
Defined.

(** The metrics the comparison falls back to. *)
Lemma calculateQualityMetrics_defaults P fs originalPath optimizedPath message :
  sharp_metadata (sharp fs originalPath) = Throw message
  \/ sharp_metadata (sharp fs optimizedPath) = Throw message ->
  calculateQualityMetrics P fs originalPath optimizedPath
  = Ok {| qualityLoss := 20; structuralSimilarity := 0.8;
          colorAccuracy := 0.85; sharpnessRetention := 0.8 |}.
Proof.
  intros [H | H]; unfold calculateQualityMetrics.
  - rewrite H. reflexivity.
  - rewrite H. destruct (sharp_metadata (sharp fs originalPath)); reflexivity.
Qed.

Lemma calculateQualityMetrics_ok P fs originalPath optimizedPath :
  is_ok (calculateQualityMetrics P fs originalPath optimizedPath) = true.
Proof. apply try_catch_ok. reflexivity. Qed.

(** C5, amended.  [validateOutputQuality] never raises.  When the size of
    either file cannot be read it returns the failed validation (not
    valid, score 0, quality loss 100, one issue "Validation failed: ..."
    with the cause).  When the metadata of either image cannot be read the
    comparison falls back to the conservative metrics (structural
    similarity 0.8, colour accuracy 0.85, sharpness retention 0.8, quality
    loss 20) and the call returns a validation computed from them. *)
Theorem validation_reports_instead_of_raising :
  forall P self fs originalPath optimizedPath targetQuality,
    (exists validation,
        validateOutputQuality P self fs originalPath optimizedPath targetQuality
        = Ok validation)
    /\ (forall message,
           fs_stat fs originalPath = Throw message
           \/ (is_ok (fs_stat fs originalPath) = true
               /\ fs_stat fs optimizedPath = Throw message) ->
           validateOutputQuality P self fs originalPath optimizedPath
             targetQuality
           = Ok {| isValid := false;
                   v_qualityScore := 0;
                   sizeReduction := 0;
                   meetsThreshold := false;
                   issues := ["Validation failed: " +:+ message];
                   metrics :=
                     {| m_originalSize := 0;
                        m_optimizedSize := 0;
                        m_compressionRatio := 0;
                        m_qualityLoss := 100;
                        m_structuralSimilarity := 0 |} |})
    /\ (forall message,
           sharp_metadata (sharp fs originalPath) = Throw message
           \/ sharp_metadata (sharp fs optimizedPath) = Throw message ->
           calculateQualityMetrics P fs originalPath optimizedPath
           = Ok {| qualityLoss := 20; structuralSimilarity := 0.8;
                   colorAccuracy := 0.85; sharpnessRetention := 0.8 |})
    /\ (forall message,
           is_ok (fs_stat fs originalPath) = true ->
           is_ok (fs_stat fs optimizedPath) = true ->
           sharp_metadata (sharp fs originalPath) = Throw message
           \/ sharp_metadata (sharp fs optimizedPath) = Throw message ->
           exists validation,
             validateOutputQuality P self fs originalPath optimizedPath
               targetQuality = Ok validation
             /\ m_qualityLoss (metrics validation) = 20%Q
             /\ m_structuralSimilarity (metrics validation) = 0.8%Q
             /\ v_qualityScore validation
                = calculateOverallQualityScore
                    {| qualityLoss := 20; structuralSimilarity := 0.8;
                       colorAccuracy := 0.85; sharpnessRetention := 0.8 |}
                    targetQuality).
Proof.
  intros P self fs originalPath optimizedPath targetQuality.
  split; [| split; [| split]].
  - pose proof (try_catch_ok (A := Validation)) as H.
    unfold validateOutputQuality.
    match goal with |- exists v, try_catch ?b ?h = Ok v =>
      specialize (H b h (fun _ => eq_refl)); destruct (try_catch b h); [eauto | discriminate] end.
  - intros message [H | [H1 H2]]; unfold validateOutputQuality.
    + rewrite H. reflexivity.
    + destruct (fs_stat fs originalPath); [| discriminate].
      rewrite H2. reflexivity.
  - apply calculateQualityMetrics_defaults.
  - intros message H1 H2 Hmeta. unfold validateOutputQuality.
    destruct (fs_stat fs originalPath) as [originalSize |]; [| discriminate].
    destruct (fs_stat fs optimizedPath) as [optimizedSize |]; [| discriminate].
    cbn [bind]. rewrite (calculateQualityMetrics_defaults _ _ _ _ _ Hmeta).
    cbn [bind].
    pose proof (try_catch_ok (A := Integrity)) as H.
    unfold validateFileIntegrity.
    match goal with |- context [try_catch ?b ?h] =>
      specialize (H b h (fun _ => eq_refl)); destruct (try_catch b h); [| discriminate] end.
    cbn [bind try_catch]. eexists. split; [reflexivity |].
    cbn. repeat split.
Qed.

(** C5 as stated fails twice.  An unreadable original makes the call
    return a failed validation, it does not raise; and when the header of
    both images decodes but their pixels do not, each comparison falls
    back on its own and the resulting quality loss is 55/3, not 20. *)
Lemma unreadable_file_is_reported_not_raised :
  (exists message validation,
      fs_stat Scenario.source "src/missing.jpg" = Throw message
      /\ validateOutputQuality (Scenario.platform 50)
           (QualityValidator.new None None) Scenario.source "src/missing.jpg"
           "out/valid.webp" 80
         = Ok validation
      /\ isValid validation = false)
  /\ (exists measured,
         calculateQualityMetrics (Scenario.platform 50)
           (<["a.jpg" := Scenario.truncatedJpeg]>
              (<["a.webp" := Scenario.truncatedJpeg]> ∅))
           "a.jpg" "a.webp"
         = Ok measured
         /\ structuralSimilarity measured = 0.8%Q
         /\ colorAccuracy measured = 0.85%Q
         /\ sharpnessRetention measured = 0.8%Q
         /\ ~ (qualityLoss measured == 20)%Q).
Proof.
  split.
  - do 2 eexists. split; [vm_compute; reflexivity |].
    split; [vm_compute; reflexivity | reflexivity].
  - eexists. split; [vm_compute; reflexivity |].
    repeat split. vm_compute. discriminate.
Qed.

Lemma validation_reports_instead_of_raising_witness :
  exists validation,
    validateOutputQuality (Scenario.platform 50)
      (QualityValidator.new None None)
      (<["out/valid.webp" := Scenario.notAnImage]> Scenario.source)
      "src/valid.jpg" "out/valid.webp" 80
    = Ok validation
    /\ m_qualityLoss (metrics validation) = 20%Q.
Proof.
  destruct (validation_reports_instead_of_raising (Scenario.platform 50)
              (QualityValidator.new None None)
              (<["out/valid.webp" := Scenario.notAnImage]> Scenario.source)
              "src/valid.jpg" "out/valid.webp" 80)
    as (_ & _ & _ & Hdefaults).
  destruct (Hdefaults "Input file contains unsupported image format")
    as (validation & Hvalidation & Hloss & _).
  - vm_compute. reflexivity.
  - vm_compute. reflexivity.
  - right. vm_compute. reflexivity.
  - exists validation. split; [exact Hvalidation | exact Hloss].
Defined.

End Validator.

(** ** Stateful computations *)

Section Monad.
Context {St : Type}.

Lemma mbind_ok {A B : Type} (m : M St A) (k : A -> M St B) st b st' :
  mbind m k st = (Ok b, st') ->
  exists a st1, m st = (Ok a, st1) /\ k a st1 = (Ok b, st').
Proof.
  unfold mbind. destruct (m st) as [[a | e] st1]; [eauto | discriminate].
Qed.

Lemma mbind_step {A B : Type} (m : M St A) (k : A -> M St B) st a st1 :
  m st = (Ok a, st1) -> mbind m k st = k a st1.
Proof. unfold mbind. intros ->. reflexivity. Qed.

Lemma mbind_assoc {A B C : Type} (m : M St A) (k : A -> M St B) (k' : B -> M St C) st :
  mbind (mbind m k) k' st = mbind m (fun a => mbind (k a) k') st.
Proof. unfold mbind. destruct (m st) as [[a | e] st1]; reflexivity. Qed.

Lemma mtry_cases {A : Type} (body : M St A) (handler : string -> M St A) st r st' :
  mtry body handler st = (r, st') ->
  (exists a, body st = (Ok a, st') /\ r = Ok a)
  \/ (exists e st1, body st = (Throw e, st1) /\ handler e st1 = (r, st')).
Proof.
  unfold mtry. destruct (body st) as [[a | e] st1]; intros H.
  - left. exists a. inversion H; subst. auto.
  - right. eauto.
Qed.

Lemma mtry_ok {A : Type} (body : M St A) (handler : string -> M St A) st a st' :
  body st = (Ok a, st') -> mtry body handler st = (Ok a, st').
Proof. unfold mtry. intros ->. reflexivity. Qed.

Lemma reads_inv {A : Type} (f : St -> result A) st r st' :
  reads f st = (r, st') -> r = f st /\ st' = st.
Proof. unfold reads. intros H. inversion H. auto. Qed.

Lemma reads_step {A B : Type} (f : St -> result A) (k : A -> M St B) st a :
  f st = Ok a -> mbind (reads f) k st = k a st.
Proof. unfold mbind, reads. intros ->. reflexivity. Qed.

End Monad.

Ltac invert_run H :=
  repeat match type of H with
  | mbind _ _ _ = (Ok _, _) =>
      let a := fresh "a" in let st := fresh "st" in
      let H1 := fresh "Hstep" in
      apply mbind_ok in H; destruct H as (a & st & H1 & H);
      try (apply reads_inv in H1; destruct H1 as [H1 ->]; symmetry in H1)
  | (if ?b then _ else _) _ = _ => destruct b eqn:?
  | throw _ _ = (Ok _, _) => discriminate H
  end.

(** ** The per-item pipeline *)

Section Pipeline.
Import BatchProcessor.

Lemma convertToWebP_success P self inputPath outputPath quality maxWidth maxHeight fs converted fs' :
  WebPConverter.convertToWebP P self inputPath outputPath quality maxWidth maxHeight fs
  = (Ok converted, fs') ->
  status converted = success ->
  exists encoded,
    fs' = <[outputPath := encoded]> fs
    /\ optimizedSize converted = file_size encoded
    /\ optimizedPath converted = outputPath.
Proof.
  unfold WebPConverter.convertToWebP. intros H Hstatus.
  apply mtry_cases in H. destruct H as [(a & H & Ha) | (e & st1 & _ & H)].
  - inversion Ha; subst a; clear Ha.
    invert_run H.
    unfold WebPConverter.toFile in Hstep3.
    destruct (fs !! inputPath) as [input |]; [| discriminate].
    destruct (webp_encode P _ input _ _ _) as [encoded |]; [| discriminate].
    inversion Hstep3; subst. clear Hstep3.
    unfold fs_stat in Hstep4. rewrite lookup_insert_eq in Hstep4.
    inversion Hstep4; subst.
    inversion H; subst. eauto.
  - inversion H; subst. discriminate.
Qed.

Lemma processImage_after_conversion P self imagePath outputDirectory fs validation decision converted fs' :
  FormatDetector.validateImageFile P (formatDetector self) fs imagePath = Ok validation ->
  FormatDetector.isValid validation = true ->
  DynamicQualityCalculator.calculateOptimalQuality (qualityCalculator self) fs imagePath None = Ok decision ->
  WebPConverter.convertToWebP P (webpConverter self) imagePath
    (FileManager.generateWebPOutputPath P imagePath outputDirectory)
    (DynamicQualityCalculator.quality decision)
    (maxWidth (dimensions (ConfigManager.getConfig (configManager self))))
    (maxHeight (dimensions (ConfigManager.getConfig (configManager self)))) fs
  = (Ok converted, fs') ->
  status converted = success ->
  forall verdict,
  QualityValidator.validateOutputQuality P (qualityValidator self) fs' imagePath
    (FileManager.generateWebPOutputPath P imagePath outputDirectory)
    (inject_Z (DynamicQualityCalculator.quality decision)) = Ok verdict ->
  processImage P self imagePath outputDirectory fs
  = (Ok (if negb (QualityValidator.isValid verdict)
         then set_errorMessage (set_status converted failed)
                ("Quality validation failed: "
                 +:+ Str.join ", " (QualityValidator.issues verdict))
         else converted), fs').
Proof.
  intros Hvalidation Hvalid Hdecision Hconverted Hstatus verdict Hverdict.
  unfold processImage. apply mtry_ok.
  erewrite reads_step; [| exact Hvalidation]. rewrite Hvalid. cbn [negb].
  erewrite reads_step; [| exact Hdecision]. cbv zeta.
  rewrite (mbind_step _ _ _ _ _ Hconverted).
  rewrite Hstatus. cbn [Status_eqb].
  rewrite mbind_assoc. erewrite reads_step; [| exact Hverdict].
  destruct (QualityValidator.isValid verdict); reflexivity.
Qed.
(** C7.  When the conversion succeeds and the validation of its output is
    not valid, [processImage] returns the conversion's result with the
    status changed from success to failed and, as error message, the
    validation's issues joined by ", " behind the fixed prefix
    "Quality validation failed: "; every other field is the conversion's,
    and the file system is the one the conversion left: the original one
    plus the written output file, which is still there. *)
Theorem failed_validation_fails_the_item_only :
  forall P self imagePath outputDirectory fs validation decision converted fs'
         verdict,
    FormatDetector.validateImageFile P (formatDetector self) fs imagePath
    = Ok validation ->
    FormatDetector.isValid validation = true ->
    DynamicQualityCalculator.calculateOptimalQuality (qualityCalculator self) fs
      imagePath None = Ok decision ->
    WebPConverter.convertToWebP P (webpConverter self) imagePath
      (FileManager.generateWebPOutputPath P imagePath outputDirectory)
      (DynamicQualityCalculator.quality decision)
      (maxWidth (dimensions (ConfigManager.getConfig (configManager self))))
      (maxHeight (dimensions (ConfigManager.getConfig (configManager self))))
      fs
    = (Ok converted, fs') ->
    status converted = success ->
    QualityValidator.validateOutputQuality P (qualityValidator self) fs'
      imagePath (FileManager.generateWebPOutputPath P imagePath outputDirectory)
      (inject_Z (DynamicQualityCalculator.quality decision)) = Ok verdict ->
    QualityValidator.isValid verdict = false ->
    exists final encoded,
      processImage P self imagePath outputDirectory fs = (Ok final, fs')
      /\ status final = failed
      /\ errorMessage final
         = Some ("Quality validation failed: "
                 +:+ Str.join ", " (QualityValidator.issues verdict))
      /\ originalPath final = originalPath converted
      /\ optimizedPath final = optimizedPath converted
      /\ originalSize final = originalSize converted
      /\ optimizedSize final = optimizedSize converted
      /\ compressionRatio final = compressionRatio converted
      /\ qualityScore final = qualityScore converted
      /\ processingTime final = processingTime converted
      /\ fs' = <[FileManager.generateWebPOutputPath P imagePath outputDirectory
                 := encoded]> fs
      /\ fs' !! FileManager.generateWebPOutputPath P imagePath outputDirectory
         = Some encoded.
Proof.
  intros P self imagePath outputDirectory fs validation decision converted fs'
    verdict Hvalidation Hvalid Hdecision Hconverted Hstatus Hverdict Hinvalid.
  destruct (convertToWebP_success _ _ _ _ _ _ _ _ _ _ Hconverted Hstatus)
    as (encoded & Hwritten & _).
  rewrite (processImage_after_conversion _ _ _ _ _ _ _ _ _ Hvalidation Hvalid
             Hdecision Hconverted Hstatus _ Hverdict).
  rewrite Hinvalid. cbn [negb].
  eexists _, encoded. split; [reflexivity |].
  cbn [set_errorMessage set_status status errorMessage originalPath
       optimizedPath originalSize optimizedSize compressionRatio qualityScore
       processingTime].
  repeat split; try assumption.
  rewrite Hwritten. apply lookup_insert_eq.
Qed.

(** The default processor on the red test image, with an encoder that
    doubles the size: the conversion succeeds and the validation objects
    to the larger output. *)
Lemma oversized_output_is_invalid :
  exists p validation decision converted fs' verdict,
    Scenario.processor None = Some p
    /\ FormatDetector.validateImageFile (Scenario.platform 200)
         (formatDetector p) Scenario.source "src/valid.jpg" = Ok validation
    /\ FormatDetector.isValid validation = true
    /\ DynamicQualityCalculator.calculateOptimalQuality (qualityCalculator p)
         Scenario.source "src/valid.jpg" None = Ok decision
    /\ WebPConverter.convertToWebP (Scenario.platform 200) (webpConverter p)
         "src/valid.jpg"
         (FileManager.generateWebPOutputPath (Scenario.platform 200)
            "src/valid.jpg" "out")
         (DynamicQualityCalculator.quality decision)
         (maxWidth (dimensions (ConfigManager.getConfig (configManager p))))
         (maxHeight (dimensions (ConfigManager.getConfig (configManager p))))
         Scenario.source
       = (Ok converted, fs')
    /\ status converted = success
    /\ QualityValidator.validateOutputQuality (Scenario.platform 200)
         (qualityValidator p) fs' "src/valid.jpg"
         (FileManager.generateWebPOutputPath (Scenario.platform 200)
            "src/valid.jpg" "out")
         (inject_Z (DynamicQualityCalculator.quality decision)) = Ok verdict
    /\ QualityValidator.isValid verdict = false
    /\ QualityValidator.issues verdict
       = ["Output file is 100.0% larger than original"].
Proof.
  do 6 eexists.
  split; [vm_compute; reflexivity |].
  split; [vm_compute; reflexivity |].
  split; [reflexivity |].
  split; [vm_compute; reflexivity |].
  split; [vm_compute; reflexivity |].
  split; [reflexivity |].
  split; [vm_compute; reflexivity |].
  split; reflexivity.
Qed.

Lemma failed_validation_fails_the_item_only_witness :
  exists p final fs',
    Scenario.processor None = Some p
    /\ processImage (Scenario.platform 200) p "src/valid.jpg" "out"
         Scenario.source = (Ok final, fs')
    /\ status final = failed
    /\ errorMessage final
       = Some "Quality validation failed: Output file is 100.0% larger than original"
    /\ is_Some (fs' !! FileManager.generateWebPOutputPath
                        (Scenario.platform 200) "src/valid.jpg" "out").
Proof.
  destruct oversized_output_is_invalid
    as (p & validation & decision & converted & fs' & verdict & Hp & Hvalidation
        & Hvalid & Hdecision & Hconverted & Hstatus & Hverdict & Hinvalid
        & Hissues).
  destruct (failed_validation_fails_the_item_only (Scenario.platform 200) p
              "src/valid.jpg" "out" Scenario.source validation decision
              converted fs' verdict Hvalidation Hvalid Hdecision Hconverted
              Hstatus Hverdict Hinvalid)
    as (final & encoded & Hrun & Hfailed & Hmessage & _ & _ & _ & _ & _ & _ & _
        & _ & Hfile).
  exists p, final, fs'. split; [exact Hp |]. split; [exact Hrun |].
  split; [exact Hfailed |]. split.
  - rewrite Hmessage, Hissues. reflexivity.
  - exists encoded. exact Hfile.
Defined.

End Pipeline.

(** ** Double precision *)

Section Doubles.
Import Num.
Local Open Scope Q_scope.

Lemma pow2_pos (e : Z) : 0 < pow2 e.
Proof. apply Qpower_0_lt. reflexivity. Qed.

Lemma pow2_plus (a b : Z) : pow2 (a + b) == pow2 a * pow2 b.
Proof. apply Qpower_plus. discriminate. Qed.

Lemma pow2_le (a b : Z) : (a <= b)%Z -> pow2 a <= pow2 b.
Proof. intros H. apply Qpower_le_compat_l; [exact H | discriminate]. Qed.

Lemma pow2_inject (e : Z) : (0 <= e)%Z -> pow2 e == inject_Z (2 ^ e).
Proof. intros H. symmetry. exact (Zpower_Qpower 2 e H). Qed.

Lemma pow2_succ (e : Z) : pow2 (e + 1) == 2 * pow2 e.
Proof. rewrite pow2_plus. change (pow2 1) with 2. ring. Qed.

Lemma log2_bounds (n : Z) :
  (0 < n)%Z ->
  pow2 (Z.log2 n) <= inject_Z n /\ inject_Z n < pow2 (Z.log2 n + 1).
Proof.
  intros Hn. destruct (Z.log2_spec n Hn) as [Hlo Hhi].
  pose proof (Z.log2_nonneg n) as Hnonneg.
  rewrite !pow2_inject by lia. rewrite <- Zle_Qle, <- Zlt_Qlt.
  split; [exact Hlo | exact Hhi].
Qed.

Lemma exponent_spec (x : Q) :
  0 < x -> pow2 (exponent x) <= x /\ x < pow2 (exponent x + 1).
Proof.
  intros Hx. unfold exponent.
  destruct x as [n m]. cbn [Qnum Qden].
  assert (Hn : (0 < n)%Z).
  { unfold Qlt in Hx. cbn in Hx. lia. }
  destruct (log2_bounds n Hn) as [Hn1 Hn2].
  destruct (log2_bounds (Z.pos m) eq_refl) as [Hm1 Hm2].
  set (ln := Z.log2 n) in *. set (lm := Z.log2 (Z.pos m)) in *.
  pose proof (pow2_pos ln) as HA. pose proof (pow2_pos lm) as HB.
  pose proof (pow2_pos (ln - lm)) as HD.
  assert (Hd : pow2 (ln - lm) * pow2 lm == pow2 ln).
  { rewrite <- pow2_plus. replace (ln - lm + lm)%Z with ln by lia. reflexivity. }
  rewrite pow2_succ in Hn2, Hm2.
  assert (Hx' : (n # m) * inject_Z (Z.pos m) == inject_Z n).
  { rewrite (Qmake_Qdiv n m). field. discriminate. }
  assert (HM : 0 < inject_Z (Z.pos m)) by reflexivity.
  set (X := n # m) in *. set (M := inject_Z (Z.pos m)) in *.
  set (N := inject_Z n) in *. set (A := pow2 ln) in *. set (B := pow2 lm) in *.
  set (D := pow2 (ln - lm)) in *.
  destruct (Qle_bool D X) eqn:Hle.
  - apply Qle_bool_iff in Hle. split; [exact Hle |].
    rewrite pow2_succ. fold D.
    apply Qnot_le_lt. intros Habs.
    assert (H1 : 2 * D * B * M <= X * M * B) by nra.
    nra.
  - assert (Hlt : X < D).
    { apply Qnot_le_lt. intros Habs. apply Qle_bool_iff in Habs. congruence. }
    replace (ln - lm - 1 + 1)%Z with (ln - lm)%Z by lia. fold D.
    split; [| exact Hlt].
    assert (Hhalf : 2 * pow2 (ln - lm - 1) == D).
    { rewrite <- pow2_succ. replace (ln - lm - 1 + 1)%Z with (ln - lm)%Z by lia.
      reflexivity. }
    set (H := pow2 (ln - lm - 1)) in *.
    apply Qnot_lt_le. intros Habs.
    assert (H1 : X * M * (2 * B) < 2 * H * B * M) by nra.
    nra.
Qed.

Lemma nearest_even_floor (x : Q) :
  (Qfloor x <= nearest_even x <= Qfloor x + 1)%Z
  /\ inject_Z (nearest_even x) - (1 # 2) <= x
  /\ x <= inject_Z (nearest_even x) + (1 # 2)
  /\ (x == inject_Z (Qfloor x) -> nearest_even x = Qfloor x).
Proof.
  unfold nearest_even.
  pose proof (Qfloor_le x) as Hlo. pose proof (Qlt_floor x) as Hhi.
  rewrite inject_Z_plus in Hhi. change (inject_Z 1) with 1 in Hhi.
  destruct (x - inject_Z (Qfloor x) ?= 1 # 2) eqn:Hcmp.
  - apply Qeq_alt in Hcmp.
    destruct (Z.even (Qfloor x)).
    + repeat split; try lia; try lra.
    + rewrite inject_Z_plus. change (inject_Z 1) with 1.
      repeat split; try lia; try lra.
  - apply Qlt_alt in Hcmp. repeat split; try lia; try lra.
  - apply Qgt_alt in Hcmp. rewrite inject_Z_plus. change (inject_Z 1) with 1.
    repeat split; try lia; try lra.
Qed.

Lemma nearest_even_lower (x : Q) (z : Z) :
  inject_Z z <= x -> (z <= nearest_even x)%Z.
Proof.
  intros Hz. destruct (nearest_even_floor x) as ([Hfloor _] & _).
  apply Qfloor_resp_le in Hz. rewrite Qfloor_Z in Hz. lia.
Qed.

Lemma nearest_even_upper (x : Q) (z : Z) :
  x <= inject_Z z -> (nearest_even x <= z)%Z.
Proof.
  intros Hz. destruct (nearest_even_floor x) as ([_ Hceil] & _ & _ & Hint).
  pose proof (Qfloor_le x) as Hlo.
  destruct (Qlt_le_dec (inject_Z (Qfloor x)) x) as [Hlt | Hge].
  - assert (H : inject_Z (Qfloor x) < inject_Z z) by lra.
    rewrite <- Zlt_Qlt in H. lia.
  - rewrite Hint by lra.
    assert (H : inject_Z (Qfloor x) <= inject_Z z) by lra.
    rewrite <- Zle_Qle in H. exact H.
Qed.

(** The significand of a positive number lies between 2^52 and 2^53. *)
Lemma significand_bounds (x : Q) :
  0 < x ->
  let e := (exponent x - 52)%Z in
  inject_Z (2 ^ 52) <= x / pow2 e /\ x / pow2 e < inject_Z (2 ^ 53).
Proof.
  intros Hx e. destruct (exponent_spec x Hx) as [Hlo Hhi].
  pose proof (pow2_pos e) as He.
  assert (H52 : pow2 (exponent x) == inject_Z (2 ^ 52) * pow2 e).
  { rewrite <- (pow2_inject 52) by lia. rewrite <- pow2_plus.
    subst e. replace (52 + (exponent x - 52))%Z with (exponent x) by lia.
    reflexivity. }
  assert (H53 : pow2 (exponent x + 1) == inject_Z (2 ^ 53) * pow2 e).
  { rewrite <- (pow2_inject 53) by lia. rewrite <- pow2_plus.
    subst e. replace (53 + (exponent x - 52))%Z with (exponent x + 1)%Z by lia.
    reflexivity. }
  split.
  - apply Qle_shift_div_l; [exact He |]. rewrite <- H52. exact Hlo.
  - apply Qlt_shift_div_r; [exact He |]. rewrite <- H53. exact Hhi.
Qed.

Lemma dyadic_integer (n : Z) : (0 < n <= 2 ^ 53)%Z -> dyadic (inject_Z n).
Proof.
  intros Hn. exists n, 0%Z. split; [exact Hn |].
  change (pow2 0) with 1. ring.
Qed.

Lemma double_pos_lower (c x : Q) :
  dyadic c -> c <= x -> c <= double_pos x.
Proof.
  intros (n & k & [Hn0 Hn] & Hc) Hcx.
  pose proof (pow2_pos k) as Hk.
  assert (Hcpos : 0 < c).
  { rewrite Hc. apply Qmult_lt_0_compat; [| exact Hk].
    change 0 with (inject_Z 0). rewrite <- Zlt_Qlt. exact Hn0. }
  assert (Hx : 0 < x) by lra.
  unfold double_pos.
  destruct (significand_bounds x Hx) as [Hlo Hhi].
  set (e := (exponent x - 52)%Z) in *.
  pose proof (pow2_pos e) as He.
  set (y := x / pow2 e) in *.
  assert (Hy : y * pow2 e == x) by (unfold y; field; lra).
  assert (Hfloor : (2 ^ 52 <= nearest_even y)%Z)
    by (apply nearest_even_lower; exact Hlo).
  destruct (Z_le_gt_dec e k) as [Hek | Hek].
  - (* the significand of [c] at the exponent of [x] is an integer *)
    assert (Hshift : pow2 k == inject_Z (2 ^ (k - e)) * pow2 e).
    { rewrite <- pow2_inject by lia. rewrite <- pow2_plus.
      replace (k - e + e)%Z with k by lia. reflexivity. }
    assert (Hint : inject_Z (n * 2 ^ (k - e)) <= y).
    { rewrite inject_Z_mult. apply Qle_shift_div_l; [exact He |].
      rewrite <- Qmult_assoc, <- Hshift, <- Hc. exact Hcx. }
    apply nearest_even_lower in Hint.
    rewrite Hc, Hshift, Qmult_assoc, <- inject_Z_mult.
    apply Qmult_le_compat_r; [| lra].
    rewrite <- Zle_Qle. exact Hint.
  - (* [c] is below the binade of [x] *)
    assert (Hhalf : 2 * pow2 k <= pow2 e).
    { rewrite <- pow2_succ. apply pow2_le. lia. }
    assert (Hn' : inject_Z n <= inject_Z (2 ^ 53)) by (rewrite <- Zle_Qle; exact Hn).
    assert (Hn0' : 0 < inject_Z n)
      by (change 0 with (inject_Z 0); rewrite <- Zlt_Qlt; exact Hn0).
    assert (Hf : inject_Z (2 ^ 52) <= inject_Z (nearest_even y))
      by (rewrite <- Zle_Qle; exact Hfloor).
    change (inject_Z (2 ^ 53)) with (2 * inject_Z (2 ^ 52)) in Hn'.
    assert (H52 : 0 < inject_Z (2 ^ 52)) by reflexivity.
    rewrite Hc.
    set (N := inject_Z n) in *. set (T := inject_Z (2 ^ 52)) in *.
    set (R := inject_Z (nearest_even y)) in *.
    set (K := pow2 k) in *. set (E := pow2 e) in *.
    assert (H1 : N * K <= T * (2 * K)) by nra.
    assert (H2 : T * (2 * K) <= T * E) by nra.
    assert (H3 : T * E <= R * E) by nra.
    lra.
Qed.

Lemma double_pos_upper (c x : Q) :
  dyadic c -> 0 < x -> x <= c -> double_pos x <= c.
Proof.
  intros (n & k & [Hn0 Hn] & Hc) Hx Hxc.
  pose proof (pow2_pos k) as Hk.
  unfold double_pos.
  destruct (significand_bounds x Hx) as [Hlo Hhi].
  set (e := (exponent x - 52)%Z) in *.
  pose proof (pow2_pos e) as He.
  set (y := x / pow2 e) in *.
  assert (Hy : y * pow2 e == x) by (unfold y; field; lra).
  destruct (Z_le_gt_dec e k) as [Hek | Hek].
  - assert (Hshift : pow2 k == inject_Z (2 ^ (k - e)) * pow2 e).
    { rewrite <- pow2_inject by lia. rewrite <- pow2_plus.
      replace (k - e + e)%Z with k by lia. reflexivity. }
    assert (Hint : y <= inject_Z (n * 2 ^ (k - e))).
    { rewrite inject_Z_mult. apply Qle_shift_div_r; [exact He |].
      rewrite <- Qmult_assoc, <- Hshift, <- Hc. exact Hxc. }
    apply nearest_even_upper in Hint.
    rewrite Hc, Hshift, Qmult_assoc, <- inject_Z_mult.
    apply Qmult_le_compat_r; [| lra].
    rewrite <- Zle_Qle. exact Hint.
  - (* [c] is the power of two at the bottom of the binade of [x] *)
    assert (Hhalf : 2 * pow2 k <= pow2 e).
    { rewrite <- pow2_succ. apply pow2_le. lia. }
    assert (Hn' : inject_Z n <= inject_Z (2 ^ 53)) by (rewrite <- Zle_Qle; exact Hn).
    assert (Hn0' : 0 < inject_Z n)
      by (change 0 with (inject_Z 0); rewrite <- Zlt_Qlt; exact Hn0).
    change (inject_Z (2 ^ 53)) with (2 * inject_Z (2 ^ 52)) in Hn'.
    assert (H52 : 0 < inject_Z (2 ^ 52)) by reflexivity.
    rewrite Hc in Hxc |- *.
    assert (Hexact : y <= inject_Z (2 ^ 52)).
    { apply Qle_shift_div_r; [exact He |].
      set (N := inject_Z n) in *. set (T := inject_Z (2 ^ 52)) in *.
      set (K := pow2 k) in *. set (E := pow2 e) in *.
      assert (H1 : N * K <= T * (2 * K)) by nra.
      assert (H2 : T * (2 * K) <= T * E) by nra.
      lra. }
    apply nearest_even_upper in Hexact.
    assert (Hr : inject_Z (nearest_even y) <= inject_Z (2 ^ 52))
      by (rewrite <- Zle_Qle; exact Hexact).
    assert (Hxy : inject_Z (2 ^ 52) * pow2 e <= x).
    { rewrite <- Hy. apply Qmult_le_compat_r; [exact Hlo | lra]. }
    set (R := inject_Z (nearest_even y)) in *.
    set (T := inject_Z (2 ^ 52)) in *. set (E := pow2 e) in *.
    assert (H3 : R * E <= T * E) by nra.
    lra.
Qed.

Lemma double_pos_error (x : Q) :
  0 < x ->
  x - x * pow2 (-53) <= double_pos x /\ double_pos x <= x + x * pow2 (-53).
Proof.
  intros Hx. unfold double_pos.
  destruct (significand_bounds x Hx) as [Hlo Hhi].
  set (e := (exponent x - 52)%Z) in *.
  pose proof (pow2_pos e) as He.
  set (y := x / pow2 e) in *.
  assert (Hy : y * pow2 e == x) by (unfold y; field; lra).
  destruct (nearest_even_floor y) as (_ & Hbelow & Habove & _).
  assert (Hu : inject_Z (2 ^ 52) * pow2 (-53) == 1 # 2) by reflexivity.
  set (R := inject_Z (nearest_even y)) in *.
  set (T := inject_Z (2 ^ 52)) in *. set (E := pow2 e) in *.
  set (U := pow2 (-53)) in *.
  assert (HU : 0 < U) by reflexivity.
  assert (Hhalf : (1 # 2) * E <= x * U).
  { assert (H0 : T * E <= y * E) by nra.
    assert (H0' : (T * E) * U <= (y * E) * U) by nra.
    rewrite <- Hy, <- Hu. lra. }
  assert (H1 : (y - (1 # 2)) * E <= R * E) by nra.
  assert (H2 : R * E <= (y + (1 # 2)) * E) by nra.
  split; nra.
Qed.

Lemma double_zero (x : Q) : x == 0 -> double x == 0.
Proof.
  intros Hx. unfold double. rewrite Qred_correct.
  apply Qeq_alt in Hx. rewrite Hx. reflexivity.
Qed.

Lemma double_positive (x : Q) : 0 < x -> double x == double_pos x.
Proof.
  intros Hx. unfold double. rewrite Qred_correct.
  apply Qgt_alt in Hx. rewrite Hx. reflexivity.
Qed.

(** Rounding keeps a number above a number with 53 bits below it, and
    below one above it. *)
Lemma double_lower (c x : Q) : dyadic c -> c <= x -> c <= double x.
Proof.
  intros Hc Hcx.
  assert (Hpos : 0 < c).
  { destruct Hc as (n & k & [Hn0 _] & ->).
    apply Qmult_lt_0_compat; [| apply pow2_pos].
    change 0 with (inject_Z 0). rewrite <- Zlt_Qlt. exact Hn0. }
  rewrite double_positive by lra. apply double_pos_lower; assumption.
Qed.

Lemma double_upper (c x : Q) : dyadic c -> 0 <= x -> x <= c -> double x <= c.
Proof.
  intros Hc Hx Hxc.
  assert (Hpos : 0 < c).
  { destruct Hc as (n & k & [Hn0 _] & ->).
    apply Qmult_lt_0_compat; [| apply pow2_pos].
    change 0 with (inject_Z 0). rewrite <- Zlt_Qlt. exact Hn0. }
  destruct (Qlt_le_dec 0 x) as [Hlt | Hle].
  - rewrite double_positive by exact Hlt. apply double_pos_upper; assumption.
  - rewrite double_zero by lra. lra.
Qed.

Lemma double_nonneg (x : Q) : 0 <= x -> 0 <= double x.
Proof.
  intros Hx. destruct (Qlt_le_dec 0 x) as [Hlt | Hle].
  - rewrite double_positive by exact Hlt.
    destruct (double_pos_error x Hlt) as [Hlo _].
    assert (HU : pow2 (-53) <= 1) by (vm_compute; discriminate).
    nra.
  - rewrite double_zero by lra. lra.
Qed.

(** The relative error of a rounding is at most 2^-53. *)
Lemma double_error (x : Q) :
  0 <= x ->
  x - x * pow2 (-53) <= double x /\ double x <= x + x * pow2 (-53).
Proof.
  intros Hx. destruct (Qlt_le_dec 0 x) as [Hlt | Hle].
  - rewrite double_positive by exact Hlt. apply double_pos_error, Hlt.
  - rewrite double_zero by lra. assert (x == 0) by lra. nra.
Qed.

End Doubles.

(** ** The progress display *)

Section Display.
Import ProgressReporter.

Lemma Math_round_lower (x : Q) (lo : Z) :
  (inject_Z lo <= x + (1 # 2))%Q -> lo <= Num.Math_round x.
Proof.
  intros Hlo. unfold Num.Math_round.
  rewrite <- (Qfloor_Z lo). apply Qfloor_resp_le. exact Hlo.
Qed.

Lemma Math_round_upper (x : Q) (hi : Z) :
  (x + (1 # 2) < inject_Z hi + 1)%Q -> Num.Math_round x <= hi.
Proof.
  intros Hhi. unfold Num.Math_round.
  apply Z.lt_succ_r. rewrite Zlt_Qlt.
  eapply Qle_lt_trans; [apply Qfloor_le |].
  unfold Z.succ. rewrite inject_Z_plus. change (inject_Z 1) with 1%Q.
  exact Hhi.
Qed.

Lemma Math_round_bounds (x : Q) (lo hi : Z) :
  (inject_Z lo <= x)%Q -> (x <= inject_Z hi)%Q ->
  lo <= Num.Math_round x <= hi.
Proof.
  intros Hlo Hhi. split;
    [apply Math_round_lower | apply Math_round_upper]; lra.
Qed.

Lemma ratio_bounds (k total : Z) :
  1 <= total -> 0 <= k <= total ->
  (0 <= inject_Z k / inject_Z total)%Q /\ (inject_Z k / inject_Z total <= 1)%Q.
Proof.
  intros Htotal [Hk0 Hk].
  assert (Hpos : (0 < inject_Z total)%Q)
    by (change 0%Q with (inject_Z 0); rewrite <- Zlt_Qlt; lia).
  split.
  - apply Qle_shift_div_l; [exact Hpos |]. rewrite Qmult_0_l.
    change 0%Q with (inject_Z 0). rewrite <- Zle_Qle. exact Hk0.
  - apply Qle_shift_div_r; [exact Hpos |]. rewrite Qmult_1_l.
    rewrite <- Zle_Qle. exact Hk.
Qed.

(** A constant with few bits. *)
Ltac few_bits n k :=
  exists n, k; split; [split; [reflexivity | discriminate] | reflexivity].

(** [Math.round((k / total) * 100)] *)
Local Abbreviation percent k total :=
  (Num.Math_round
     (Num.double (Num.double (inject_Z k / inject_Z total) * 100))%Q).

Lemma percentage_bounds (k total : Z) :
  1 <= total -> 0 <= k <= total -> 0 <= percent k total <= 100.
Proof.
  intros Htotal Hk. destruct (ratio_bounds k total Htotal Hk) as [H0 H1].
  pose proof (double_nonneg _ H0) as Hd0.
  assert (Hd1 : (Num.double (inject_Z k / inject_Z total) <= 1)%Q).
  { apply double_upper; [few_bits 1 0 | exact H0 | exact H1]. }
  set (d := Num.double (inject_Z k / inject_Z total)) in *.
  assert (Hp0 : (0 <= d * 100)%Q) by lra.
  assert (Hp1 : (d * 100 <= 100)%Q) by lra.
  apply Math_round_bounds.
  - apply double_nonneg, Hp0.
  - apply double_upper; [few_bits 100 0 | exact Hp0 | exact Hp1].
Qed.

Lemma percentage_full (total : Z) : 1 <= total -> percent total total = 100.
Proof.
  intros Htotal.
  destruct (percentage_bounds total total Htotal) as [_ Hhi]; [lia |].
  assert (Hpos : (0 < inject_Z total)%Q)
    by (change 0%Q with (inject_Z 0); rewrite <- Zlt_Qlt; lia).
  assert (Hone : (1 <= inject_Z total / inject_Z total)%Q).
  { apply Qle_shift_div_l; [exact Hpos |]. rewrite Qmult_1_l. apply Qle_refl. }
  assert (Hd : (1 <= Num.double (inject_Z total / inject_Z total))%Q).
  { apply double_lower; [few_bits 1 0 | exact Hone]. }
  assert (Hlo : 100 <= percent total total).
  { apply Math_round_lower.
    set (d := Num.double (inject_Z total / inject_Z total)) in *.
    assert (H : (100 <= Num.double (d * 100))%Q).
    { apply double_lower; [few_bits 100 0 | lra]. }
    change (inject_Z 100) with 100%Q. lra. }
  lia.
Qed.

(** Two percent beyond the total show as 102 percent or more. *)
Lemma percentage_beyond (k total : Z) :
  1 <= total -> 51 * total <= 50 * k -> 102 <= percent k total.
Proof.
  intros Htotal Hk.
  assert (Hpos : (0 < inject_Z total)%Q)
    by (change 0%Q with (inject_Z 0); rewrite <- Zlt_Qlt; lia).
  assert (Hratio : (65 # 64 <= inject_Z k / inject_Z total)%Q).
  { apply Qle_shift_div_l; [exact Hpos |].
    assert (H : (inject_Z (51 * total) <= inject_Z (50 * k))%Q)
      by (rewrite <- Zle_Qle; exact Hk).
    rewrite !inject_Z_mult in H.
    change (inject_Z 51) with 51%Q in H. change (inject_Z 50) with 50%Q in H.
    lra. }
  assert (Hd : (65 # 64 <= Num.double (inject_Z k / inject_Z total))%Q).
  { apply double_lower; [few_bits 65 (-6) | exact Hratio]. }
  set (d := Num.double (inject_Z k / inject_Z total)) in *.
  apply Math_round_lower.
  assert (H : (1625 # 16 <= Num.double (d * 100))%Q).
  { apply double_lower; [few_bits 1625 (-4) | lra]. }
  change (inject_Z 102) with 102%Q. lra.
Qed.

(** [Math.round((percentage / 100) * barLength)] *)
Local Abbreviation filled percentage :=
  (Num.Math_round
     (Num.double (Num.double (inject_Z percentage / 100) * inject_Z 30))%Q).

Lemma bar_within (percentage : Z) :
  0 <= percentage <= 101 -> 0 <= filled percentage <= 30.
Proof.
  intros [H0 H1].
  assert (H0' : (0 <= inject_Z percentage)%Q)
    by (change 0%Q with (inject_Z 0); rewrite <- Zle_Qle; exact H0).
  assert (H1' : (inject_Z percentage <= 101)%Q)
    by (change 101%Q with (inject_Z 101); rewrite <- Zle_Qle; exact H1).
  assert (Hr0 : (0 <= inject_Z percentage / 100)%Q)
    by (apply Qle_shift_div_l; [reflexivity | lra]).
  assert (Hr1 : (inject_Z percentage / 100 <= 65 # 64)%Q)
    by (apply Qle_shift_div_r; [reflexivity | lra]).
  pose proof (double_nonneg _ Hr0) as Hd0.
  assert (Hd1 : (Num.double (inject_Z percentage / 100) <= 65 # 64)%Q).
  { apply double_upper; [few_bits 65 (-6) | exact Hr0 | exact Hr1]. }
  set (d := Num.double (inject_Z percentage / 100)) in *.
  change (inject_Z 30) with 30%Q.
  assert (Hb0 : (0 <= d * 30)%Q) by lra.
  assert (Hb1 : (d * 30 <= 975 # 32)%Q) by lra.
  pose proof (double_nonneg _ Hb0) as Hf0.
  assert (Hf1 : (Num.double (d * 30) <= 975 # 32)%Q).
  { apply double_upper; [few_bits 975 (-5) | exact Hb0 | exact Hb1]. }
  split.
  - apply Math_round_lower. change (inject_Z 0) with 0%Q. lra.
  - apply Math_round_upper. change (inject_Z 30) with 30%Q. lra.
Qed.

Lemma bar_beyond (percentage : Z) :
  102 <= percentage -> 31 <= filled percentage.
Proof.
  intros H.
  assert (H' : (102 <= inject_Z percentage)%Q)
    by (change 102%Q with (inject_Z 102); rewrite <- Zle_Qle; exact H).
  assert (Hr : (261 # 256 <= inject_Z percentage / 100)%Q)
    by (apply Qle_shift_div_l; [reflexivity | lra]).
  assert (Hd : (261 # 256 <= Num.double (inject_Z percentage / 100))%Q).
  { apply double_lower; [few_bits 261 (-8) | exact Hr]. }
  set (d := Num.double (inject_Z percentage / 100)) in *.
  change (inject_Z 30) with 30%Q.
  assert (Hf : (3915 # 128 <= Num.double (d * 30))%Q).
  { apply double_lower; [few_bits 3915 (-7) | lra]. }
  apply Math_round_lower. change (inject_Z 31) with 31%Q. lra.
Qed.

(** The bar is drawn for up to 101 percent, and cannot be drawn from 102
    percent on. *)
Lemma displayConsoleProgress_draws P config progress :
  0 <= p_percentage progress <= 101 ->
  is_ok (displayConsoleProgress P config progress) = true.
Proof.
  intros Hp. pose proof (bar_within _ Hp) as Hfilled.
  unfold displayConsoleProgress. cbv zeta. unfold Str.repeat.
  destruct (Z.ltb_spec (filled (p_percentage progress)) 0); [lia |].
  cbn [bind].
  destruct (Z.ltb_spec (30 - filled (p_percentage progress)) 0); [lia |].
  reflexivity.
Qed.

Lemma displayConsoleProgress_overflows P config progress :
  102 <= p_percentage progress ->
  exists count,
    count < 0
    /\ displayConsoleProgress P config progress
       = Throw ("Invalid count value: " +:+ Num.toString count).
Proof.
  intros Hp. pose proof (bar_beyond _ Hp) as Hfilled.
  unfold displayConsoleProgress. cbv zeta. unfold Str.repeat.
  destruct (Z.ltb_spec (filled (p_percentage progress)) 0); [lia |].
  cbn [bind].
  destruct (Z.ltb_spec (30 - filled (p_percentage progress)) 0); [| lia].
  eexists. split; [| reflexivity]. assumption.
Qed.

(** Whatever drawing the bar throws is the [RangeError] of [repeat]. *)
Lemma displayConsoleProgress_throws P config progress e :
  displayConsoleProgress P config progress = Throw e ->
  BatchProcessor.overflow e.
Proof.
  unfold displayConsoleProgress. cbv zeta. unfold Str.repeat.
  destruct (Z.ltb_spec (filled (p_percentage progress)) 0) as [Hneg | _].
  - cbn [bind]. intros H. inversion H. eexists. split; [exact Hneg | reflexivity].
  - cbn [bind].
    destruct (Z.ltb_spec (30 - filled (p_percentage progress)) 0) as [Hneg | _].
    + cbn [bind]. intros H. inversion H.
      eexists. split; [exact Hneg | reflexivity].
    + cbn [bind]. discriminate.
Qed.

(** *** One update *)

(** The counters after an update, whether the bar could be drawn or
    not. *)
Lemma updateProgress_state P self r filename currentTime :
  isActive self = true ->
  let self' := (updateProgress P self r filename currentTime).2 in
  isActive self' = true
  /\ processedFiles self' = processedFiles self + 1
  /\ totalFiles self' = totalFiles self
  /\ startTime self' = startTime self
  /\ results self' = (results self ++ [r])%list.
Proof.
  intros Hactive. unfold updateProgress. rewrite Hactive. cbn [negb].
  cbv zeta.
  cbn [isActive processedFiles totalFiles startTime results config
       lastUpdateTime].
  repeat match goal with
         | |- context [if ?b then _ else _] => destruct b
         end; cbn; auto.
Qed.

Lemma updateProgress_config P self r filename currentTime :
  config (updateProgress P self r filename currentTime).2 = config self.
Proof.
  unfold updateProgress. cbv zeta.
  cbn [isActive processedFiles totalFiles startTime results config
       lastUpdateTime].
  repeat match goal with
         | |- context [if ?b then _ else _] => destruct b
         end; reflexivity.
Qed.

Lemma updateProgress_throws P self r filename currentTime e :
  (updateProgress P self r filename currentTime).1 = Throw e ->
  BatchProcessor.overflow e.
Proof.
  unfold updateProgress. cbv zeta.
  cbn [isActive processedFiles totalFiles startTime results config
       lastUpdateTime].
  destruct (negb (isActive self)); [discriminate |].
  destruct (_ || _); [| discriminate].
  destruct (enableConsoleOutput (config self)); [| discriminate].
  cbn [fst]. apply displayConsoleProgress_throws.
Qed.

(** Within the total the update returns. *)
Lemma updateProgress_returns P self r filename currentTime :
  1 <= totalFiles self -> 0 <= processedFiles self < totalFiles self ->
  is_ok (updateProgress P self r filename currentTime).1 = true.
Proof.
  intros Htotal Hprocessed. unfold updateProgress. cbv zeta.
  cbn [isActive processedFiles totalFiles startTime results config
       lastUpdateTime].
  destruct (negb (isActive self)); [reflexivity |].
  destruct (_ || _); [| reflexivity].
  destruct (enableConsoleOutput (config self)); [| reflexivity].
  cbn [fst]. apply displayConsoleProgress_draws.
  unfold generateDetailedProgress. cbn [p_percentage processedFiles totalFiles].
  destruct (percentage_bounds (processedFiles self + 1) (totalFiles self))
    as [H0 H1]; lia.
Qed.

(** A reporter without console output draws nothing. *)
Lemma updateProgress_quiet P self r filename currentTime :
  enableConsoleOutput (config self) = false ->
  (updateProgress P self r filename currentTime).1 = Ok [].
Proof.
  intros Hquiet. unfold updateProgress. cbv zeta.
  cbn [isActive processedFiles totalFiles startTime results config
       lastUpdateTime].
  rewrite Hquiet.
  repeat match goal with
         | |- context [if ?b then _ else _] => destruct b
         end; reflexivity.
Qed.

End Display.

(** ** The pool of tasks *)

Section Pool.
Import BatchProcessor Invariant.

Variables (P : Platform) (self : t) (imageFiles : list string)
          (outputDirectory : string).

Local Abbreviation continueOnError :=
  (ConfigManager.shouldContinueOnError (configManager self)).

(** What [onResult] answers for item [index] in state [s]. *)
Local Abbreviation told index s r := (onResult P imageFiles r index s).1.

Lemma processImage_returns imagePath fs :
  exists r fs', processImage P self imagePath outputDirectory fs = (Ok r, fs').
Proof.
  unfold processImage, mtry.
  match goal with |- context [match ?b fs with _ => _ end] =>
    destruct (b fs) as [[r | message] fs'] end; unfold ret; eauto.
Qed.

Lemma or_default_idempotent (m : option string) (d : string) :
  d <> "" ->
  Str.or_default (Some (Str.or_default m d)) d = Str.or_default m d.
Proof.
  intros Hd. destruct m as [[| a s] |]; cbn; try reflexivity;
    destruct d; congruence.
Qed.

Lemma onResult_eq r index s :
  onResult P imageFiles r index s
  = (told index s r, noted P imageFiles index s r).
Proof. unfold noted. destruct (onResult P imageFiles r index s). reflexivity. Qed.

Lemma noted_reporter r index s :
  run_reporter (noted P imageFiles index s r)
  = (ProgressReporter.updateProgress P (run_reporter s) r
       (path_basename P (nth index imageFiles ""))
       (Date_now P (run_processedFiles s + 1))).2.
Proof.
  unfold noted, onResult.
  destruct (ProgressReporter.updateProgress _ _ _ _ _). reflexivity.
Qed.

Lemma told_reporter r index s :
  told index s r
  = match (ProgressReporter.updateProgress P (run_reporter s) r
             (path_basename P (nth index imageFiles ""))
             (Date_now P (run_processedFiles s + 1))).1 with
    | Ok _ => Ok tt
    | Throw error => Throw error
    end.
Proof.
  unfold onResult.
  destruct (ProgressReporter.updateProgress _ _ _ _ _). reflexivity.
Qed.

Lemma told_cases r index s :
  told index s r = Ok tt
  \/ exists e, told index s r = Throw e /\ overflow e.
Proof.
  rewrite told_reporter.
  destruct (ProgressReporter.updateProgress _ _ _ _ _).1 as [drawn | e] eqn:Hdrawn.
  - left. reflexivity.
  - right. exists e. split; [reflexivity |].
    eapply updateProgress_throws, Hdrawn.
Qed.

Lemma told_within r index s :
  1 <= ProgressReporter.totalFiles (run_reporter s) ->
  0 <= ProgressReporter.processedFiles (run_reporter s)
    < ProgressReporter.totalFiles (run_reporter s) ->
  told index s r = Ok tt.
Proof.
  intros Htotal Hprocessed. rewrite told_reporter.
  pose proof (updateProgress_returns P (run_reporter s) r
                (path_basename P (nth index imageFiles ""))
                (Date_now P (run_processedFiles s + 1)) Htotal Hprocessed) as H.
  destruct (ProgressReporter.updateProgress _ _ _ _ _).1; [reflexivity | discriminate].
Qed.

Lemma told_quiet r index s :
  ProgressReporter.enableConsoleOutput
    (ProgressReporter.config (run_reporter s)) = false ->
  told index s r = Ok tt.
Proof.
  intros Hquiet. rewrite told_reporter, updateProgress_quiet by exact Hquiet.
  reflexivity.
Qed.

Lemma noted_config r index s :
  ProgressReporter.config (run_reporter (noted P imageFiles index s r))
  = ProgressReporter.config (run_reporter s).
Proof. rewrite noted_reporter. apply updateProgress_config. Qed.

(** [onError] changes nothing; what it throws relays the error. *)
Lemma onError_cases processError imagePath s :
  exists outcome,
    onError P self processError imagePath s = (outcome, s)
    /\ (outcome = Ok tt \/ exists e, outcome = Throw e /\ relays P e processError).
Proof.
  unfold onError, mbind, reads, ret.
  destruct (ProgressReporter.reportError _ _ _ _) as [[] | e0] eqn:Hreport.
  - destruct (EventEmitter.emit_error _ _) as [[] | e1] eqn:Hemit.
    + eexists. split; [reflexivity | left; reflexivity].
    + unfold EventEmitter.emit_error in Hemit.
      destruct (EventEmitter.errorListener _); inversion Hemit; subst e1.
      eexists. split; [reflexivity |]. right. eexists. split; [reflexivity |].
      left. reflexivity.
  - unfold ProgressReporter.reportError, EventEmitter.emit_error in Hreport.
    destruct (negb _); [discriminate |].
    destruct (EventEmitter.errorListener _); inversion Hreport; subst e0.
    eexists. split; [reflexivity |]. right. eexists. split; [reflexivity |].
    right. do 2 eexists. reflexivity.
Qed.

(** The [catch] block of a task, entered with [processError]. *)
Lemma handler_cases imagePath index processError s tr :
  let failedResult := blank_result imagePath failed processError in
  exists outcome,
    (run _logged := log (Recorded index failedResult) in
     run _called := call (onResult P imageFiles failedResult index) in
     run _reported := call (onError P self processError imagePath) in
     if negb continueOnError then throw processError else ret tt) (s, tr)
    = (outcome,
       (noted P imageFiles index s failedResult,
        push tr (Recorded index failedResult)))
    /\ ((exists e,
            outcome = Throw e
            /\ ((told index s failedResult = Ok tt /\ relays P e processError)
                \/ (told index s failedResult = Throw e /\ overflow e)))
        \/ (outcome = Ok tt /\ continueOnError = true
            /\ told index s failedResult = Ok tt)).
Proof.
  intros failedResult.
  unfold mbind, log, call, modify, throw, ret. cbn [fst snd].
  rewrite (onResult_eq failedResult index s).
  destruct (told_cases failedResult index s) as [Hok | (e & Hthrow & Hover)].
  - rewrite Hok. cbv beta iota. cbn [fst snd].
    destruct (onError_cases processError imagePath
                (noted P imageFiles index s failedResult))
      as (outcome & -> & Houtcome).
    destruct Houtcome as [-> | (e & -> & Hrelays)].
    + destruct continueOnError eqn:Hpolicy; cbn [negb].
      * eexists. split; [reflexivity |]. right. auto.
      * eexists. split; [reflexivity |]. left. eexists. split; [reflexivity |].
        left. split; [reflexivity | left; reflexivity].
    + eexists. split; [reflexivity |]. left. eexists. split; [reflexivity |].
      left. auto.
  - rewrite Hthrow. cbv beta iota. eexists. split; [reflexivity |].
    left. eexists. split; [reflexivity |]. right. auto.
Qed.

(** The part of a task after its [processImage] call. *)
Lemma continuation_cases imagePath index r s tr :
  exists outcome recs,
    continuation P self imageFiles imagePath index (Ok r) (s, tr)
    = (outcome,
       (fold_left (noted P imageFiles index) (recorded_results recs) s,
        (tr ++ recs)%list))
    /\ ((outcome = Ok tt /\ recs = [Recorded index r]
         /\ told index s r = Ok tt
         /\ (continueOnError = true \/ status r <> failed))
        \/ (exists processError,
               recs = [Recorded index r;
                       Recorded index (blank_result imagePath failed processError)]
               /\ ((told index s r = Ok tt /\ continueOnError = false
                    /\ status r = failed
                    /\ processError
                       = Str.or_default (errorMessage r) "Image processing failed")
                   \/ (told index s r = Throw processError
                       /\ overflow processError))
               /\ ((exists e,
                       outcome = Throw e
                       /\ ((told index (noted P imageFiles index s r)
                              (blank_result imagePath failed processError)
                            = Ok tt
                            /\ relays P e processError)
                           \/ (told index (noted P imageFiles index s r)
                                 (blank_result imagePath failed processError)
                               = Throw e
                               /\ overflow e)))
                   \/ (outcome = Ok tt /\ continueOnError = true)))).
Proof.
  unfold continuation.
  match goal with
  | |- context [mtry ?b ?h] => set (body := b); set (handler := h)
  end.
  assert (Hhandler : forall processError,
             exists outcome,
               handler processError
                 (noted P imageFiles index s r, push tr (Recorded index r))
               = (outcome,
                  (fold_left (noted P imageFiles index)
                     (recorded_results
                        [Recorded index r;
                         Recorded index (blank_result imagePath failed processError)])
                     s,
                   (tr ++ [Recorded index r;
                           Recorded index
                             (blank_result imagePath failed processError)])%list))
               /\ ((exists e,
                       outcome = Throw e
                       /\ ((told index (noted P imageFiles index s r)
                              (blank_result imagePath failed processError)
                            = Ok tt
                            /\ relays P e processError)
                           \/ (told index (noted P imageFiles index s r)
                                 (blank_result imagePath failed processError)
                               = Throw e
                               /\ overflow e)))
                   \/ (outcome = Ok tt /\ continueOnError = true))).
  { intros processError.
    destruct (handler_cases imagePath index processError
                (noted P imageFiles index s r) (push tr (Recorded index r)))
      as (outcome & Heq & Hcases).
    exists outcome. split.
    - subst handler. cbv beta zeta. rewrite Heq. unfold push.
      rewrite <- app_assoc. reflexivity.
    - destruct Hcases as [(e & -> & Hcases) | (-> & H1 & _)].
      + left. exists e. auto.
      + right. auto. }
  assert (Hbody :
            body (s, tr)
            = match told index s r with
              | Ok _ =>
                  if Status_eqb (status r) failed && negb continueOnError
                  then (Throw (Str.or_default (errorMessage r)
                                 "Image processing failed"),
                        (noted P imageFiles index s r,
                         push tr (Recorded index r)))
                  else (Ok tt,
                        (noted P imageFiles index s r,
                         push tr (Recorded index r)))
              | Throw e =>
                  (Throw e,
                   (noted P imageFiles index s r, push tr (Recorded index r)))
              end).
  { subst body. unfold mbind, reads, log, call, modify, throw, ret.
    cbn [fst snd]. rewrite (onResult_eq r index s).
    destruct (told index s r) as [[] | e]; [| reflexivity].
    destruct (Status_eqb (status r) failed && negb continueOnError);
      reflexivity. }
  unfold mtry. rewrite Hbody. clearbody body handler.
  destruct (told_cases r index s) as [Hok | (e & Hthrow & Hover)].
  - rewrite Hok.
    destruct (Status_eqb (status r) failed && negb continueOnError) eqn:Hcond.
    + apply andb_true_iff in Hcond. destruct Hcond as [Hfailed Hstop].
      apply negb_true_iff in Hstop.
      assert (Hstatus : status r = failed)
        by (destruct (status r); try discriminate; reflexivity).
      destruct (Hhandler (Str.or_default (errorMessage r) "Image processing failed"))
        as (outcome & -> & Hcases).
      eexists _, _. split; [reflexivity |]. right.
      eexists. split; [reflexivity |]. split; [left; auto | exact Hcases].
    + exists (Ok tt), [Recorded index r]. split; [reflexivity |]. left.
      repeat split; auto.
      apply andb_false_iff in Hcond. destruct Hcond as [Hcond | Hcond].
      * right. intros Hfailed. rewrite Hfailed in Hcond. discriminate.
      * left. apply negb_false_iff in Hcond. exact Hcond.
  - rewrite Hthrow.
    destruct (Hhandler e) as (outcome & -> & Hcases).
    eexists _, _. split; [reflexivity |]. right.
    eexists. split; [reflexivity |]. split; [right; auto | exact Hcases].
Qed.

(** What finishing a task does to the pool. *)
Lemma finish_cases index pool :
  let woken := (Semaphore.release (semaphore pool)).1 in
  let others :=
    List.filter (fun i => negb (Nat.eqb i index)) (running pool) in
  let imagePath := nth index imageFiles "" in
  let s := pool_run pool in
  exists r fs' outcome recs,
    finish P self imageFiles outputDirectory index pool
    = {| pool_fs := fs';
         pool_run :=
           fold_left (noted P imageFiles index) (recorded_results recs) s;
         semaphore := (Semaphore.release (semaphore pool)).2;
         running := match woken with Some j => push others j | None => others end;
         settled := <[index := outcome]> (settled pool);
         trace :=
           (trace pool ++ recs ++ [Settled index outcome]
            ++ match woken with Some j => [Started j] | None => [] end)%list |}
    /\ (recs = [Recorded index r]
        \/ exists r', recs = [Recorded index r; Recorded index r'])
    /\ ((outcome = Ok tt /\ recs = [Recorded index r]
         /\ told index s r = Ok tt
         /\ (continueOnError = true \/ status r <> failed))
        \/ (exists processError,
               recs = [Recorded index r;
                       Recorded index (blank_result imagePath failed processError)]
               /\ ((told index s r = Ok tt /\ continueOnError = false
                    /\ status r = failed
                    /\ processError
                       = Str.or_default (errorMessage r) "Image processing failed")
                   \/ (told index s r = Throw processError
                       /\ overflow processError))
               /\ ((exists e,
                       outcome = Throw e
                       /\ ((told index (noted P imageFiles index s r)
                              (blank_result imagePath failed processError)
                            = Ok tt
                            /\ relays P e processError)
                           \/ (told index (noted P imageFiles index s r)
                                 (blank_result imagePath failed processError)
                               = Throw e
                               /\ overflow e)))
                   \/ (outcome = Ok tt /\ continueOnError = true)))).
Proof.
  intros woken others. cbv zeta. unfold finish.
  destruct (processImage_returns (nth index imageFiles "") (pool_fs pool))
    as (r & fs' & ->).
  fold others.
  destruct (Semaphore.release (semaphore pool)) as [woken' semaphore'] eqn:Hrelease.
  subst woken. cbn [fst snd].
  destruct (continuation_cases (nth index imageFiles "") index r (pool_run pool)
              (trace pool))
    as (outcome & recs & -> & Hcases).
  exists r, fs', outcome, recs. split; [| split; [| exact Hcases]].
  - unfold push. destruct woken'; cbn [app]; rewrite <- ?app_assoc; reflexivity.
  - destruct Hcases as [(_ & -> & _) | (processError & -> & _)]; eauto.
Qed.

Lemma others_spec (l : list nat) (index : nat) :
  NoDup l -> index ∈ l ->
  let others := List.filter (fun i => negb (Nat.eqb i index)) l in
  NoDup others
  /\ (forall i, i ∈ others <-> i ∈ l /\ i <> index)
  /\ length l = S (length others).
Proof.
  intros Hnodup Hin others. split; [| split].
  - apply NoDup_ListNoDup, List.NoDup_filter, NoDup_ListNoDup, Hnodup.
  - intros i. unfold others. rewrite !list_elem_of_In, filter_In.
    rewrite negb_true_iff, Nat.eqb_neq. reflexivity.
  - subst others. induction Hnodup as [| x l Hx Hnodup IH].
    + inversion Hin.
    + cbn [List.filter]. destruct (Nat.eqb_spec x index) as [-> | Hne]; cbn [negb].
      * f_equal. clear IH Hin. induction l as [| y l IH]; [reflexivity |].
        cbn [List.filter]. destruct (Nat.eqb_spec y index) as [-> | Hy].
        -- exfalso. apply Hx. left.
        -- cbn [negb length]. f_equal. apply IH.
           ++ intros H. apply Hx. right. exact H.
           ++ inversion Hnodup; assumption.
      * cbn [length]. f_equal. apply IH.
        inversion Hin; subst; [congruence | assumption].
Qed.

Lemma length_push (l : list nat) (x : nat) :
  (inject_Z (Z.of_nat (length (push l x)))
   == inject_Z (Z.of_nat (length l)) + 1)%Q.
Proof.
  unfold push. rewrite length_app. cbn [length].
  rewrite Nat2Z.inj_add, inject_Z_plus. reflexivity.
Qed.

Lemma gt_spec (x y : Q) :
  (Num.gt x y = true /\ (y < x)%Q) \/ (Num.gt x y = false /\ (x <= y)%Q).
Proof.
  unfold Num.gt. destruct (Qle_bool x y) eqn:Hle.
  - right. split; [reflexivity |]. apply Qle_bool_iff, Hle.
  - left. split; [reflexivity |]. apply Qnot_le_lt. intros H.
    apply Qle_bool_iff in H. congruence.
Qed.

Lemma accounted_spawn k c pool :
  accounted k c pool -> accounted (S k) c (spawn pool k).
Proof.
  intros (Hpermits & Hnonneg & Hqueue & Hnodup & Hcover & Hpending).
  assert (Hfresh : k ∉ (running pool ++ Semaphore.waitQueue (semaphore pool))%list).
  { intros Hin. assert (k < k)%nat by (apply Hcover; auto). lia. }
  assert (Hunsettled : settled pool !! k = None).
  { destruct (settled pool !! k) eqn:Hk; [| reflexivity].
    assert (k < k)%nat by (apply Hcover; right; eauto). lia. }
  unfold spawn, Semaphore.acquire, accounted.
  destruct (gt_spec (Semaphore.permits (semaphore pool)) 0)
    as [[-> Hfree] | [-> Hfree]];
    cbn [semaphore running settled Semaphore.permits Semaphore.waitQueue].
  - assert (Hempty : Semaphore.waitQueue (semaphore pool) = []).
    { destruct (Semaphore.waitQueue (semaphore pool)); [reflexivity |].
      assert ((Semaphore.permits (semaphore pool) <= 0)%Q)
        by (apply Hqueue; discriminate).
      lra. }
    rewrite Hempty in *. rewrite !app_nil_r in *.
    split; [rewrite length_push; lra |].
    split; [lra |]. split; [congruence |]. unfold push.
    repeat split.
    + apply NoDup_app. split; [exact Hnodup |]. split; [| apply NoDup_singleton].
      intros x Hx. rewrite list_elem_of_singleton. intros ->. auto.
    + intros [Hin | Hsome].
      * apply elem_of_app in Hin. destruct Hin as [Hin | Hin].
        -- assert (i < k)%nat by (apply Hcover; auto). lia.
        -- apply list_elem_of_singleton in Hin. lia.
      * assert (i < k)%nat by (apply Hcover; auto). lia.
    + intros Hlt. destruct (decide (i = k)) as [-> | Hne].
      * left. apply elem_of_app. right. apply list_elem_of_singleton. reflexivity.
      * assert (Hi : (i < k)%nat) by lia. apply Hcover in Hi.
        destruct Hi as [Hin | Hsome]; [left; apply elem_of_app; auto | right; exact Hsome].
    + intros i Hin. apply elem_of_app in Hin. destruct Hin as [Hin | Hin].
      * apply Hpending. exact Hin.
      * apply list_elem_of_singleton in Hin. subst. exact Hunsettled.
  - unfold push. rewrite app_assoc.
    split; [exact Hpermits |]. split; [exact Hnonneg |].
    split; [intros _; exact Hfree |].
    repeat split.
    + apply NoDup_app. split; [exact Hnodup |]. split; [| apply NoDup_singleton].
      intros x Hx. rewrite list_elem_of_singleton. intros ->. auto.
    + intros [Hin | Hsome].
      * apply elem_of_app in Hin. destruct Hin as [Hin | Hin].
        -- assert (i < k)%nat by (apply Hcover; auto). lia.
        -- apply list_elem_of_singleton in Hin. lia.
      * assert (i < k)%nat by (apply Hcover; auto). lia.
    + intros Hlt. destruct (decide (i = k)) as [-> | Hne].
      * left. apply elem_of_app. right. apply list_elem_of_singleton. reflexivity.
      * assert (Hi : (i < k)%nat) by lia. apply Hcover in Hi.
        destruct Hi as [Hin | Hsome]; [left; apply elem_of_app; auto | right; exact Hsome].
    + intros i Hin. apply elem_of_app in Hin. destruct Hin as [Hin | Hin].
      * apply Hpending. exact Hin.
      * apply list_elem_of_singleton in Hin. subst. exact Hunsettled.
Qed.

Lemma accounted_finish k c pool index :
  accounted k c pool -> index ∈ running pool ->
  accounted k c (finish P self imageFiles outputDirectory index pool)
  /\ S (pending (finish P self imageFiles outputDirectory index pool))
     = pending pool.
Proof.
  intros (Hpermits & Hnonneg & Hqueue & Hnodup & Hcover & Hpending) Hin.
  destruct (finish_cases index pool)
    as (r & fs' & outcome & recs & -> & _).
  apply NoDup_app in Hnodup. destruct Hnodup as (Hrunning & Hdisjoint & Hwaiting).
  destruct (others_spec (running pool) index Hrunning Hin)
    as (Hothers & Hmember & Hlength).
  set (others := List.filter (fun i => negb (Nat.eqb i index)) (running pool)) in *.
  assert (Hcount : (inject_Z (Z.of_nat (length (running pool)))
                    == inject_Z (Z.of_nat (length others)) + 1)%Q).
  { rewrite Hlength, Nat2Z.inj_succ. unfold Z.succ.
    rewrite inject_Z_plus. reflexivity. }
  unfold accounted, pending, Semaphore.release.
  destruct (Semaphore.waitQueue (semaphore pool)) as [| next rest] eqn:Hwait;
    cbn [fst snd semaphore running settled Semaphore.permits Semaphore.waitQueue].
  - rewrite !app_nil_r in *. split; [| lia].
    split; [lra |]. split; [lra |]. split; [congruence |].
    repeat split.
    + exact Hothers.
    + intros [Hi | Hi].
      * apply Hmember in Hi. apply Hcover. left. tauto.
      * destruct (decide (i = index)) as [-> | Hne].
        -- apply Hcover. left. exact Hin.
        -- rewrite lookup_insert_ne in Hi by congruence. apply Hcover. auto.
    + intros Hlt. apply Hcover in Hlt.
      destruct (decide (i = index)) as [-> | Hne].
      * right. rewrite lookup_insert_eq. eauto.
      * destruct Hlt as [Hi | Hi].
        -- left. apply Hmember. auto.
        -- right. rewrite lookup_insert_ne by congruence. exact Hi.
    + intros i Hi. apply Hmember in Hi. destruct Hi as [Hi Hne].
      rewrite lookup_insert_ne by congruence. apply Hpending. exact Hi.
  - assert (Hzero : (Semaphore.permits (semaphore pool) <= 0)%Q)
      by (apply Hqueue; discriminate).
    assert (Hnext : next ∉ running pool).
    { intros Hn. apply (Hdisjoint next Hn). left. }
    assert (Hindex : index ∉ next :: rest)
      by (intros Hi; apply (Hdisjoint index Hin Hi)).
    apply NoDup_cons in Hwaiting. destruct Hwaiting as [Hnotin Hrest].
    split.
    + split; [rewrite length_push; lra |]. split; [lra |].
      split; [intros _; lra |]. unfold push.
      repeat split.
      * rewrite <- app_assoc. apply NoDup_app. split; [exact Hothers |].
        split; [| apply NoDup_cons; split; assumption].
        intros x Hx Hx'. apply Hmember in Hx. destruct Hx as [Hx _].
        apply (Hdisjoint x Hx Hx').
      * intros [Hi | Hi].
        -- apply Hcover. left. rewrite <- app_assoc in Hi.
           apply elem_of_app in Hi. apply elem_of_app.
           destruct Hi as [Hi | Hi]; [left; apply Hmember in Hi; tauto | right; exact Hi].
        -- destruct (decide (i = index)) as [-> | Hne].
           ++ apply Hcover. left. apply elem_of_app. left. exact Hin.
           ++ rewrite lookup_insert_ne in Hi by congruence. apply Hcover. auto.
      * intros Hlt. apply Hcover in Hlt.
        destruct (decide (i = index)) as [-> | Hne].
        -- right. rewrite lookup_insert_eq. eauto.
        -- destruct Hlt as [Hi | Hi].
           ++ left. rewrite <- app_assoc. apply elem_of_app in Hi.
              apply elem_of_app.
              destruct Hi as [Hi | Hi]; [left; apply Hmember; auto | right; exact Hi].
           ++ right. rewrite lookup_insert_ne by congruence. exact Hi.
      * intros i Hi. rewrite <- app_assoc in Hi.
        assert (Hne : i <> index).
        { intros ->. apply elem_of_app in Hi. destruct Hi as [Hi | Hi].
          - apply Hmember in Hi. tauto.
          - apply Hindex. exact Hi. }
        rewrite lookup_insert_ne by congruence. apply Hpending.
        apply elem_of_app in Hi. apply elem_of_app.
        destruct Hi as [Hi | Hi]; [left; apply Hmember in Hi; tauto | right; exact Hi].
    + unfold push. rewrite !length_app. cbn [length]. lia.
Qed.

(** *** Traces *)

Lemma recorded_results_app (t1 t2 : list Event) :
  recorded_results (t1 ++ t2) = (recorded_results t1 ++ recorded_results t2)%list.
Proof. apply flat_map_app. Qed.

Lemma recorded_indices_app (t1 t2 : list Event) :
  recorded_indices (t1 ++ t2) = (recorded_indices t1 ++ recorded_indices t2)%list.
Proof. apply flat_map_app. Qed.

Lemma records_of_app (i : nat) (t1 t2 : list Event) :
  records_of i (t1 ++ t2) = (records_of i t1 ++ records_of i t2)%list.
Proof. apply flat_map_app. Qed.

Lemma recorded_indices_elem (tr : list Event) (i : nat) :
  i ∈ recorded_indices tr <-> exists r, Recorded i r ∈ tr.
Proof.
  unfold recorded_indices. rewrite list_elem_of_In, in_flat_map. split.
  - intros (e & He & Hi). destruct e; try (inversion Hi; fail).
    destruct Hi as [<- | []]. eexists. apply list_elem_of_In. exact He.
  - intros (r & Hr). exists (Recorded i r).
    split; [apply list_elem_of_In; exact Hr | left; reflexivity].
Qed.

Lemma records_of_elem (tr : list Event) (i : nat) (r : OptimizationResult) :
  r ∈ records_of i tr <-> Recorded i r ∈ tr.
Proof.
  unfold records_of. rewrite !list_elem_of_In, in_flat_map. split.
  - intros (e & He & Hr). destruct e as [| j r' |]; try (inversion Hr; fail).
    destruct (Nat.eqb_spec j i) as [-> | Hne]; [| inversion Hr].
    destruct Hr as [<- | []]. exact He.
  - intros Hr. exists (Recorded i r). split; [exact Hr |].
    rewrite Nat.eqb_refl. left. reflexivity.
Qed.

Lemma records_of_none (tr : list Event) (i : nat) :
  (forall r, Recorded i r ∉ tr) -> records_of i tr = [].
Proof.
  intros Hnone. destruct (records_of i tr) as [| r l] eqn:Hrecords; [reflexivity |].
  exfalso. apply (Hnone r), records_of_elem. rewrite Hrecords. left.
Qed.

Lemma recorded_lengths (tr : list Event) :
  length (recorded_results tr) = length (recorded_indices tr).
Proof.
  induction tr as [| [] tr IH]; cbn; auto.
Qed.

(** The state of the callbacks after the results [l] of an item. *)
Lemma noted_all (l : list OptimizationResult) index s :
  ProgressReporter.isActive (run_reporter s) = true ->
  let s' := fold_left (noted P imageFiles index) l s in
  ProgressReporter.isActive (run_reporter s') = true
  /\ ProgressReporter.results (run_reporter s')
     = (ProgressReporter.results (run_reporter s) ++ l)%list
  /\ ProgressReporter.processedFiles (run_reporter s')
     = ProgressReporter.processedFiles (run_reporter s) + Z.of_nat (length l)
  /\ ProgressReporter.totalFiles (run_reporter s')
     = ProgressReporter.totalFiles (run_reporter s).
Proof.
  revert s. induction l as [| r l IH]; intros s Hactive.
  - cbn. rewrite app_nil_r. repeat split; auto; lia.
  - cbn [fold_left length].
    pose proof (updateProgress_state P (run_reporter s) r
                  (path_basename P (nth index imageFiles ""))
                  (Date_now P (run_processedFiles s + 1)) Hactive) as Hstep.
    cbv zeta in Hstep. rewrite <- noted_reporter in Hstep.
    destruct Hstep as (Ha & Hp & Ht & _ & Hr).
    destruct (IH _ Ha) as (Ha' & Hr' & Hp' & Ht').
    cbv zeta. rewrite Hr', Hp', Ht', Hr, Hp, Ht, <- app_assoc.
    repeat split; auto; lia.
Qed.

Lemma noted_all_config (l : list OptimizationResult) index s :
  ProgressReporter.config
    (run_reporter (fold_left (noted P imageFiles index) l s))
  = ProgressReporter.config (run_reporter s).
Proof.
  revert s. induction l as [| r l IH]; intros s; [reflexivity |].
  cbn [fold_left]. rewrite IH. apply noted_config.
Qed.

Lemma traced_spawn k pool :
  traced pool -> traced (spawn pool k).
Proof.
  intros (Hrunning & Hsettled & Hrecorded & Hactive & Hresults).
  unfold spawn, traced, push.
  destruct (Semaphore.acquire (semaphore pool) k) as [[|] semaphore'];
    cbn [running settled trace pool_run].
  - split; [| split; [| split; [| split]]].
    + intros i Hi. apply elem_of_app. apply elem_of_app in Hi.
      destruct Hi as [Hi | Hi]; [left; auto |].
      apply list_elem_of_singleton in Hi. subst. right. left.
    + intros i outcome Hi. destruct (Hsettled i outcome Hi) as (H1 & H2 & H3).
      rewrite recorded_indices_app. repeat split; apply elem_of_app; auto.
    + intros i r Hi. apply elem_of_app in Hi. destruct Hi as [Hi | Hi]; [eauto |].
      apply list_elem_of_singleton in Hi. discriminate.
    + exact Hactive.
    + rewrite recorded_results_app. cbn. rewrite app_nil_r. exact Hresults.
  - repeat split; auto; eapply Hsettled; eauto.
Qed.

(** The records of one task are those of its item. *)
Lemma finish_recorded index (r : OptimizationResult) (recs : list Event) :
  (recs = [Recorded index r]
   \/ exists r', recs = [Recorded index r; Recorded index r']) ->
  Recorded index r ∈ recs
  /\ (forall i r'', Recorded i r'' ∈ recs -> i = index)
  /\ (forall i, i <> index -> records_of i recs = [])
  /\ records_of index recs = recorded_results recs
  /\ recorded_indices recs = List.repeat index (length recs)
  /\ Forall (fun e => exists i r, e = Recorded i r) recs.
Proof.
  intros [-> | [r' ->]].
  - split; [left |]. split.
    { intros i r'' Hi. apply list_elem_of_singleton in Hi. congruence. }
    split.
    { intros i Hi. cbn. destruct (Nat.eqb_spec index i); [congruence | reflexivity]. }
    split; [cbn; rewrite Nat.eqb_refl; reflexivity |].
    split; [reflexivity |]. repeat constructor; eauto.
  - split; [left |]. split.
    { intros i r'' Hi. apply elem_of_cons in Hi. destruct Hi as [Hi | Hi]; [congruence |].
      apply list_elem_of_singleton in Hi. congruence. }
    split.
    { intros i Hi. cbn. destruct (Nat.eqb_spec index i); [congruence | reflexivity]. }
    split; [cbn; rewrite Nat.eqb_refl; reflexivity |].
    split; [reflexivity |]. repeat constructor; eauto.
Qed.

Lemma woken_unrecorded (woken : option nat) :
  let started := match woken with Some j => [Started j] | None => [] end in
  recorded_results started = [] /\ recorded_indices started = []
  /\ (forall i, records_of i started = [])
  /\ forall i r, Recorded i r ∉ started.
Proof.
  destruct woken as [j |]; cbn; repeat split; auto; intros i r Hi.
  - apply list_elem_of_singleton in Hi. discriminate.
  - inversion Hi.
Qed.

Lemma traced_finish k c pool index :
  accounted k c pool -> traced pool -> index ∈ running pool ->
  traced (finish P self imageFiles outputDirectory index pool).
Proof.
  intros (_ & _ & _ & Hnodup & _ & Hpending)
         (Hrunning & Hsettled & Hrecorded & Hactive & Hresults) Hin.
  destruct (finish_cases index pool)
    as (r & fs' & outcome & recs & -> & Hshape & _).
  destruct (finish_recorded index r recs Hshape) as (Hr' & Honly & _).
  destruct (woken_unrecorded (Semaphore.release (semaphore pool)).1)
    as (Hwoken & _ & _ & Hwoken').
  cbv zeta in Hwoken, Hwoken'.
  apply NoDup_app in Hnodup. destruct Hnodup as (Hnd & Hdisjoint & _).
  destruct (others_spec (running pool) index Hnd Hin) as (_ & Hmember & _).
  destruct (noted_all (recorded_results recs) index (pool_run pool) Hactive)
    as (Hactive' & Hresults' & _).
  unfold traced. cbn [running settled trace pool_run].
  split; [| split; [| split; [| split]]].
  - intros i Hi.
    assert (Hi' : i ∈ running pool \/ (Semaphore.release (semaphore pool)).1 = Some i).
    { destruct (Semaphore.release (semaphore pool)).1 as [j |].
      - unfold push in Hi. apply elem_of_app in Hi. destruct Hi as [Hi | Hi].
        + left. apply Hmember in Hi. tauto.
        + apply list_elem_of_singleton in Hi. subst. auto.
      - left. apply Hmember in Hi. tauto. }
    destruct Hi' as [Hi' | Hi'].
    + apply elem_of_app. left. auto.
    + rewrite Hi'. rewrite !elem_of_app. right. right. right. left.
  - intros i o Hi. destruct (decide (i = index)) as [-> | Hne].
    + rewrite lookup_insert_eq in Hi. inversion Hi; subst o.
      split; [apply elem_of_app; left; auto |].
      split.
      * rewrite !elem_of_app. right. right. left. left.
      * apply recorded_indices_elem. exists r. rewrite !elem_of_app. auto.
    + rewrite lookup_insert_ne in Hi by congruence.
      destruct (Hsettled i o Hi) as (H1 & H2 & H3).
      rewrite recorded_indices_app. repeat split; apply elem_of_app; auto.
  - intros i r0 Hi. rewrite !elem_of_app in Hi.
    destruct Hi as [Hi | [Hi | [Hi | Hi]]].
    + destruct (decide (i = index)) as [-> | Hne].
      * rewrite lookup_insert_eq. eauto.
      * rewrite lookup_insert_ne by congruence. eauto.
    + apply Honly in Hi. subst. rewrite lookup_insert_eq. eauto.
    + apply list_elem_of_singleton in Hi. discriminate.
    + exfalso. exact (Hwoken' _ _ Hi).
  - exact Hactive'.
  - rewrite Hresults', Hresults, !recorded_results_app, Hwoken.
    cbn [recorded_results flat_map app]. rewrite app_nil_r. reflexivity.
Qed.

Lemma counted_spawn n k pool : counted n pool -> counted n (spawn pool k).
Proof.
  intros [Hprocessed Htotal]. unfold spawn, counted, push.
  destruct (Semaphore.acquire (semaphore pool) k) as [[|] semaphore'];
    cbn [trace pool_run]; [| auto].
  rewrite recorded_results_app. cbn. rewrite app_nil_r. auto.
Qed.

Lemma counted_finish n pool index :
  traced pool -> counted n pool ->
  counted n (finish P self imageFiles outputDirectory index pool).
Proof.
  intros (_ & _ & _ & Hactive & _) [Hprocessed Htotal].
  destruct (finish_cases index pool)
    as (r & fs' & outcome & recs & -> & _).
  destruct (woken_unrecorded (Semaphore.release (semaphore pool)).1)
    as (Hwoken & _).
  cbv zeta in Hwoken.
  destruct (noted_all (recorded_results recs) index (pool_run pool) Hactive)
    as (_ & _ & Hprocessed' & Htotal').
  unfold counted. cbn [trace pool_run].
  rewrite Hprocessed', Htotal', Hprocessed, Htotal, !recorded_results_app, Hwoken.
  cbn [recorded_results flat_map app]. rewrite app_nil_r, !length_app.
  split; [lia | reflexivity].
Qed.

Lemma finish_config pool index :
  ProgressReporter.config
    (run_reporter (pool_run (finish P self imageFiles outputDirectory index pool)))
  = ProgressReporter.config (run_reporter (pool_run pool)).
Proof.
  destruct (finish_cases index pool) as (r & fs' & outcome & recs & -> & _).
  cbn [pool_run]. apply noted_all_config.
Qed.

Lemma spawn_run pool k : pool_run (spawn pool k) = pool_run pool.
Proof.
  unfold spawn. destruct (Semaphore.acquire _ _) as [acquired semaphore'].
  reflexivity.
Qed.

Lemma lenient_spawn k pool : lenient pool -> lenient (spawn pool k).
Proof.
  intros [Hok Hnodup]. unfold spawn, lenient, push.
  destruct (Semaphore.acquire (semaphore pool) k) as [[|] semaphore'];
    cbn [settled trace]; split; auto.
  rewrite recorded_indices_app. cbn. rewrite app_nil_r. exact Hnodup.
Qed.

Lemma strict_spawn k pool :
  strict P imageFiles pool -> strict P imageFiles (spawn pool k).
Proof.
  intros Hstrict. unfold spawn, strict, push.
  destruct (Semaphore.acquire (semaphore pool) k) as [[|] semaphore'];
    cbn [settled trace pool_run]; [| exact Hstrict].
  intros i outcome Hi. rewrite records_of_app. cbn [records_of flat_map].
  rewrite app_nil_r. exact (Hstrict i outcome Hi).
Qed.

(** A task in flight has nothing recorded yet. *)
Lemma in_flight_unrecorded k c pool index :
  accounted k c pool -> traced pool -> index ∈ running pool ->
  forall r, Recorded index r ∉ trace pool.
Proof.
  intros (_ & _ & _ & _ & _ & Hpending) (_ & _ & Hrecorded & _) Hin r Hr.
  destruct (Hrecorded _ _ Hr) as [o Ho].
  rewrite Hpending in Ho; [discriminate |]. apply elem_of_app. auto.
Qed.

(** While a task is in flight, fewer results are recorded than there are
    items, as long as every item is recorded once. *)
Lemma recorded_below k c pool index :
  accounted k c pool -> traced pool -> lenient pool -> index ∈ running pool ->
  (length (recorded_results (trace pool)) < k)%nat.
Proof.
  intros Haccounted Htraced [_ Hnodup] Hin.
  pose proof (in_flight_unrecorded _ _ _ _ Haccounted Htraced Hin) as Hfresh.
  destruct Haccounted as (_ & _ & _ & _ & Hcover & _).
  destruct Htraced as (_ & _ & Hrecorded & _).
  rewrite recorded_lengths.
  assert (Hall : NoDup (index :: recorded_indices (trace pool))).
  { apply NoDup_cons. split; [| exact Hnodup].
    intros Hi. apply recorded_indices_elem in Hi. destruct Hi as [r Hr].
    exact (Hfresh r Hr). }
  assert (Hsub : index :: recorded_indices (trace pool) ⊆+ seq 0 k).
  { apply NoDup_submseteq; [exact Hall |]. intros i Hi.
    apply elem_of_seq. split; [lia |]. cbn. apply Hcover.
    apply elem_of_cons in Hi. destruct Hi as [-> | Hi].
    - left. apply elem_of_app. auto.
    - right. apply recorded_indices_elem in Hi. destruct Hi as [r Hr]. eauto. }
  apply submseteq_length in Hsub. rewrite length_seq in Hsub.
  cbn [length] in Hsub. lia.
Qed.

Lemma lenient_finish k c pool index :
  continueOnError = true -> (k <= length imageFiles)%nat ->
  accounted k c pool -> traced pool -> counted (length imageFiles) pool ->
  lenient pool -> index ∈ running pool ->
  lenient (finish P self imageFiles outputDirectory index pool).
Proof.
  intros Hcontinue Hk Haccounted Htraced [Hprocessed Htotal] Hlenient Hin.
  pose proof (in_flight_unrecorded _ _ _ _ Haccounted Htraced Hin) as Hfresh.
  pose proof (recorded_below _ _ _ _ Haccounted Htraced Hlenient Hin) as Hbelow.
  destruct Hlenient as [Hok Hnodup].
  destruct (finish_cases index pool)
    as (r & fs' & outcome & recs & -> & _ & Hcases).
  assert (Htold : told index (pool_run pool) r = Ok tt).
  { apply told_within; rewrite ?Htotal, ?Hprocessed; lia. }
  destruct Hcases
    as [(-> & -> & _) | (processError & _ & [(_ & Hstop & _) | (Hthrow & _)] & _)];
    [| congruence | congruence].
  destruct (woken_unrecorded (Semaphore.release (semaphore pool)).1)
    as (_ & Hwoken & _).
  cbv zeta in Hwoken.
  unfold lenient. cbn [settled trace]. split.
  - intros i o Hi. destruct (decide (i = index)) as [-> | Hne].
    + rewrite lookup_insert_eq in Hi. congruence.
    + rewrite lookup_insert_ne in Hi by congruence. eauto.
  - rewrite !recorded_indices_app, Hwoken. cbn [recorded_indices flat_map app].
    apply NoDup_app. split; [exact Hnodup |]. split; [| apply NoDup_singleton].
    intros x Hx Hx'. apply list_elem_of_singleton in Hx'. subst x.
    apply recorded_indices_elem in Hx. destruct Hx as [r' Hr'].
    exact (Hfresh _ Hr').
Qed.

Lemma strict_finish k c pool index :
  continueOnError = false ->
  accounted k c pool -> traced pool -> strict P imageFiles pool ->
  index ∈ running pool ->
  strict P imageFiles (finish P self imageFiles outputDirectory index pool).
Proof.
  intros Hstop Haccounted Htraced Hstrict Hin.
  pose proof (in_flight_unrecorded _ _ _ _ Haccounted Htraced Hin) as Hfresh.
  apply records_of_none in Hfresh.
  destruct Haccounted as (_ & _ & _ & _ & _ & Hpending).
  pose proof (finish_config pool index) as Hconfig.
  destruct (finish_cases index pool)
    as (r & fs' & outcome & recs & Hfinish & Hshape & Hcases).
  rewrite Hfinish in Hconfig |- *. clear Hfinish.
  destruct (finish_recorded index r recs Hshape)
    as (_ & _ & Hothers & Hrecords & _).
  destruct (woken_unrecorded (Semaphore.release (semaphore pool)).1)
    as (_ & _ & Hwoken & _).
  cbv zeta in Hwoken.
  unfold strict. cbn [settled trace pool_run] in Hconfig |- *. intros i o Hi.
  rewrite !records_of_app, Hwoken. cbn [records_of flat_map app].
  rewrite app_nil_r. rewrite Hconfig.
  destruct (decide (i = index)) as [-> | Hne].
  - rewrite lookup_insert_eq in Hi. inversion Hi; subst o. clear Hi.
    rewrite Hfresh, Hrecords. cbn [app]. exists r.
    destruct Hcases as [(-> & -> & _ & Hclean) | (processError & -> & Hwhy & Hhow)].
    + left. split; [reflexivity |]. split; [reflexivity |].
      destruct Hclean as [Hc | Hc]; [congruence | exact Hc].
    + right.
      destruct Hhow as [(e & -> & Hhow) | (_ & Habs)]; [| congruence].
      exists e, processError. split; [reflexivity |]. split; [reflexivity |].
      split.
      { destruct Hwhy as [(_ & _ & Hfailed & Hmessage) | (_ & Hover)]; auto. }
      split.
      { destruct Hhow as [(_ & Hrelays) | (_ & Hover)]; auto. }
      intros Hquiet.
      destruct Hwhy as [(_ & _ & Hfailed & Hmessage) | (Hthrow & _)].
      * split; [exact Hfailed |]. split; [| exact Hmessage].
        destruct Hhow as [(_ & Hrelays) | (Hthrow & _)].
        -- rewrite Hmessage in Hrelays. exact Hrelays.
        -- rewrite told_quiet in Hthrow; [discriminate |].
           rewrite noted_config. exact Hquiet.
      * rewrite told_quiet in Hthrow by exact Hquiet. discriminate.
  - rewrite lookup_insert_ne in Hi by congruence.
    rewrite (Hothers i) by congruence. rewrite app_nil_r.
    exact (Hstrict i o Hi).
Qed.

(** *** Whole runs *)

Lemma pending_spawn pool k : pending (spawn pool k) = S (pending pool).
Proof.
  unfold pending, spawn, Semaphore.acquire, push.
  destruct (Num.gt (Semaphore.permits (semaphore pool)) 0);
    cbn [running semaphore Semaphore.waitQueue];
    rewrite !length_app; cbn [length]; lia.
Qed.

Lemma spawned (c : Q) (pool : Pool) (count : nat) :
  healthy P self imageFiles 0 c pool ->
  healthy P self imageFiles count c (fold_left spawn (seq 0 count) pool)
  /\ pending (fold_left spawn (seq 0 count) pool) = (count + pending pool)%nat
  /\ pool_run (fold_left spawn (seq 0 count) pool) = pool_run pool.
Proof.
  intros Hstart. induction count as [| k IH].
  - split; [exact Hstart |]. split; reflexivity.
  - rewrite seq_S, fold_left_app. cbn [fold_left plus].
    destruct IH as ((Haccounted & Htraced & Hcounted & Hlenient & Hstrict)
                    & Hpending & Hrun).
    split; [| split].
    + split; [apply accounted_spawn, Haccounted |].
      split; [apply traced_spawn, Htraced |].
      split; [apply counted_spawn, Hcounted |].
      split; intros Hpolicy;
        [apply lenient_spawn, Hlenient, Hpolicy
        | apply strict_spawn, Hstrict, Hpolicy].
    + rewrite pending_spawn, Hpending. reflexivity.
    + rewrite spawn_run. exact Hrun.
Qed.

Lemma step_healthy (count : nat) (c : Q) (pool : Pool) (choice : nat) :
  (0 < c)%Q -> (count <= length imageFiles)%nat ->
  healthy P self imageFiles count c pool ->
  healthy P self imageFiles count c
    (step P self imageFiles outputDirectory pool choice)
  /\ pending (step P self imageFiles outputDirectory pool choice)
     = pred (pending pool)
  /\ ProgressReporter.config
       (run_reporter
          (pool_run (step P self imageFiles outputDirectory pool choice)))
     = ProgressReporter.config (run_reporter (pool_run pool)).
Proof.
  intros Hc Hcount (Haccounted & Htraced & Hcounted & Hlenient & Hstrict).
  unfold step.
  destruct (running pool) as [| first others] eqn:Hrunning.
  - split; [unfold healthy; auto |]. split; [| reflexivity].
    destruct Haccounted as (Hpermits & _ & Hqueue & _).
    unfold pending. rewrite Hrunning in *. cbn [length app] in *.
    destruct (Semaphore.waitQueue (semaphore pool)); [reflexivity |].
    assert ((Semaphore.permits (semaphore pool) <= 0)%Q)
      by (apply Hqueue; discriminate).
    change (inject_Z (Z.of_nat 0)) with 0%Q in Hpermits. lra.
  - rewrite <- Hrunning.
    set (index := nth (choice mod length (running pool)) (running pool) first).
    assert (Hin : index ∈ running pool).
    { apply list_elem_of_In, nth_In. apply Nat.mod_upper_bound.
      rewrite Hrunning. discriminate. }
    destruct (accounted_finish _ _ _ _ Haccounted Hin) as [Haccounted' Hpending].
    split; [| split].
    + split; [exact Haccounted' |].
      split; [eapply traced_finish; eassumption |].
      split; [apply counted_finish; assumption |].
      split; intros Hpolicy.
      * eapply lenient_finish; eauto.
      * eapply strict_finish; eauto.
    + rewrite <- Hpending. reflexivity.
    + apply finish_config.
Qed.

Lemma scheduled (count : nat) (c : Q) (schedule : list nat) (pool : Pool) :
  (0 < c)%Q -> (count <= length imageFiles)%nat ->
  healthy P self imageFiles count c pool ->
  healthy P self imageFiles count c
    (fold_left (step P self imageFiles outputDirectory) schedule pool)
  /\ pending (fold_left (step P self imageFiles outputDirectory) schedule pool)
     = (pending pool - length schedule)%nat
  /\ ProgressReporter.config
       (run_reporter
          (pool_run
             (fold_left (step P self imageFiles outputDirectory) schedule pool)))
     = ProgressReporter.config (run_reporter (pool_run pool)).
Proof.
  intros Hc Hcount. revert pool. induction schedule as [| choice schedule IH];
    intros pool Hhealthy.
  - cbn. split; [exact Hhealthy |]. split; [lia | reflexivity].
  - cbn [fold_left length].
    destruct (step_healthy count c pool choice Hc Hcount Hhealthy)
      as (Hnext & Hpending & Hconfig).
    destruct (IH _ Hnext) as (Hend & Hrest & Hconfig').
    split; [exact Hend |]. split.
    + rewrite Hrest, Hpending. lia.
    + rewrite Hconfig', Hconfig. reflexivity.
Qed.

Lemma drained (count : nat) (c : Q) (pool : Pool) :
  accounted count c pool -> pending pool = 0%nat ->
  exists outcomes,
    allSettled pool count = Some outcomes
    /\ length outcomes = count
    /\ forall i, (i < count)%nat -> settled pool !! i = outcomes !! i.
Proof.
  intros (_ & _ & _ & _ & Hcover & _) Hpending.
  unfold pending in Hpending. apply length_zero_iff_nil in Hpending.
  rewrite Hpending in Hcover.
  assert (Hall : forall i, (i < count)%nat -> is_Some (settled pool !! i)).
  { intros i Hi. apply Hcover in Hi. destruct Hi as [Hi | Hi]; [inversion Hi | exact Hi]. }
  unfold allSettled.
  destruct (mapM (fun index => settled pool !! index) (seq 0 count))
    as [outcomes |] eqn:Hmap.
  - exists outcomes. split; [reflexivity |].
    apply mapM_Some in Hmap.
    pose proof (Forall2_length _ _ _ Hmap) as Hlength.
    rewrite length_seq in Hlength. split; [lia |].
    intros i Hi.
    assert (Hseq : seq 0 count !! i = Some i) by (apply lookup_seq; lia).
    destruct (Forall2_lookup_l _ _ _ _ _ Hmap Hseq) as (o & Ho & Hsettled).
    rewrite Ho. exact Hsettled.
  - exfalso. assert (Hsome : is_Some (mapM (fun index => settled pool !! index) (seq 0 count))).
    { apply mapM_is_Some. apply Forall_forall. intros i Hi.
      apply elem_of_seq in Hi. apply Hall. lia. }
    rewrite Hmap in Hsome. destruct Hsome. discriminate.
Qed.

Lemma filter_first {A : Type} (p : A -> bool) (l : list A) (x : A) (rest : list A) :
  List.filter p l = x :: rest ->
  exists i, l !! i = Some x /\ p x = true
            /\ forall j y, (j < i)%nat -> l !! j = Some y -> p y = false.
Proof.
  induction l as [| a l IH]; cbn [List.filter]; [discriminate |].
  destruct (p a) eqn:Hpa; intros H.
  - inversion H; subst. exists 0%nat. repeat split; auto. intros j y Hj. lia.
  - destruct (IH H) as (i & Hi & Hpx & Hbefore). exists (S i).
    repeat split; auto. intros [| j] y Hj Hy.
    + cbn in Hy. inversion Hy; subst. exact Hpa.
    + cbn in Hy. eapply Hbefore; [| exact Hy]. lia.
Qed.

Lemma filter_none {A : Type} (p : A -> bool) (l : list A) :
  List.filter p l = [] -> forall i y, l !! i = Some y -> p y = false.
Proof.
  induction l as [| a l IH]; cbn [List.filter]; intros H i y Hy.
  - inversion Hy.
  - destruct (p a) eqn:Hpa; [discriminate |].
    destruct i as [| i]; cbn in Hy; [inversion Hy; subst; exact Hpa | eauto].
Qed.

(** The pool at the start of a run. *)
Lemma healthy_start (c : Q) (fs : FileSystem) (state : RunState) :
  (-1 < c)%Q ->
  ProgressReporter.isActive (run_reporter state) = true ->
  ProgressReporter.results (run_reporter state) = [] ->
  ProgressReporter.processedFiles (run_reporter state) = 0 ->
  ProgressReporter.totalFiles (run_reporter state)
  = Z.of_nat (length imageFiles) ->
  healthy P self imageFiles 0 c
    {| pool_fs := fs; pool_run := state;
       semaphore := Semaphore.new c; running := [];
       settled := ∅; trace := [] |}.
Proof.
  intros Hc Hactive Hresults Hprocessed Htotal.
  split; [| split; [| split; [| split]]].
  - unfold accounted.
    cbn [semaphore running settled Semaphore.permits Semaphore.waitQueue
         Semaphore.new length app].
    split; [change (inject_Z (Z.of_nat 0)) with 0%Q; lra |].
    split; [exact Hc |].
    split; [congruence |].
    split; [apply NoDup_nil_2 |]. split.
    + intros i. split; [| lia].
      intros [Hi | Hi]; [inversion Hi |].
      rewrite lookup_empty in Hi. destruct Hi. discriminate.
    + intros i Hi. inversion Hi.
  - unfold traced. cbn.
    split; [intros i Hi; inversion Hi |].
    split; [intros i o Hi; rewrite lookup_empty in Hi; discriminate |].
    split; [intros i r Hi; inversion Hi |].
    split; assumption.
  - split; assumption.
  - intros _. split; [| apply NoDup_nil_2].
    intros i o Hi. cbn in Hi. rewrite lookup_empty in Hi. discriminate.
  - intros _ i o Hi. cbn in Hi. rewrite lookup_empty in Hi. discriminate.
Qed.

Lemma parallel_outcome (c : Q) (schedule : list nat) (fs : FileSystem)
    (state : RunState) :
  (0 < c)%Q -> length schedule = length imageFiles ->
  ProgressReporter.isActive (run_reporter state) = true ->
  ProgressReporter.results (run_reporter state) = [] ->
  ProgressReporter.processedFiles (run_reporter state) = 0 ->
  ProgressReporter.totalFiles (run_reporter state)
  = Z.of_nat (length imageFiles) ->
  exists outcome pool,
    processImagesInParallel P self imageFiles outputDirectory c schedule fs state
    = (Some outcome, pool)
    /\ traced pool
    /\ ProgressReporter.config (run_reporter (pool_run pool))
       = ProgressReporter.config (run_reporter state)
    /\ (forall i, (i < length imageFiles)%nat ->
                  Started i ∈ trace pool /\ exists r, Recorded i r ∈ trace pool)
    /\ (continueOnError = true ->
        outcome = Ok tt
        /\ recorded_indices (trace pool) ≡ₚ seq 0 (length imageFiles))
    /\ (continueOnError = false ->
        ((forall i r, Recorded i r ∈ trace pool -> status r <> failed)
         -> outcome = Ok tt)
        /\ ((exists i r, Recorded i r ∈ trace pool /\ status r = failed) ->
            exists i e r processError,
              outcome = Throw e /\ (i < length imageFiles)%nat
              /\ records_of i (trace pool)
                 = [r; blank_result (nth i imageFiles "") failed processError]
              /\ ((status r = failed
                   /\ processError
                      = Str.or_default (errorMessage r) "Image processing failed")
                  \/ overflow processError)
              /\ (relays P e processError \/ overflow e)
              /\ (ProgressReporter.enableConsoleOutput
                    (ProgressReporter.config (run_reporter state))
                  = false ->
                  forall r', Recorded i r' ∈ trace pool ->
                             status r' = failed /\ carries P e r')
              /\ (forall j r, (j < i)%nat -> Recorded j r ∈ trace pool ->
                              status r <> failed))).
Proof.
  intros Hc Hlength Hactive Hresults Hprocessed Htotal.
  unfold processImagesInParallel.
  set (pool0 := {| pool_fs := fs; pool_run := state;
                   semaphore := Semaphore.new c; running := [];
                   settled := ∅; trace := [] |}).
  assert (Hstart : healthy P self imageFiles 0 c pool0)
    by (apply healthy_start; try assumption; lra).
  destruct (spawned c pool0 (length imageFiles) Hstart)
    as (Hspawned & Hpending & Hrun).
  destruct (scheduled _ c schedule _ Hc (Nat.le_refl _) Hspawned)
    as (Hhealthy & Hdone & Hconfig).
  rewrite Hrun in Hconfig. cbn [pool0 pool_run] in Hconfig.
  set (pool := fold_left (step P self imageFiles outputDirectory) schedule
                 (fold_left spawn (seq 0 (length imageFiles)) pool0)) in *.
  assert (Hzero : pending pool = 0%nat).
  { rewrite Hdone, Hpending. unfold pending. cbn. lia. }
  destruct Hhealthy as (Haccounted & Htraced & _ & Hlenient & Hstrict).
  destruct (drained _ _ _ Haccounted Hzero) as (outcomes & -> & Hcount & Hlookup).
  assert (Hsettled : forall i, (i < length imageFiles)%nat ->
                               exists o, settled pool !! i = Some o).
  { intros i Hi. rewrite (Hlookup i Hi).
    apply lookup_lt_is_Some_2. lia. }
  assert (Hbound : forall i, is_Some (settled pool !! i) ->
                             (i < length imageFiles)%nat).
  { intros i Hi. destruct Haccounted as (_ & _ & _ & _ & Hcover & _).
    apply Hcover. auto. }
  pose proof Htraced as (_ & Htr_settled & Htr_recorded & _).
  assert (Hall : forall i, (i < length imageFiles)%nat ->
                   Started i ∈ trace pool /\ exists r, Recorded i r ∈ trace pool).
  { intros i Hi. destruct (Hsettled i Hi) as [o Ho].
    destruct (Htr_settled i o Ho) as (H1 & _ & H3).
    split; [exact H1 | apply recorded_indices_elem, H3]. }
  destruct continueOnError eqn:Hpolicy; cbn [negb].
  - exists (Ok tt), pool. split; [reflexivity |].
    split; [exact Htraced |]. split; [exact Hconfig |]. split; [exact Hall |].
    split; [| intros; discriminate].
    intros _. split; [reflexivity |].
    destruct (Hlenient eq_refl) as [_ Hnodup].
    apply NoDup_Permutation; [exact Hnodup | apply NoDup_seq |].
    intros i. rewrite elem_of_seq, recorded_indices_elem. split.
    + intros [r Hr]. pose proof (Hbound i (Htr_recorded _ _ Hr)). lia.
    + intros Hi. apply Hall. lia.
  - specialize (Hstrict eq_refl).
    assert (Hclean : forall i r,
               settled pool !! i = Some (Ok tt) -> Recorded i r ∈ trace pool ->
               status r <> failed).
    { intros i r Hi Hr.
      destruct (Hstrict i _ Hi)
        as (r0 & [(_ & Hrecords & Hr0) | (e & pe & Habs & _)]);
        [| discriminate].
      apply records_of_elem in Hr. rewrite Hrecords in Hr.
      apply list_elem_of_singleton in Hr. subst r. exact Hr0. }
    destruct (List.filter is_rejected outcomes) as [| [[] | firstError] rest] eqn:Hfilter.
    + (* nothing rejected *)
      exists (Ok tt), pool. split; [reflexivity |].
      split; [exact Htraced |]. split; [exact Hconfig |]. split; [exact Hall |].
      split; [intros; discriminate |]. intros _. split; [reflexivity |].
      intros (i & r & Hr & Hfailed). exfalso.
      destruct (Htr_recorded _ _ Hr) as [o Ho].
      pose proof (Hbound i (ex_intro _ o Ho)) as Hi.
      destruct o as [[] | e].
      * exact (Hclean i r Ho Hr Hfailed).
      * rewrite (Hlookup i Hi) in Ho.
        pose proof (filter_none _ _ Hfilter _ _ Ho) as Hno. discriminate.
    + (* a fulfilled promise is never selected *)
      exfalso. destruct (filter_first _ _ _ _ Hfilter) as (i & _ & Hp & _).
      discriminate.
    + destruct (filter_first _ _ _ _ Hfilter) as (i & Hi & _ & Hbefore).
      assert (Hlt : (i < length imageFiles)%nat)
        by (apply lookup_lt_Some in Hi; lia).
      exists (Throw firstError), pool. split; [reflexivity |].
      split; [exact Htraced |]. split; [exact Hconfig |]. split; [exact Hall |].
      split; [intros; discriminate |]. intros _.
      rewrite <- (Hlookup i Hlt) in Hi.
      destruct (Hstrict i _ Hi)
        as (r0 & [(Habs & _) | (e & pe & He & Hrecords & Hwhy & Hhow & Hquiet)]);
        [discriminate |].
      inversion He; subst e. split.
      * intros Hnone. exfalso.
        apply (Hnone i (blank_result (nth i imageFiles "") failed pe));
          [| reflexivity].
        apply records_of_elem. rewrite Hrecords. right. left.
      * intros _. exists i, firstError, r0, pe. split; [reflexivity |].
        split; [exact Hlt |]. split; [exact Hrecords |].
        split; [exact Hwhy |]. split; [exact Hhow |]. split.
        -- intros Hoff r' Hr'. rewrite <- Hconfig in Hoff.
           destruct (Hquiet Hoff) as (Hfailed & Hcarries & Hmessage).
           apply records_of_elem in Hr'. rewrite Hrecords in Hr'.
           apply elem_of_cons in Hr'. destruct Hr' as [-> | Hr']; [auto |].
           apply list_elem_of_singleton in Hr'. subst r'.
           split; [reflexivity |]. unfold carries in *.
           cbn [blank_result errorMessage]. rewrite Hmessage.
           rewrite or_default_idempotent by discriminate. exact Hcarries.
        -- intros j r Hj Hr.
           assert (Hjlt : (j < length imageFiles)%nat) by lia.
           destruct (Hsettled j Hjlt) as [o Ho].
           destruct o as [[] | e].
           ++ exact (Hclean j r Ho Hr).
           ++ rewrite (Hlookup j Hjlt) in Ho.
              pose proof (Hbefore _ _ Hj Ho) as Hno. discriminate.
Qed.

End Pool.

(** ** Batch runs *)

Section Batch.
Import BatchProcessor Invariant.

Lemma starved P self imageFiles outputDirectory (c : Q) schedule fs state :
  (c <= 0)%Q -> imageFiles <> [] ->
  (processImagesInParallel P self imageFiles outputDirectory c schedule fs state).1
  = None.
Proof.
  intros Hc Hfiles. unfold processImagesInParallel.
  set (pool0 := {| pool_fs := fs; pool_run := state;
                   semaphore := Semaphore.new c; running := [];
                   settled := ∅; trace := [] |}).
  assert (Hidle : forall l pool,
             running pool = [] -> settled pool = ∅ ->
             Semaphore.permits (semaphore pool) = c ->
             let pool' := fold_left spawn l pool in
             running pool' = [] /\ settled pool' = ∅
             /\ Semaphore.permits (semaphore pool') = c).
  { induction l as [| k l IH]; intros pool Hr Hs Hp; [cbn; auto |].
    cbn [fold_left]. apply IH; unfold spawn, Semaphore.acquire;
      rewrite Hp; destruct (gt_spec c 0) as [[-> Hlt] | [-> _]];
      try lra; cbn; auto. }
  destruct (Hidle (seq 0 (length imageFiles)) pool0 eq_refl eq_refl eq_refl)
    as (Hrunning & Hsettled & _).
  assert (Hstill : forall schedule pool,
             running pool = [] ->
             fold_left (step P self imageFiles outputDirectory) schedule pool
             = pool).
  { induction schedule0 as [| choice schedule0 IH]; intros pool Hr; [reflexivity |].
    cbn [fold_left]. unfold step at 2. rewrite Hr. apply IH, Hr. }
  rewrite (Hstill schedule _ Hrunning).
  unfold allSettled. rewrite Hsettled.
  destruct imageFiles as [| file files]; [congruence |].
  cbn [length seq mapM]. rewrite lookup_empty. reflexivity.
Qed.

Lemma success_and_failure_counts (l : list OptimizationResult) :
  (length (List.filter (ProgressReporter.has_status success) l)
   + length (List.filter (ProgressReporter.has_status failed) l)
   <= length l)%nat.
Proof.
  induction l as [| r l IH]; [cbn; lia |].
  cbn [List.filter length].
  destruct (ProgressReporter.has_status success r) eqn:Hsuccess,
           (ProgressReporter.has_status failed r) eqn:Hfailed;
    cbn [length]; try lia.
  unfold ProgressReporter.has_status in Hsuccess, Hfailed.
  destruct (status r); discriminate.
Qed.

Lemma report_counts reporter totalProcessingTime :
  let report := ProgressReporter.generateFinalReport reporter totalProcessingTime in
  totalImages report = Z.of_nat (length (results report))
  /\ successfulConversions report + failedConversions report <= totalImages report
  /\ 0 <= successfulConversions report /\ 0 <= failedConversions report
  /\ results report = ProgressReporter.results reporter
  /\ failedConversions report
     = Z.of_nat (length (List.filter (ProgressReporter.has_status failed)
                           (ProgressReporter.results reporter))).
Proof.
  cbv zeta. unfold ProgressReporter.generateFinalReport.
  cbn [totalImages successfulConversions failedConversions results].
  pose proof (success_and_failure_counts (ProgressReporter.results reporter)).
  repeat split; lia.
Qed.





Lemma fail_throws self errorMessage : is_ok (fail self errorMessage) = false.
Proof.
  unfold fail, EventEmitter.emit_error.
  destruct (EventEmitter.errorListener (emitter self)); reflexivity.
Qed.

(** C8.  Every report that [generateFinalReport] builds, and so every
    report a batch run returns, whatever the concurrency and the order in
    which the items finish, has [totalImages] equal to the length of its
    result list and [successfulConversions + failedConversions] at most
    [totalImages]. *)
Theorem report_totals_match_results :
  (forall reporter totalProcessingTime,
      let report :=
        ProgressReporter.generateFinalReport reporter totalProcessingTime in
      totalImages report = Z.of_nat (length (results report))
      /\ successfulConversions report + failedConversions report
         <= totalImages report)
  /\ forall P self scanned sourceDirectory outputDirectory progressConfig
            startTime endTime schedule fs report self' fs' trace,
       processDirectory P self scanned sourceDirectory outputDirectory
         progressConfig startTime endTime schedule fs
       = (Some (Ok report), self', fs', trace) ->
       totalImages report = Z.of_nat (length (results report))
       /\ successfulConversions report + failedConversions report
          <= totalImages report.
Proof.
  split.
  - intros reporter totalProcessingTime.
    pose proof (report_counts reporter totalProcessingTime) as H.
    cbv zeta in *. tauto.
  - intros P self scanned sourceDirectory outputDirectory progressConfig
      startTime endTime schedule fs report self' fs' trace Hrun.
    assert (Hfail : forall message a b c,
               (Some (fail self message), a, b, c)
               <> (Some (Ok report), self', fs', trace)).
    { intros message a b c Heq. inversion Heq as [[Hok Ha Hb Hc]].
      pose proof (fail_throws self message) as Hthrows.
      rewrite Hok in Hthrows. discriminate. }
    unfold processDirectory in Hrun.
    destruct scanned as [imageFiles | message]; [| exfalso; eapply Hfail, Hrun].
    destruct (length imageFiles =? 0)%nat; [exfalso; eapply Hfail, Hrun |].
    destruct (processImagesInParallel _ _ _ _ _ _ _ _) as [outcome pool].
    destruct outcome as [[[] | message] |];
      [| exfalso; eapply Hfail, Hrun | discriminate].
    unfold ProgressReporter.complete in Hrun.
    destruct (negb _); cbn [fst snd] in Hrun; [exfalso; eapply Hfail, Hrun |].
    inversion Hrun; subst report.
    match goal with
    | |- context [ProgressReporter.generateFinalReport ?r ?t] =>
        pose proof (report_counts r t) as H
    end.
    cbv zeta in H. tauto.
Qed.

(** The run of the integration test with one valid and one invalid
    file. *)
Lemma one_valid_one_invalid :
  exists p report self' fs' trace,
    Scenario.processor (Some (Scenario.processing 2 true)) = Some p
    /\ processDirectory (Scenario.platform 50) p
         (Ok ["src/valid.jpg"; "src/invalid.jpg"]) "src" "out" None 0 100
         [1; 0]%nat Scenario.source
       = (Some (Ok report), self', fs', trace)
    /\ successfulConversions report = 1
    /\ failedConversions report = 1.
Proof.
  do 5 eexists. split; [vm_compute; reflexivity |].
  split; [vm_compute; reflexivity |]. split; reflexivity.
Qed.

Lemma report_totals_match_results_witness :
  exists p report self' fs' trace,
    Scenario.processor (Some (Scenario.processing 2 true)) = Some p
    /\ processDirectory (Scenario.platform 50) p
         (Ok ["src/valid.jpg"; "src/invalid.jpg"]) "src" "out" None 0 100
         [1; 0]%nat Scenario.source
       = (Some (Ok report), self', fs', trace)
    /\ totalImages report = Z.of_nat (length (results report))
    /\ successfulConversions report + failedConversions report
       <= totalImages report.
Proof.
  destruct one_valid_one_invalid
    as (p & report & self' & fs' & trace & Hp & Hrun & _).
  exists p, report, self', fs', trace. split; [exact Hp |].
  split; [exact Hrun |].
  exact (proj2 report_totals_match_results _ _ _ _ _ _ _ _ _ _ _ _ _ _ Hrun).
Defined.

(** C9: the code does not do this.  Constructing a processor never
    fails, whatever the configuration: the constructor of [ConfigManager]
    merges and stores it without calling [validateConfig], which only
    [updateConfig] does.  A concurrency of 0 is accepted, although
    [validateConfig] rejects the very configuration the processor then
    holds, and a run with it never returns: no task ever gets a permit.
    A minimum quality of 150 is accepted likewise, and handed to the
    quality calculator and the validator. *)
Theorem invalid_configuration_is_accepted :
  (forall config,
      exists p,
        BatchProcessor.new config = Ok p
        /\ ConfigManager.getConfig (configManager p)
           = ConfigManager.mergeConfig DEFAULT_CONFIG config)
  /\ (exists p,
         BatchProcessor.new (Some (Scenario.processing 0 true)) = Ok p
         /\ ConfigManager.getConcurrency (configManager p) = 0%Q
         /\ ConfigManager.validateConfig (configManager p)
            = Throw "Concurrency must be at least 1"
         /\ forall schedule,
              (processDirectory (Scenario.platform 50) p
                 (Ok ["src/valid.jpg"]) "src" "out" None 0 100 schedule
                 Scenario.source).1.1.1
              = None)
  /\ (exists p,
         BatchProcessor.new (Some (Scenario.minimum 150)) = Ok p
         /\ DynamicQualityCalculator.minimumQuality (qualityCalculator p) = 150
         /\ QualityValidator.minimumQualityThreshold (qualityValidator p) = 150
         /\ ConfigManager.validateConfig (configManager p)
            = Throw "Photo quality must be between 150 and 100").
Proof.
  split; [| split].
  - intros config. eexists. split; reflexivity.
  - eexists. split; [reflexivity |]. split; [reflexivity |].
    split; [reflexivity |]. intros schedule. unfold processDirectory.
    cbn [length Nat.eqb].
    match goal with
    | |- context [processImagesInParallel ?P ?p ?files ?out ?c schedule ?fs ?st] =>
        pose proof (starved P p files out c schedule fs st) as Hstarved;
        destruct (processImagesInParallel P p files out c schedule fs st)
          as [outcome pool]
    end.
    cbn [fst] in Hstarved. rewrite Hstarved; [reflexivity | | discriminate].
    vm_compute. discriminate.
  - eexists. split; [reflexivity |]. repeat split.
Qed.

End Batch.

(** * Further properties of the code *)

(** ** Format detection *)
Section Formats.
Import FormatDetector.

Lemma identifyFormatFromBuffer_formats buffer f :
  identifyFormatFromBuffer buffer = Some f ->
  f = "jpeg" \/ f = "png" \/ f = "dng".
Proof.
  unfold identifyFormatFromBuffer.
  repeat match goal with
         | |- (if ?b then _ else _) = _ -> _ => destruct b
         end; intros H; inversion H; auto.
Qed.

Local Abbreviation extension_of P imagePath :=
  (Str.remove "." (Str.toLowerCase (path_extname P imagePath))).

Lemma detectFormatFromExtension_cases P self imagePath f :
  detectFormatFromExtension P self imagePath = Some f ->
  Str.includes (supportedFormats self) f = true
  /\ ((f = "jpeg" /\ (extension_of P imagePath = "jpg"
                     \/ extension_of P imagePath = "jpeg"))
      \/ (f = "png" /\ extension_of P imagePath = "png")
      \/ (f = "dng" /\ extension_of P imagePath = "dng")).
Proof.
  unfold detectFormatFromExtension.
  set (extension := Str.remove "." (Str.toLowerCase (path_extname P imagePath))).
  cbn [List.find fst].
  destruct (String.eqb_spec "jpg" extension) as [<- | _];
    [destruct (Str.includes (supportedFormats self) "jpeg") eqn:Hin;
     intros H; inversion H; subst; auto |].
  destruct (String.eqb_spec "jpeg" extension) as [<- | _];
    [destruct (Str.includes (supportedFormats self) "jpeg") eqn:Hin;
     intros H; inversion H; subst; auto |].
  destruct (String.eqb_spec "png" extension) as [<- | _];
    [destruct (Str.includes (supportedFormats self) "png") eqn:Hin;
     intros H; inversion H; subst; auto |].
  destruct (String.eqb_spec "dng" extension) as [<- | _];
    [destruct (Str.includes (supportedFormats self) "dng") eqn:Hin;
     intros H; inversion H; subst; auto 10 |].
  discriminate.
Qed.


Lemma detectFormat_cases P self fs imagePath :
  (fs !! imagePath = None
   /\ detectFormat P self fs imagePath
      = Throw ("Failed to detect format for " +:+ imagePath +:+ ": "
               +:+ "File does not exist: " +:+ imagePath))
  \/ (exists file,
         fs !! imagePath = Some file
         /\ ((exists d,
                 identifyFormatFromBuffer
                   (take 12 (app (file_bytes file) (replicate 12 0))) = Some d
                 /\ isFormatConsistentWithExtension d (extension_of P imagePath)
                    = true
                 /\ detectFormat P self fs imagePath = Ok (Some d))
             \/ detectFormat P self fs imagePath
                = Ok (detectFormatFromExtension P self imagePath))).
Proof.
  unfold detectFormat, fs_pathExists, read12.
  destruct (fs !! imagePath) as [file |] eqn:Hfile.
  - right. exists file. split; [reflexivity |].
    rewrite bool_decide_eq_true_2 by eauto. cbn [negb bind try_catch].
    destruct (identifyFormatFromBuffer _) as [d |] eqn:Hd; [| right; reflexivity].
    destruct (isFormatConsistentWithExtension d _) eqn:Hconsistent.
    + left. exists d. auto.
    + right. reflexivity.
  - left. split; [reflexivity |].
    rewrite bool_decide_eq_false_2 by (intros [? ?]; discriminate).
    reflexivity.
Qed.

Lemma detectFormat_formats P self fs imagePath f :
  detectFormat P self fs imagePath = Ok (Some f) ->
  f = "jpeg" \/ f = "png" \/ f = "dng".
Proof.
  intros H.
  destruct (detectFormat_cases P self fs imagePath)
    as [[_ Hthrow] | (file & _ & [(d & Hd & _ & Hok) | Hfallback])].
  - rewrite Hthrow in H. discriminate.
  - rewrite Hok in H. inversion H; subst d.
    exact (identifyFormatFromBuffer_formats _ _ Hd).
  - rewrite Hfallback in H. inversion H as [Hf].
    destruct (detectFormatFromExtension_cases _ _ _ _ Hf)
      as [_ [[-> _] | [[-> _] | [-> _]]]]; auto.
Qed.

Lemma validateImageFile_cases P self fs imagePath :
  exists v,
    validateImageFile P self fs imagePath = Ok v
    /\ ((isValid v = false /\ exists m, errorMessage v = Some m)
        \/ (isValid v = true /\ errorMessage v = None
            /\ isWebPCompatible v = true
            /\ exists f,
                 format v = Some f
                 /\ detectFormat P self fs imagePath = Ok (Some f)
                 /\ Str.includes (supportedFormats self) f = true)).
Proof.
  unfold validateImageFile.
  destruct (detectFormat P self fs imagePath) as [[f |] | e] eqn:Hdetect;
    cbn [bind try_catch].
  - pose proof (detectFormat_formats _ _ _ _ _ Hdetect) as Hf.
    assert (Hlower : Str.toLowerCase f = f)
      by (destruct Hf as [-> | [-> | ->]]; reflexivity).
    unfold isFormatSupported, validateWebPCompatibility. rewrite Hlower.
    destruct (Str.includes (supportedFormats self) f) eqn:Hsupported;
      cbn [negb].
    + assert (Hcompatible : Str.includes ["jpeg"; "png"; "dng"] f = true)
        by (destruct Hf as [-> | [-> | ->]]; reflexivity).
      rewrite Hcompatible. cbn [negb try_catch].
      eexists. split; [reflexivity |]. right. cbn. eauto 10.
    + eexists. split; [reflexivity |]. left. cbn. eauto.
  - eexists. split; [reflexivity |]. left. cbn. eauto.
  - eexists. split; [reflexivity |]. left. cbn. eauto.
Qed.

(** X1.  [validateImageFile] never throws.  Its verdict is valid exactly
    when it carries no error message; a valid verdict names the format
    that [detectFormat] found, which is one of jpeg, png and dng, is in
    the detector's list of supported formats and is marked compatible
    with WebP; a path that names no file is never valid.  A converter
    that uses the detector answers [isConversionSupported] with the
    verdict's validity, and does not throw either. *)
Theorem validateImageFile_verdict :
  forall P self fs imagePath,
  exists v,
    validateImageFile P self fs imagePath = Ok v
    /\ (isValid v = true <-> errorMessage v = None)
    /\ (isValid v = true ->
        isWebPCompatible v = true
        /\ exists f,
             format v = Some f
             /\ detectFormat P self fs imagePath = Ok (Some f)
             /\ (f = "jpeg" \/ f = "png" \/ f = "dng")
             /\ Str.includes (supportedFormats self) f = true)
    /\ (fs !! imagePath = None -> isValid v = false)
    /\ WebPConverter.isConversionSupported P (WebPConverter.new (Some self))
         fs imagePath
       = Ok (isValid v).
Proof.
  intros P self fs imagePath.
  destruct (validateImageFile_cases P self fs imagePath) as (v & Hv & Hcases).
  exists v. split; [exact Hv |].
  assert (Hsupported :
            WebPConverter.isConversionSupported P
              (WebPConverter.new (Some self)) fs imagePath
            = Ok (isValid v)).
  { unfold WebPConverter.isConversionSupported.
    change (WebPConverter.formatDetector (WebPConverter.new (Some self)))
      with self.
    rewrite Hv.
    cbn [bind try_catch].
    destruct Hcases as [[-> _] | (-> & _ & -> & _)]; reflexivity. }
  destruct Hcases as [(Hinvalid & m & Hm)
                     | (Hvalid & Hm & Hcompatible & f & Hf & Hdetect & Hin)].
  - rewrite Hinvalid in Hsupported |- *. rewrite Hm.
    repeat split; try discriminate; auto.
  - rewrite Hvalid in Hsupported |- *. rewrite Hm.
    split; [split; reflexivity |].
    split; [| split; [| exact Hsupported]].
    + intros _. split; [exact Hcompatible |]. exists f.
      pose proof (detectFormat_formats _ _ _ _ _ Hdetect). auto.
    + intros Hnone.
      destruct (detectFormat_cases P self fs imagePath)
        as [[_ Hthrow] | (file & Hfile & _)]; congruence.
Qed.

Lemma lower_ascii_idempotent (a : ascii) :
  Str.lower_ascii (Str.lower_ascii a) = Str.lower_ascii a.
Proof.
  destruct a as [[] [] [] [] [] [] [] []]; vm_compute; reflexivity.
Qed.

Lemma toLowerCase_idempotent (s : string) :
  Str.toLowerCase (Str.toLowerCase s) = Str.toLowerCase s.
Proof.
  induction s as [| a s IH]; [reflexivity |].
  cbn [Str.toLowerCase]. rewrite lower_ascii_idempotent, IH. reflexivity.
Qed.

Lemma toLowerCase_remove (c : ascii) (s : string) :
  Str.toLowerCase (Str.remove c (Str.toLowerCase s))
  = Str.remove c (Str.toLowerCase s).
Proof.
  induction s as [| a s IH]; [reflexivity |].
  cbn [Str.toLowerCase Str.remove].
  destruct (Ascii.eqb (Str.lower_ascii a) c).
  - apply toLowerCase_idempotent.
  - cbn [Str.toLowerCase]. rewrite lower_ascii_idempotent, IH. reflexivity.
Qed.

(** The table of [isFormatConsistentWithExtension]. *)
Lemma isFormatConsistentWithExtension_cases P imagePath d :
  d = "jpeg" \/ d = "png" \/ d = "dng" ->
  isFormatConsistentWithExtension d (extension_of P imagePath) = true ->
  (d = "jpeg" /\ (extension_of P imagePath = "jpg"
                  \/ extension_of P imagePath = "jpeg"))
  \/ (d = "png" /\ extension_of P imagePath = "png")
  \/ (d = "dng" /\ (extension_of P imagePath = "dng"
                   \/ extension_of P imagePath = "tiff"
                   \/ extension_of P imagePath = "tif")).
Proof.
  unfold isFormatConsistentWithExtension. rewrite toLowerCase_remove.
  set (extension := extension_of P imagePath).
  intros [-> | [-> | ->]]; cbn [Str.toLowerCase List.find fst];
    unfold Str.includes; cbn [existsb]; intros H;
    repeat (apply orb_true_iff in H; destruct H as [H | H]);
    try discriminate; apply String.eqb_eq in H; auto 10.
Qed.

(** X2.  A format that [detectFormat] returns is jpeg, png or dng, and
    it goes with the extension of the path as the table of
    [isFormatConsistentWithExtension] has it: jpeg with .jpg and .jpeg,
    png with .png, and dng with .dng, .tiff and .tif.  A format that the
    table does not pair with the extension is never returned; a file
    with the signature of a TIFF that is named .tif is reported as
    dng. *)
Theorem detected_format_agrees_with_extension P self fs imagePath f :
  detectFormat P self fs imagePath = Ok (Some f) ->
  (f = "jpeg" /\ (extension_of P imagePath = "jpg"
                  \/ extension_of P imagePath = "jpeg"))
  \/ (f = "png" /\ extension_of P imagePath = "png")
  \/ (f = "dng" /\ (extension_of P imagePath = "dng"
                   \/ extension_of P imagePath = "tiff"
                   \/ extension_of P imagePath = "tif")).
Proof.
  intros H.
  destruct (detectFormat_cases P self fs imagePath)
    as [[_ Hthrow] | (file & _ & [(d & Hd & Hconsistent & Hok) | Hfallback])].
  - rewrite Hthrow in H. discriminate.
  - rewrite Hok in H. inversion H; subst d.
    apply isFormatConsistentWithExtension_cases; [| exact Hconsistent].
    exact (identifyFormatFromBuffer_formats _ _ Hd).
  - rewrite Hfallback in H. inversion H as [Hf].
    destruct (detectFormatFromExtension_cases _ _ _ _ Hf)
      as [_ [[-> He] | [[-> He] | [-> He]]]]; auto 10.
Qed.

(** A scan with the signature of a little-endian TIFF. *)
Lemma detected_format_agrees_with_extension_witness :
  ("dng" = "jpeg"
   /\ (extension_of (Scenario.platform 50) "src/scan.tif" = "jpg"
       \/ extension_of (Scenario.platform 50) "src/scan.tif" = "jpeg"))
  \/ ("dng" = "png" /\ extension_of (Scenario.platform 50) "src/scan.tif" = "png")
  \/ ("dng" = "dng"
      /\ (extension_of (Scenario.platform 50) "src/scan.tif" = "dng"
          \/ extension_of (Scenario.platform 50) "src/scan.tif" = "tiff"
          \/ extension_of (Scenario.platform 50) "src/scan.tif" = "tif")).
Proof.
  apply (detected_format_agrees_with_extension (Scenario.platform 50)
           (FormatDetector.new None)
           (<["src/scan.tif" :=
                {| file_bytes := [0x49; 0x49; 0x2A; 0x00; 0x08; 0x00; 0x00; 0x00];
                   file_size := 4096;
                   file_image := Throw "not decoded" |}]> ∅)
           "src/scan.tif" "dng").
  vm_compute. reflexivity.
Defined.

(** X3.  For a file that exists, a supported extension alone decides
    the format: whenever [detectFormatFromExtension] names a format,
    [detectFormat] returns that format, whatever the bytes of the file
    are. *)
Theorem supported_extension_decides_format P self fs imagePath file f :
  fs !! imagePath = Some file ->
  detectFormatFromExtension P self imagePath = Some f ->
  detectFormat P self fs imagePath = Ok (Some f).
Proof.
  intros Hfile Hf.
  destruct (detectFormat_cases P self fs imagePath)
    as [[Hnone _] | (file' & _ & [(d & Hd & Hconsistent & Hok) | Hfallback])].
  - rewrite Hnone in Hfile. discriminate.
  - rewrite Hok. do 2 f_equal.
    destruct (identifyFormatFromBuffer_formats _ _ Hd) as [-> | [-> | ->]];
      destruct (detectFormatFromExtension_cases _ _ _ _ Hf)
        as [_ [[-> [He | He]] | [[-> He] | [-> He]]]];
      try reflexivity; rewrite He in Hconsistent; discriminate.
  - rewrite Hfallback, Hf. reflexivity.
Qed.

(** A text file named .jpg is detected as a JPEG. *)
Lemma supported_extension_decides_format_witness :
  detectFormat (Scenario.platform 50) (FormatDetector.new None)
    Scenario.source "src/invalid.jpg"
  = Ok (Some "jpeg").
Proof.
  apply (supported_extension_decides_format (Scenario.platform 50)
           (FormatDetector.new None) Scenario.source "src/invalid.jpg"
           Scenario.notAnImage "jpeg");
    vm_compute; reflexivity.
Defined.

End Formats.


(** ** One item of a batch *)

Section Items.
Import BatchProcessor.

Lemma convertToWebP_cases P self inputPath outputPath quality maxWidth maxHeight fs :
  exists r fs',
    WebPConverter.convertToWebP P self inputPath outputPath quality maxWidth
      maxHeight fs = (Ok r, fs')
    /\ originalPath r = inputPath /\ optimizedPath r = outputPath
    /\ ((status r = success /\ errorMessage r = None
         /\ exists input encoded,
              fs !! inputPath = Some input
              /\ fs' = <[outputPath := encoded]> fs
              /\ originalSize r = file_size input
              /\ optimizedSize r = file_size encoded)
        \/ (status r = failed /\ fs' = fs /\ is_Some (errorMessage r)
            /\ originalSize r = 0)).
Proof.
  unfold WebPConverter.convertToWebP, mtry, mbind, reads, throw, ret.
  destruct (FormatDetector.validateImageFile P _ fs inputPath) as [v | e];
    [| eexists _, _; split; [reflexivity |]; cbn; eauto 10].
  destruct (FormatDetector.isValid v); cbn [negb];
    [| eexists _, _; split; [reflexivity |]; cbn; eauto 10].
  unfold fs_stat at 1.
  destruct (fs !! inputPath) as [input |] eqn:Hinput;
    [| eexists _, _; split; [reflexivity |]; cbn; eauto 10].
  destruct (WebPConverter.getImageMetadata fs inputPath);
    [| eexists _, _; split; [reflexivity |]; cbn; eauto 10].
  destruct (WebPConverter.createSharpInstance fs inputPath);
    [| eexists _, _; split; [reflexivity |]; cbn; eauto 10].
  unfold WebPConverter.toFile. rewrite Hinput.
  destruct (webp_encode P _ input _ _ _) as [encoded | e];
    [| eexists _, _; split; [reflexivity |]; cbn; eauto 10].
  unfold fs_stat. rewrite lookup_insert_eq.
  eexists _, _. split; [reflexivity |]. cbn. split; [reflexivity |].
  split; [reflexivity |]. left. eauto 10.
Qed.

Lemma validateOutputQuality_returns P self fs originalPath optimizedPath q :
  exists verdict,
    QualityValidator.validateOutputQuality P self fs originalPath optimizedPath q
    = Ok verdict.
Proof.
  pose proof (try_catch_ok (A := QualityValidator.Validation)) as H.
  unfold QualityValidator.validateOutputQuality.
  match goal with |- exists v, try_catch ?b ?h = Ok v =>
    specialize (H b h (fun _ => eq_refl));
    destruct (try_catch b h); [eauto | discriminate] end.
Qed.

Lemma validateImageFile_returns P self fs imagePath :
  exists v, FormatDetector.validateImageFile P self fs imagePath = Ok v.
Proof.
  pose proof (try_catch_ok (A := FormatDetector.FileValidation)) as H.
  unfold FormatDetector.validateImageFile.
  match goal with |- exists v, try_catch ?b ?h = Ok v =>
    specialize (H b h (fun _ => eq_refl));
    destruct (try_catch b h); [eauto | discriminate] end.
Qed.

(** How one item ends. *)
Lemma processImage_cases P self imagePath outputDirectory fs :
  exists v r fs',
    FormatDetector.validateImageFile P (formatDetector self) fs imagePath = Ok v
    /\ processImage P self imagePath outputDirectory fs = (Ok r, fs')
    /\ originalPath r = imagePath
    /\ ((FormatDetector.isValid v = false
         /\ r = blank_result imagePath skipped
                  (Str.or_default (FormatDetector.errorMessage v)
                     "Invalid image file")
         /\ fs' = fs)
        \/ (FormatDetector.isValid v = true
            /\ status r = failed /\ is_Some (errorMessage r) /\ fs' = fs
            /\ originalSize r = 0)
        \/ (FormatDetector.isValid v = true
            /\ optimizedPath r
               = FileManager.generateWebPOutputPath P imagePath outputDirectory
            /\ (status r = success /\ errorMessage r = None
                \/ status r = failed /\ is_Some (errorMessage r))
            /\ exists input encoded,
                 fs !! imagePath = Some input
                 /\ fs' = <[optimizedPath r := encoded]> fs
                 /\ originalSize r = file_size input
                 /\ optimizedSize r = file_size encoded)).
Proof.
  destruct (validateImageFile_returns P (formatDetector self) fs imagePath)
    as [v Hv].
  exists v. unfold processImage, mtry.
  erewrite reads_step; [| exact Hv].
  destruct (FormatDetector.isValid v) eqn:Hvalid; cbn [negb].
  2:{ eexists _, _. split; [exact Hv |]. split; [reflexivity |].
      split; [reflexivity |]. left. auto. }
  unfold mbind at 1. unfold reads at 1.
  destruct (DynamicQualityCalculator.calculateOptimalQuality _ fs imagePath None)
    as [decision | e].
  2:{ eexists _, _. split; [exact Hv |]. split; [reflexivity |].
      split; [reflexivity |]. right. left. cbn. eauto. }
  cbv zeta.
  destruct (convertToWebP_cases P (webpConverter self) imagePath
              (FileManager.generateWebPOutputPath P imagePath outputDirectory)
              (DynamicQualityCalculator.quality decision)
              (maxWidth (dimensions (ConfigManager.getConfig (configManager self))))
              (maxHeight (dimensions (ConfigManager.getConfig (configManager self))))
              fs)
    as (c & fs1 & Hc & Hin & Hout & Hcases).
  rewrite (mbind_step _ _ _ _ _ Hc).
  destruct Hcases as [(Hstatus & Hmessage & input & encoded & Hinput & -> & Hsize & Hosize)
                     | (Hstatus & -> & Hmessage & Hzero)].
  - rewrite Hstatus. cbn [Status_eqb].
    destruct (validateOutputQuality_returns P (qualityValidator self)
                (<[FileManager.generateWebPOutputPath P imagePath outputDirectory
                   := encoded]> fs)
                imagePath
                (FileManager.generateWebPOutputPath P imagePath outputDirectory)
                (inject_Z (DynamicQualityCalculator.quality decision)))
      as [verdict Hverdict].
    rewrite mbind_assoc. erewrite reads_step; [| exact Hverdict].
    destruct (QualityValidator.isValid verdict); cbn [negb];
      unfold mbind, ret;
      eexists _, _; (split; [exact Hv |]); (split; [reflexivity |]);
      cbn [set_errorMessage set_status originalPath];
      (split; [exact Hin |]); right; right;
      (split; [reflexivity |]);
      cbn [set_errorMessage set_status optimizedPath status errorMessage
           originalSize optimizedSize];
      rewrite ?Hout; (split; [reflexivity |]).
    + split; [left; auto |]. eauto 10.
    + split; [right; eauto |]. eauto 10.
  - rewrite Hstatus. cbn [Status_eqb]. unfold mbind, ret.
    eexists _, _. split; [exact Hv |]. split; [reflexivity |].
    split; [exact Hin |]. right. left. auto.
Qed.


(** X4.  [processImage] never throws, and it skips a file exactly when
    [validateImageFile] finds it invalid.  A skipped file leaves the
    file system as it was, and its result has no output path, sizes and
    ratio of 0, and the validation's message, or "Invalid image file"
    when there is none. *)
Theorem invalid_files_are_skipped :
  forall P self imagePath outputDirectory fs,
  exists v r fs',
    FormatDetector.validateImageFile P (formatDetector self) fs imagePath = Ok v
    /\ processImage P self imagePath outputDirectory fs = (Ok r, fs')
    /\ (status r = skipped <-> FormatDetector.isValid v = false)
    /\ (status r = skipped ->
        fs' = fs
        /\ r = blank_result imagePath skipped
                 (Str.or_default (FormatDetector.errorMessage v)
                    "Invalid image file")).
Proof.
  intros P self imagePath outputDirectory fs.
  destruct (processImage_cases P self imagePath outputDirectory fs)
    as (v & r & fs' & Hv & Hrun & _ & Hcases).
  exists v, r, fs'. split; [exact Hv |]. split; [exact Hrun |].
  destruct Hcases as [(Hinvalid & -> & ->)
                     | [(Hvalid & Hstatus & _)
                       | (Hvalid & _ & Hstatus & _)]].
  - split; [split; auto |]. auto.
  - rewrite Hstatus, Hvalid. split; [split |]; intros H; discriminate H.
  - rewrite Hvalid.
    destruct Hstatus as [[-> _] | [-> _]]; (split; [split |]);
      intros H; discriminate H.
Qed.

(** X5.  The result of [processImage] is about the file it was given,
    and its status is [success] exactly when it has no error message.
    A successful result names the output path that
    [generateWebPOutputPath] computes, the size of the input file and
    the size of the file now stored at the output path. *)
Theorem processImage_result_is_coherent :
  forall P self imagePath outputDirectory fs,
  exists r fs',
    processImage P self imagePath outputDirectory fs = (Ok r, fs')
    /\ originalPath r = imagePath
    /\ (status r = success <-> errorMessage r = None)
    /\ (status r = success ->
        optimizedPath r
        = FileManager.generateWebPOutputPath P imagePath outputDirectory
        /\ fs_stat fs imagePath = Ok (originalSize r)
        /\ fs_stat fs' (optimizedPath r) = Ok (optimizedSize r)).
Proof.
  intros P self imagePath outputDirectory fs.
  destruct (processImage_cases P self imagePath outputDirectory fs)
    as (v & r & fs' & _ & Hrun & Hpath & Hcases).
  exists r, fs'. split; [exact Hrun |]. split; [exact Hpath |].
  destruct Hcases as [(_ & -> & _)
                     | [(_ & Hstatus & [m Hm] & _)
                       | (_ & Hout & Hstatus & input & encoded & Hinput & ->
                          & Hsize & Hosize)]].
  - cbn. split; [split |]; intros H; discriminate H.
  - rewrite Hstatus, Hm. split; [split |]; intros H; discriminate H.
  - destruct Hstatus as [[Hs Hm] | [Hs [m Hm]]]; rewrite Hs, Hm.
    + split; [split; reflexivity |]. intros _. split; [exact Hout |].
      unfold fs_stat. rewrite Hinput, lookup_insert_eq, Hsize, Hosize. auto.
    + split; [split |]; intros H; discriminate H.
Qed.

(** X6.  Skipped items, and items that failed before anything was
    written, do not pass [validateOptimizationResult]: a result of
    [processImage] that passes it was converted, names the computed
    output path, and carries the positive sizes of the input and of the
    file written there. *)
Theorem only_converted_items_validate :
  forall P self imagePath outputDirectory fs,
  exists r fs',
    processImage P self imagePath outputDirectory fs = (Ok r, fs')
    /\ (DataValidator.validateOptimizationResult r = true ->
        status r <> skipped
        /\ optimizedPath r
           = FileManager.generateWebPOutputPath P imagePath outputDirectory
        /\ fs_stat fs' (optimizedPath r) = Ok (optimizedSize r)
        /\ 0 < optimizedSize r /\ 0 < originalSize r).
Proof.
  intros P self imagePath outputDirectory fs.
  destruct (processImage_cases P self imagePath outputDirectory fs)
    as (v & r & fs' & _ & Hrun & Hpath & Hcases).
  exists r, fs'. split; [exact Hrun |].
  unfold DataValidator.validateOptimizationResult.
  destruct (DataValidator.blank (originalPath r)); [intros H; discriminate H |].
  destruct (DataValidator.blank (optimizedPath r)) eqn:Hblank;
    [intros H; discriminate H |].
  destruct (originalSize r <=? 0) eqn:Horiginal; [intros H; discriminate H |].
  destruct (optimizedSize r <=? 0) eqn:Hoptimized; [intros H; discriminate H |].
  intros _. apply Z.leb_gt in Horiginal, Hoptimized.
  destruct Hcases as [(_ & -> & _)
                     | [(_ & _ & _ & _ & Hzero)
                       | (_ & Hout & Hstatus & input & encoded & Hinput & ->
                          & Hsize & Hosize)]].
  - cbn in Hblank. discriminate.
  - lia.
  - split; [destruct Hstatus as [[-> _] | [-> _]]; discriminate |].
    split; [exact Hout |].
    unfold fs_stat. rewrite lookup_insert_eq, <- Hosize. auto.
Qed.

End Items.


(** ** Progress reporting *)

Section Reporter.
Import ProgressReporter.

(** The updates of a batch: each result with the file name shown for it
    and the reading of the clock; what drawing the bar throws is left to
    the caller. *)
Local Abbreviation feed P reporter updates :=
  (fold_left
     (fun (current : ProgressReporter.t)
          (update : OptimizationResult * string * Z) =>
        (updateProgress P current update.1.1 update.1.2 update.2).2)
     updates reporter).

Lemma feed_active P updates reporter :
  isActive reporter = true ->
  isActive (feed P reporter updates) = true
  /\ processedFiles (feed P reporter updates)
     = processedFiles reporter + Z.of_nat (length updates)
  /\ totalFiles (feed P reporter updates) = totalFiles reporter
  /\ startTime (feed P reporter updates) = startTime reporter
  /\ results (feed P reporter updates)
     = (results reporter ++ map (fun update => update.1.1) updates)%list.
Proof.
  revert reporter. induction updates as [| [[r filename] time] updates IH];
    intros reporter Hactive.
  - cbn. rewrite app_nil_r. repeat split; auto; lia.
  - cbn [fold_left fst snd length map].
    destruct (updateProgress_state P reporter r filename time Hactive)
      as (Ha & Hp & Ht & Hs & Hr).
    destruct (IH _ Ha) as (Ha' & Hp' & Ht' & Hs' & Hr').
    rewrite Hp', Ht', Hs', Hr', Hp, Ht, Hs, Hr, <- app_assoc.
    repeat split; auto; lia.
Qed.

Lemma status_counts (l : list OptimizationResult) :
  (length (List.filter (has_status success) l)
   + length (List.filter (has_status failed) l)
   + length (List.filter (has_status skipped) l))%nat
  = length l.
Proof.
  induction l as [| r l IH]; [reflexivity |].
  cbn [List.filter].
  destruct (has_status success r) eqn:H1, (has_status failed r) eqn:H2,
    (has_status skipped r) eqn:H3;
    unfold has_status in H1, H2, H3; destruct (status r);
    try discriminate; cbn [length]; lia.
Qed.

(** X7.  After [start] with a positive total and any number k of
    updates, the progress record shows k as current and the total given
    to [start]; its success, failure and skipped counts sum to k; the
    elapsed time is counted from the start.  While k is at most the
    total the percentage is within 0 to 100, and at k equal to the
    total it is 100 with no time remaining. *)
Theorem progress_statistics_add_up :
  forall P reporter0 total sourceDirectory startTime updates currentResult
         currentFile currentTime,
    1 <= total ->
    let reporter :=
      feed P (start reporter0 total sourceDirectory startTime) updates in
    let progress :=
      generateDetailedProgress reporter currentResult currentFile currentTime in
    let k := Z.of_nat (length updates) in
    p_current progress = k
    /\ p_total progress = total
    /\ p_successCount progress + p_failureCount progress
       + p_skippedCount progress = k
    /\ p_elapsedTime progress = currentTime - startTime
    /\ (k <= total -> 0 <= p_percentage progress <= 100)
    /\ (k = total ->
        p_percentage progress = 100
        /\ (p_estimatedTimeRemaining progress == 0)%Q).
Proof.
  intros P reporter0 total sourceDirectory startTime updates currentResult
    currentFile currentTime Htotal reporter progress k.
  destruct (feed_active P updates
              (start reporter0 total sourceDirectory startTime) eq_refl)
    as (_ & Hprocessed & Htotalfiles & Hstart & Hresults).
  fold reporter in Hprocessed, Htotalfiles, Hstart, Hresults.
  cbn [start processedFiles totalFiles ProgressReporter.startTime results app]
    in Hprocessed, Htotalfiles, Hstart, Hresults.
  rewrite Z.add_0_l in Hprocessed. fold k in Hprocessed.
  subst progress. unfold generateDetailedProgress.
  cbn [p_current p_total p_successCount p_failureCount p_skippedCount
       p_elapsedTime p_percentage p_estimatedTimeRemaining].
  rewrite Hprocessed, Htotalfiles, Hstart, Hresults.
  split; [reflexivity |]. split; [reflexivity |]. split.
  { pose proof (status_counts (map (fun update => update.1.1) updates))
      as Hcounts.
    rewrite length_map in Hcounts. subst k. lia. }
  split; [reflexivity |]. split.
  - intros Hk. apply percentage_bounds; [exact Htotal | subst k; lia].
  - intros Hk. rewrite Hk. split.
    + apply percentage_full, Htotal.
    + rewrite Z.sub_diag. change (inject_Z 0) with 0%Q. ring.
Qed.

Lemma progress_statistics_add_up_witness :
  1 <= 2
  /\ p_current
       (generateDetailedProgress
          (feed (Scenario.platform 50) (start (new None) 2 "src" 0)
             [(BatchProcessor.blank_result "src/a.txt" skipped "no image",
               "a.txt", 30)])
          (BatchProcessor.blank_result "src/a.txt" skipped "no image") "a.txt"
          40)
     = 1.
Proof.
  split; [lia |].
  exact (proj1 (progress_statistics_add_up (Scenario.platform 50) (new None)
                  2 "src" 0
                  [(BatchProcessor.blank_result "src/a.txt" skipped "no image",
                    "a.txt", 30)]
                  (BatchProcessor.blank_result "src/a.txt" skipped "no image") "a.txt"
          40 ltac:(lia))).
Defined.

(** X8.  [complete] on a reporter that was started and given updates
    returns a report that lists exactly the results of the updates, in
    their order, with the time since the start.  The reporter is
    inactive afterwards: further updates leave it unchanged, errors are
    not emitted, and a second [complete] throws "Progress reporter is
    not active". *)
Theorem reporter_stops_at_complete :
  forall P reporter0 total sourceDirectory startTime updates endTime,
  exists report finished,
    complete (feed P (start reporter0 total sourceDirectory startTime) updates)
      endTime
    = (Ok report, finished)
    /\ Types.results report = map (fun update => update.1.1) updates
    /\ totalImages report = Z.of_nat (length updates)
    /\ report_processingTime report = endTime - startTime
    /\ isReporting finished = false
    /\ (forall P' r filename currentTime,
           updateProgress P' finished r filename currentTime
           = (Ok [], finished))
    /\ (forall P' error filename,
           reportError P' finished error filename = Ok tt)
    /\ (forall now,
           complete finished now
           = (Throw "Progress reporter is not active", finished)).
Proof.
  intros P reporter0 total sourceDirectory startTime updates endTime.
  destruct (feed_active P updates
              (start reporter0 total sourceDirectory startTime) eq_refl)
    as (Hactive & _ & _ & Hstart & Hresults).
  cbn [start ProgressReporter.startTime results app] in Hstart, Hresults.
  unfold complete at 1. rewrite Hactive. cbn [negb].
  eexists _, _. split; [reflexivity |].
  unfold generateFinalReport.
  cbn [Types.results totalImages report_processingTime results
       ProgressReporter.startTime].
  rewrite Hresults, Hstart, length_map.
  repeat split.
Qed.

(** X9.  The console display of a progress record works while the
    number of processed files is within the total.  Once the processed
    files exceed the total by 2 percent or more, the percentage is at
    least 102, the length of the unfilled part of the bar is negative,
    and [displayConsoleProgress] throws the RangeError of
    [String.prototype.repeat].  In between the rounding of the double
    arithmetic decides: at 203 of 200 files the quotient 1.015 becomes
    101.49999999999999 percent, which shows as 101, and the bar is
    still drawn. *)
Theorem progress_display_breaks_beyond_the_total :
  forall P config self currentResult currentFile currentTime,
    1 <= totalFiles self ->
    let progress :=
      generateDetailedProgress self currentResult currentFile currentTime in
    (0 <= processedFiles self <= totalFiles self ->
     is_ok (displayConsoleProgress P config progress) = true)
    /\ (51 * totalFiles self <= 50 * processedFiles self ->
        exists count,
          count < 0
          /\ displayConsoleProgress P config progress
             = Throw ("Invalid count value: " +:+ Num.toString count))
    /\ (processedFiles self = 203 -> totalFiles self = 200 ->
        p_percentage progress = 101
        /\ is_ok (displayConsoleProgress P config progress) = true).
Proof.
  intros P config self currentResult currentFile currentTime Htotal progress.
  split; [| split].
  - intros Hk. apply displayConsoleProgress_draws.
    subst progress. unfold generateDetailedProgress. cbn [p_percentage].
    destruct (percentage_bounds _ _ Htotal Hk). lia.
  - intros Hk. apply displayConsoleProgress_overflows.
    subst progress. unfold generateDetailedProgress. cbn [p_percentage].
    apply percentage_beyond; assumption.
  - intros Hprocessed Hfiles.
    assert (Hpercentage : p_percentage progress = 101).
    { subst progress. unfold generateDetailedProgress. cbn [p_percentage].
      rewrite Hprocessed, Hfiles. vm_compute. reflexivity. }
    split; [exact Hpercentage |].
    apply displayConsoleProgress_draws. rewrite Hpercentage. lia.
Qed.

(** Two results recorded for a batch of one file. *)
Lemma progress_display_breaks_beyond_the_total_witness :
  exists count,
    count < 0
    /\ displayConsoleProgress (Scenario.platform 50) DEFAULT_PROGRESS_CONFIG
         (generateDetailedProgress
            {| emitter := EventEmitter.new;
               config := DEFAULT_PROGRESS_CONFIG;
               startTime := 0;
               lastUpdateTime := 0;
               processedFiles := 2;
               totalFiles := 1;
               results := [];
               processingTimes := [];
               isActive := true |}
            (BatchProcessor.blank_result "a.jpg" failed "no image") "a.jpg" 40)
       = Throw ("Invalid count value: " +:+ Num.toString count).
Proof.
  apply (progress_display_breaks_beyond_the_total (Scenario.platform 50)
           DEFAULT_PROGRESS_CONFIG
           {| emitter := EventEmitter.new;
              config := DEFAULT_PROGRESS_CONFIG;
              startTime := 0;
              lastUpdateTime := 0;
              processedFiles := 2;
              totalFiles := 1;
              results := [];
              processingTimes := [];
              isActive := true |}
           (BatchProcessor.blank_result "a.jpg" failed "no image") "a.jpg" 40);
    cbn; lia.
Defined.

End Reporter.


(** ** The pool of tasks: permits, order and written files *)

Section Flight.
Import BatchProcessor Invariant.
Variables (P : Platform) (self : t) (imageFiles : list string)
          (outputDirectory : string).

Lemma in_flight_app n t1 t2 :
  in_flight n (t1 ++ t2) = in_flight (in_flight n t1) t2.
Proof.
  revert n. induction t1 as [| [] t1 IH]; intros n; cbn; auto.
Qed.

Lemma peak_ge n tr : (n <= peak n tr)%nat.
Proof.
  revert n. induction tr as [| [] tr IH]; intros n; cbn; try lia.
  - specialize (IH (S n)). lia.
  - apply IH.
Qed.

Lemma peak_app n t1 t2 :
  peak n (t1 ++ t2) = Nat.max (peak n t1) (peak (in_flight n t1) t2).
Proof.
  revert n. induction t1 as [| [] t1 IH]; intros n; cbn.
  - pose proof (peak_ge n t2). lia.
  - apply IH.
  - apply IH.
  - rewrite IH. lia.
Qed.

Lemma in_flight_recorded n (recs : list Event) :
  Forall (fun e => exists i r, e = Recorded i r) recs ->
  in_flight n recs = n /\ peak n recs = n.
Proof.
  induction 1 as [| e recs (i & r & ->) _ IH]; cbn; auto.
Qed.

Lemma flight_bound k c pool :
  accounted k c pool ->
  (inject_Z (Z.of_nat (length (running pool))) < c + 1)%Q.
Proof. intros (Hsum & Hpos & _). lra. Qed.

Lemma peak_bound (c : Q) (a b n : nat) :
  (n <= Nat.max a b)%nat ->
  (inject_Z (Z.of_nat a) < c + 1)%Q -> (inject_Z (Z.of_nat b) < c + 1)%Q ->
  (inject_Z (Z.of_nat n) < c + 1)%Q.
Proof.
  intros Hn Ha Hb.
  destruct (Nat.max_spec a b) as [[_ Hmax] | [_ Hmax]]; rewrite Hmax in Hn.
  - eapply Qle_lt_trans; [| exact Hb]. rewrite <- Zle_Qle. lia.
  - eapply Qle_lt_trans; [| exact Ha]. rewrite <- Zle_Qle. lia.
Qed.

Lemma bounded_spawn k c pool :
  accounted k c pool -> bounded c pool -> bounded c (spawn pool k).
Proof.
  intros Haccounted [Hflight Hpeak].
  pose proof (flight_bound _ _ _ (accounted_spawn k c pool Haccounted)) as Hnew.
  revert Hnew. unfold bounded, spawn, Semaphore.acquire, push.
  destruct (Num.gt (Semaphore.permits (semaphore pool)) 0);
    cbn [running trace semaphore Semaphore.permits]; intros Hnew.
  - rewrite in_flight_app, peak_app, Hflight, length_app. cbn [in_flight peak length].
    split; [lia |]. rewrite length_app in Hnew. cbn [length] in Hnew.
    eapply peak_bound; [| exact Hpeak | exact Hnew]. lia.
  - auto.
Qed.

Lemma bounded_finish k c pool index :
  accounted k c pool -> index ∈ running pool -> bounded c pool ->
  bounded c (finish P self imageFiles outputDirectory index pool).
Proof.
  intros Haccounted Hin [Hflight Hpeak].
  pose proof (flight_bound _ _ _ Haccounted) as Hnow.
  destruct (finish_cases P self imageFiles outputDirectory index pool)
    as (r & fs' & outcome & recs & Hfinish & Hshape & _).
  rewrite Hfinish. clear Hfinish.
  destruct (finish_recorded index r recs Hshape) as (_ & _ & _ & _ & _ & Hrecorded).
  destruct (in_flight_recorded (length (running pool)) recs Hrecorded)
    as [Hsame Hsame'].
  assert (Hrunning : (0 < length (running pool))%nat).
  { destruct (running pool); [inversion Hin | cbn; lia]. }
  destruct Haccounted as (_ & _ & _ & Hnodup & _).
  apply NoDup_app in Hnodup. destruct Hnodup as [Hnodup _].
  destruct (others_spec (running pool) index Hnodup Hin) as (_ & _ & Hlength).
  unfold bounded. cbn [running trace].
  rewrite !in_flight_app, !peak_app, ?in_flight_app, Hflight, Hsame, Hsame'.
  destruct (Semaphore.release (semaphore pool)).1 as [j |];
    cbn [in_flight peak app length].
  - split.
    + unfold push. rewrite length_app. cbn [length]. lia.
    + eapply peak_bound; [| exact Hpeak | exact Hnow]. lia.
  - split; [lia |].
    eapply peak_bound; [| exact Hpeak | exact Hnow]. lia.
Qed.

Lemma step_in_running pool choice first others :
  running pool = first :: others ->
  nth (choice mod length (running pool))%nat (running pool) first ∈ running pool.
Proof.
  intros Hrunning. apply list_elem_of_In, nth_In, Nat.mod_upper_bound.
  rewrite Hrunning. discriminate.
Qed.

Lemma accounted_start (c : Q) fs state :
  (0 <= c)%Q ->
  accounted 0 c {| pool_fs := fs; pool_run := state;
                   semaphore := Semaphore.new c; running := [];
                   settled := ∅; trace := [] |}.
Proof.
  intros Hc. unfold accounted.
  cbn [semaphore running settled Semaphore.permits Semaphore.waitQueue
       Semaphore.new length app].
  split; [change (inject_Z (Z.of_nat 0)) with 0%Q; lra |].
  split; [lra |]. split; [congruence |].
  split; [apply NoDup_nil_2 |]. split.
  - intros i. split; [| lia].
    intros [Hi | Hi]; [inversion Hi |].
    rewrite lookup_empty in Hi. destruct Hi. discriminate.
  - intros i Hi. inversion Hi.
Qed.

Lemma bounded_run (c : Q) (schedule : list nat) fs state :
  (0 <= c)%Q ->
  let pool :=
    (processImagesInParallel P self imageFiles outputDirectory c schedule fs
       state).2 in
  accounted (length imageFiles) c pool /\ bounded c pool.
Proof.
  intros Hc.
  assert (Hpool : exists pool0,
             (processImagesInParallel P self imageFiles outputDirectory c
                schedule fs state).2
             = fold_left (step P self imageFiles outputDirectory) schedule
                 (fold_left spawn (seq 0 (length imageFiles)) pool0)
             /\ accounted 0 c pool0 /\ bounded c pool0).
  { eexists. split; [| split; [apply (accounted_start c fs state Hc) |]].
    - unfold processImagesInParallel.
      destruct (allSettled _ _) as [outcomes |]; [| reflexivity].
      destruct (negb _); [| reflexivity].
      destruct (List.filter _ _) as [| [| e] rest]; reflexivity.
    - split; [reflexivity |]. cbn [trace peak].
      change (inject_Z (Z.of_nat 0)) with 0%Q. lra. }
  destruct Hpool as (pool0 & -> & Haccounted0 & Hbounded0).
  assert (Hspawned : accounted (length imageFiles) c
                       (fold_left spawn (seq 0 (length imageFiles)) pool0)
                     /\ bounded c
                          (fold_left spawn (seq 0 (length imageFiles)) pool0)).
  { induction (length imageFiles) as [| k IH]; [cbn; auto |].
    rewrite seq_S, fold_left_app. cbn [fold_left plus].
    destruct IH as [Ha Hb].
    split; [apply accounted_spawn, Ha | apply (bounded_spawn k), Hb; exact Ha]. }
  destruct Hspawned as [Ha Hb].
  revert Ha Hb.
  generalize (fold_left spawn (seq 0 (length imageFiles)) pool0) as pool.
  induction schedule as [| choice schedule IH]; intros pool Ha Hb; [cbn; auto |].
  cbn [fold_left]. apply IH; unfold step;
    destruct (running pool) as [| first others] eqn:Hrunning; auto;
    rewrite <- Hrunning.
  - apply accounted_finish; [exact Ha |].
    eapply step_in_running; exact Hrunning.
  - eapply bounded_finish; [exact Ha | | exact Hb].
    eapply step_in_running; exact Hrunning.
Qed.

(** The items are started in the order of the list: those started so
    far and those still waiting make up the list of all of them. *)
Lemma started_indices_app t1 t2 :
  started_indices (t1 ++ t2) = (started_indices t1 ++ started_indices t2)%list.
Proof. apply flat_map_app. Qed.

Lemma queue_spawn k pool :
  (Semaphore.waitQueue (semaphore pool) <> [] ->
   (Semaphore.permits (semaphore pool) <= 0)%Q) ->
  (started_indices (trace pool) ++ Semaphore.waitQueue (semaphore pool))%list
  = seq 0 k ->
  (Semaphore.waitQueue (semaphore (spawn pool k)) <> [] ->
   (Semaphore.permits (semaphore (spawn pool k)) <= 0)%Q)
  /\ (started_indices (trace (spawn pool k))
      ++ Semaphore.waitQueue (semaphore (spawn pool k)))%list
     = seq 0 (S k).
Proof.
  intros Hfull Horder. unfold spawn, Semaphore.acquire, push.
  destruct (gt_spec (Semaphore.permits (semaphore pool)) 0)
    as [[-> Hpermits] | [-> Hpermits]];
    cbn [semaphore trace Semaphore.waitQueue Semaphore.permits].
  - destruct (Semaphore.waitQueue (semaphore pool)) as [| j queue] eqn:Hqueue.
    + split; [congruence |].
      rewrite seq_S, <- Horder, started_indices_app, !app_nil_r.
      reflexivity.
    + exfalso. assert ((Semaphore.permits (semaphore pool) <= 0)%Q)
        by (apply Hfull; discriminate). lra.
  - split; [auto |].
    rewrite seq_S, <- Horder, app_assoc. reflexivity.
Qed.

Lemma queue_finish k pool index :
  (Semaphore.waitQueue (semaphore pool) <> [] ->
   (Semaphore.permits (semaphore pool) <= 0)%Q) ->
  (started_indices (trace pool) ++ Semaphore.waitQueue (semaphore pool))%list
  = seq 0 k ->
  let pool' := finish P self imageFiles outputDirectory index pool in
  (Semaphore.waitQueue (semaphore pool') <> [] ->
   (Semaphore.permits (semaphore pool') <= 0)%Q)
  /\ (started_indices (trace pool') ++ Semaphore.waitQueue (semaphore pool'))%list
     = seq 0 k.
Proof.
  intros Hfull Horder pool'. subst pool'.
  destruct (finish_cases P self imageFiles outputDirectory index pool)
    as (r & fs' & outcome & recs & -> & Hrecs & _).
  cbn [semaphore trace].
  assert (Hrecorded : started_indices recs = []).
  { destruct Hrecs as [-> | [r' ->]]; reflexivity. }
  rewrite !started_indices_app, Hrecorded. cbn [app started_indices flat_map].
  unfold Semaphore.release.
  destruct (Semaphore.waitQueue (semaphore pool)) as [| j queue] eqn:Hqueue;
    cbn [fst snd Semaphore.waitQueue Semaphore.permits].
  - split; [congruence |]. rewrite !app_nil_r in *. exact Horder.
  - split.
    + intros _. assert ((Semaphore.permits (semaphore pool) <= 0)%Q)
        by (apply Hfull; discriminate). lra.
    + cbn. rewrite <- Horder, <- app_assoc. reflexivity.
Qed.


Lemma processImagesInParallel_pool (c : Q) (schedule : list nat) fs state :
  let ended :=
    processImagesInParallel P self imageFiles outputDirectory c schedule fs
      state in
  ended.2
  = fold_left (step P self imageFiles outputDirectory) schedule
      (fold_left spawn (seq 0 (length imageFiles))
         {| pool_fs := fs; pool_run := state;
            semaphore := Semaphore.new c; running := [];
            settled := ∅; trace := [] |})
  /\ (is_Some ended.1 -> is_Some (allSettled ended.2 (length imageFiles))).
Proof.
  unfold processImagesInParallel.
  destruct (allSettled _ _) as [outcomes |] eqn:Hsettled.
  - destruct (negb _);
      [destruct (List.filter _ _) as [| [| e] rest] |];
      cbn [fst snd]; rewrite Hsettled; eauto.
  - cbn [fst snd]. split; [reflexivity |]. intros [? ?]. discriminate.
Qed.

Lemma started_in_order :
  forall (c : Q) (schedule : list nat) (fs : FileSystem) (state : RunState),
    let ended :=
      processImagesInParallel P self imageFiles outputDirectory c schedule fs
        state in
    (started_indices (trace ended.2) ++ Semaphore.waitQueue (semaphore ended.2))%list
    = seq 0 (length imageFiles)
    /\ ((0 <= c)%Q -> is_Some ended.1 ->
        started_indices (trace ended.2) = seq 0 (length imageFiles)).
Proof.
  intros c schedule fs state ended.
  destruct (processImagesInParallel_pool c schedule fs state)
    as [Hpool Hsettled].
  fold ended in Hpool, Hsettled.
  assert (Horder :
            (Semaphore.waitQueue (semaphore ended.2) <> [] ->
             (Semaphore.permits (semaphore ended.2) <= 0)%Q)
            /\ (started_indices (trace ended.2)
                ++ Semaphore.waitQueue (semaphore ended.2))%list
               = seq 0 (length imageFiles)).
  { rewrite Hpool. clear Hpool Hsettled ended.
    set (pool0 := {| pool_fs := fs; pool_run := state;
                     semaphore := Semaphore.new c; running := [];
                     settled := ∅; trace := [] |}).
    assert (Hspawned :
              (Semaphore.waitQueue
                 (semaphore (fold_left spawn (seq 0 (length imageFiles)) pool0))
               <> [] ->
               (Semaphore.permits
                  (semaphore (fold_left spawn (seq 0 (length imageFiles)) pool0))
                <= 0)%Q)
              /\ (started_indices
                    (trace (fold_left spawn (seq 0 (length imageFiles)) pool0))
                  ++ Semaphore.waitQueue
                       (semaphore
                          (fold_left spawn (seq 0 (length imageFiles)) pool0)))%list
                 = seq 0 (length imageFiles)).
    { induction (length imageFiles) as [| k IH]; [cbn; split; congruence |].
      replace (fold_left spawn (seq 0 (S k)) pool0)
        with (spawn (fold_left spawn (seq 0 k) pool0) k)
        by (rewrite seq_S, fold_left_app; reflexivity).
      destruct IH as [Hfull IH]. apply queue_spawn; assumption. }
    revert Hspawned.
    generalize (fold_left spawn (seq 0 (length imageFiles)) pool0) as pool.
    induction schedule as [| choice schedule IH]; intros pool [Hfull Horder];
      [cbn; auto |].
    cbn [fold_left]. apply IH. unfold step.
    destruct (running pool); [auto |]. apply queue_finish; assumption. }
  split; [exact (proj2 Horder) |].
  intros Hc Hsome. specialize (Hsettled Hsome).
  destruct (bounded_run c schedule fs state Hc) as [Haccounted _].
  fold ended in Haccounted.
  destruct (Semaphore.waitQueue (semaphore ended.2)) as [| j queue] eqn:Hqueue.
  - rewrite <- (proj2 Horder), app_nil_r. reflexivity.
  - exfalso.
    destruct Haccounted as (_ & _ & _ & _ & Hcover & Hunsettled).
    assert (Hj : j ∈ (running ended.2 ++ Semaphore.waitQueue (semaphore ended.2))%list).
    { rewrite Hqueue. apply elem_of_app. right. left. }
    pose proof (Hunsettled j Hj) as Hnone.
    assert (Hlt : (j < length imageFiles)%nat) by (apply Hcover; auto).
    unfold allSettled in Hsettled. apply mapM_is_Some in Hsettled.
    rewrite Forall_forall in Hsettled.
    assert (Hin : j ∈ seq 0 (length imageFiles)) by (apply elem_of_seq; lia).
    specialize (Hsettled j Hin). cbn in Hsettled.
    rewrite Hnone in Hsettled. destruct Hsettled. discriminate.
Qed.




End Flight.

Section Runs.
Import BatchProcessor.

(** The processor of the default configuration. *)
Lemma default_processor :
  exists p,
    Scenario.processor None = Some p
    /\ ConfigManager.getConcurrency (configManager p) = 4%Q.
Proof. eexists. split; vm_compute; reflexivity. Qed.

(** The trace of a run is the trace of its pool, or empty. *)
Lemma processDirectory_trace P self files sourceDirectory outputDirectory
    progressConfig startTime endTime schedule fs :
  exists state,
    let ended :=
      processImagesInParallel P self files outputDirectory
        (ConfigManager.getConcurrency (configManager self)) schedule fs state in
    let whole :=
      processDirectory P self (Ok files) sourceDirectory outputDirectory
        progressConfig startTime endTime schedule fs in
    (files = [] /\ whole.2 = [] /\ whole.1.2 = fs /\ is_Some whole.1.1.1)
    \/ (files <> [] /\ whole.2 = trace ended.2
        /\ (is_Some whole.1.1.1 -> is_Some ended.1)
        /\ (whole.1.2 = pool_fs ended.2
            \/ exists report,
                 whole.1.2
                 = (saveProcessingArtifacts P self files outputDirectory
                      report (pool_fs ended.2)).2)).
Proof.
  exists {| run_results := [];
            run_processedFiles := 0;
            run_reporter :=
              ProgressReporter.start
                match progressConfig with
                | Some _ =>
                    ProgressReporter.updateConfig (progressReporter self)
                      progressConfig
                | None => progressReporter self
                end
                (Z.of_nat (length files)) sourceDirectory startTime |}.
  unfold processDirectory.
  destruct files as [| file files'].
  { left. cbn. eauto. }
  cbn [length Nat.eqb]. right. split; [discriminate |].
  cbv zeta.
  match goal with
  | |- context [processImagesInParallel ?P ?p ?l ?out ?c ?s ?fs ?st] =>
      destruct (processImagesInParallel P p l out c s fs st)
        as [outcome pool]
  end.
  cbn [fst snd].
  destruct outcome as [[report | message] |]; cbn [fst snd].
  - destruct (ProgressReporter.complete _ _) as [[report' | message] reporter];
      cbn [fst snd].
    + split; [reflexivity |]. split; [eauto |].
      destruct (generateReport _); eauto.
    + split; [reflexivity |]. split; eauto.
  - split; [reflexivity |]. split; eauto.
  - split; [reflexivity |]. split; [| eauto]. intros [? Habs]. discriminate Habs.
Qed.

(** One and a half permits let two tasks start. *)
Lemma fractional_permits (fs : FileSystem) (state : RunState) :
  running
    (fold_left spawn (seq 0 3)
       {| pool_fs := fs; pool_run := state;
          semaphore := Semaphore.new (3 # 2); running := [];
          settled := ∅; trace := [] |})
  = [0; 1]%nat.
Proof. reflexivity. Qed.

(** X10.  A run of [processDirectory] never has more calls of
    [processImage] in flight than the configured concurrency, rounded
    up to an integer, whatever the files are and in whatever order the
    calls finish: the count of started and not yet settled tasks,
    followed along the trace of the run, peaks at or below it.  The
    concurrency is any number that is not negative: the semaphore hands
    out a permit as long as its count is above zero, so that a
    concurrency of 1.5 lets two calls run at a time. *)
Theorem concurrency_limit_is_respected :
  forall P self scanned sourceDirectory outputDirectory progressConfig
         startTime endTime schedule fs,
    (0 <= ConfigManager.getConcurrency (configManager self))%Q ->
    Z.of_nat
      (peak 0
         (processDirectory P self scanned sourceDirectory outputDirectory
            progressConfig startTime endTime schedule fs).2)
    <= Qceiling (ConfigManager.getConcurrency (configManager self)).
Proof.
  intros P self scanned sourceDirectory outputDirectory progressConfig
    startTime endTime schedule fs Hc.
  pose proof (Qle_ceiling (ConfigManager.getConcurrency (configManager self)))
    as Hceiling.
  assert (Hzero : 0 <= Qceiling (ConfigManager.getConcurrency (configManager self))).
  { rewrite Zle_Qle. change (inject_Z 0) with 0%Q. lra. }
  destruct scanned as [files | message]; [| exact Hzero].
  destruct (processDirectory_trace P self files sourceDirectory outputDirectory
              progressConfig startTime endTime schedule fs) as [state Hrun].
  cbv zeta in Hrun.
  destruct Hrun as [(_ & -> & _) | (_ & -> & _)]; [exact Hzero |].
  destruct (bounded_run P self files outputDirectory _ schedule fs state Hc)
    as [_ [_ Hpeak]].
  apply Z.lt_succ_r. rewrite Zlt_Qlt. unfold Z.succ. rewrite inject_Z_plus.
  change (inject_Z 1) with 1%Q. lra.
Qed.

Lemma concurrency_limit_is_respected_witness :
  exists p,
    Scenario.processor None = Some p
    /\ Z.of_nat
         (peak 0
            (processDirectory (Scenario.platform 50) p
               (Ok ["src/valid.jpg"; "src/invalid.jpg"]) "src" "out" None 0 100
               [1; 0]%nat Scenario.source).2)
       <= Qceiling (ConfigManager.getConcurrency (configManager p)).
Proof.
  destruct default_processor as (p & Hp & Hc).
  exists p. split; [exact Hp |].
  apply concurrency_limit_is_respected. rewrite Hc. discriminate.
Defined.

(** X11.  The calls of [processImage] of a run start in the order of
    the file list, each file at most once: the started items are
    always an initial part of the list.  When the run returns, with a
    report or an error, and the configured concurrency is not negative,
    every file of the list was started. *)
Theorem items_start_once_in_order :
  forall P self files sourceDirectory outputDirectory progressConfig
         startTime endTime schedule fs,
    let ended :=
      processDirectory P self (Ok files) sourceDirectory outputDirectory
        progressConfig startTime endTime schedule fs in
    started_indices ended.2 `prefix_of` seq 0 (length files)
    /\ ((0 <= ConfigManager.getConcurrency (configManager self))%Q ->
        is_Some ended.1.1.1 ->
        started_indices ended.2 = seq 0 (length files)).
Proof.
  intros P self files sourceDirectory outputDirectory progressConfig
    startTime endTime schedule fs ended. subst ended.
  destruct (processDirectory_trace P self files sourceDirectory outputDirectory
              progressConfig startTime endTime schedule fs) as [state Hrun].
  cbv zeta in Hrun.
  destruct Hrun as [(-> & -> & _) | (_ & -> & Hreturned & _)].
  { cbn. split; [exists []; reflexivity | reflexivity]. }
  pose proof (started_in_order P self files outputDirectory
                (ConfigManager.getConcurrency (configManager self)) schedule fs
                state) as Horder.
  cbv zeta in Horder. destruct Horder as [Hprefix Hall].
  split.
  - eexists. symmetry. exact Hprefix.
  - intros Hc Hsome. apply Hall; [exact Hc | apply Hreturned, Hsome].
Qed.

(** X30.  A run whose scan of the source fails, or finds no supported
    image, throws; in the second case the error is "No supported image
    files found in" the source directory.  It starts no task and writes
    nothing.  The error carries the prefix "Batch processing failed: "
    only when an error listener is registered on the processor: without
    one, emitting the error event throws the bare error first. *)
Theorem runs_without_images_fail :
  forall P self sourceDirectory outputDirectory progressConfig startTime
         endTime schedule fs,
    let reported message :=
      if EventEmitter.errorListener (emitter self)
      then "Batch processing failed: " +:+ message
      else message in
    (forall message,
        processDirectory P self (Throw message) sourceDirectory outputDirectory
          progressConfig startTime endTime schedule fs
        = (Some (Throw (reported message)), self, fs, []))
    /\ processDirectory P self (Ok []) sourceDirectory outputDirectory
         progressConfig startTime endTime schedule fs
       = (Some (Throw (reported ("No supported image files found in "
                                 +:+ sourceDirectory))),
          self, fs, []).
Proof.
  intros P self sourceDirectory outputDirectory progressConfig startTime
    endTime schedule fs reported.
  subst reported. unfold processDirectory, fail, EventEmitter.emit_error.
  cbn [length Nat.eqb].
  destruct (EventEmitter.errorListener (emitter self)); split; reflexivity.
Qed.





End Runs.


(** ** Quality decisions and quality reports *)

Section BatchQuality.
Import ImageContentAnalyzer DynamicQualityCalculator.

Lemma calculateOptimalQuality_cases self fs imagePath strategy :
  (exists message,
      calculateOptimalQuality self fs imagePath strategy = Throw message)
  \/ (exists decision,
         calculateOptimalQuality self fs imagePath strategy = Ok decision
         /\ minimumQuality self <= quality decision
         /\ DynamicQualityCalculator.strategy decision
            = default (DynamicQualityCalculator.strategy decision) strategy).
Proof.
  destruct (analyzeImageContent fs imagePath) as [analysis | message] eqn:H.
  - right. rewrite (calculateOptimalQuality_analysis _ _ _ _ _ H). cbv zeta.
    eexists. split; [reflexivity |]. cbn [quality DynamicQualityCalculator.strategy].
    split; [lia |]. destruct strategy; reflexivity.
  - left. unfold calculateOptimalQuality. rewrite H. cbn. eauto.
Qed.

Lemma calculateBatchQuality_loop_spec self fs imagePaths strategy results :
  exists entries,
    calculateBatchQuality_loop self fs imagePaths strategy results
    = Ok (results ++ entries)%list
    /\ map b_imagePath entries = imagePaths
    /\ Forall (fun entry =>
                 minimumQuality self <= b_quality entry
                 /\ b_strategy entry = default (b_strategy entry) strategy)
         entries
    /\ Forall2 (fun imagePath entry =>
                  is_ok (calculateOptimalQuality self fs imagePath strategy)
                  = false ->
                  b_quality entry = minimumQuality self
                  /\ b_contentType entry = mixed
                  /\ b_strategy entry = default balanced strategy)
         imagePaths entries.
Proof.
  revert results. induction imagePaths as [| imagePath rest IH]; intros results.
  - exists []. cbn. rewrite app_nil_r. repeat split; constructor.
  - cbn [calculateBatchQuality_loop].
    destruct (calculateOptimalQuality_cases self fs imagePath strategy)
      as [[message Hthrow] | (decision & Hok & Hfloor & Hstrategy)].
    + rewrite Hthrow. cbn [bind try_catch].
      destruct (IH (push results
                      {| b_imagePath := imagePath;
                         b_quality := minimumQuality self;
                         b_strategy := default balanced strategy;
                         b_reasoning :=
                           "Failed to analyze image, using minimum quality ("
                           +:+ Num.toString (minimumQuality self) +:+ "%)";
                         b_contentType := mixed |}))
        as (entries & -> & Hpaths & Hfloors & Hfailed).
      eexists (_ :: entries). unfold push. rewrite <- app_assoc.
      split; [reflexivity |]. cbn [map b_imagePath]. rewrite Hpaths.
      split; [reflexivity |]. split.
      * constructor; [| exact Hfloors]. cbn. split; [lia |].
        destruct strategy; reflexivity.
      * constructor; [| exact Hfailed]. cbn. auto.
    + rewrite Hok. cbn [bind try_catch].
      destruct (IH (push results
                      {| b_imagePath := imagePath;
                         b_quality := quality decision;
                         b_strategy := DynamicQualityCalculator.strategy decision;
                         b_reasoning := reasoning decision;
                         b_contentType :=
                           DynamicQualityCalculator.contentType decision |}))
        as (entries & -> & Hpaths & Hfloors & Hfailed).
      eexists (_ :: entries). unfold push. rewrite <- app_assoc.
      split; [reflexivity |]. cbn [map b_imagePath]. rewrite Hpaths.
      split; [reflexivity |]. split.
      * constructor; [| exact Hfloors]. cbn. auto.
      * constructor; [| exact Hfailed]. rewrite Hok. intros H. discriminate H.
Qed.

(** X13.  [calculateBatchQuality] never throws and returns one entry
    for each path, in the order of the paths.  No entry has a quality
    below the calculator's minimum, and each has the strategy that was
    asked for, when one was.  A path whose image cannot be analysed gets
    the minimum quality, the content type [mixed] and the strategy asked
    for, or [balanced]. *)
Theorem batch_quality_covers_every_path :
  forall self fs imagePaths strategy,
  exists entries,
    calculateBatchQuality self fs imagePaths strategy = Ok entries
    /\ map b_imagePath entries = imagePaths
    /\ Forall (fun entry =>
                 minimumQuality self <= b_quality entry
                 /\ forall s, strategy = Some s -> b_strategy entry = s)
         entries
    /\ Forall2 (fun imagePath entry =>
                  is_ok (calculateOptimalQuality self fs imagePath strategy)
                  = false ->
                  b_quality entry = minimumQuality self
                  /\ b_contentType entry = mixed
                  /\ b_strategy entry = default balanced strategy)
         imagePaths entries.
Proof.
  intros self fs imagePaths strategy.
  destruct (calculateBatchQuality_loop_spec self fs imagePaths strategy [])
    as (entries & Hrun & Hpaths & Hfloors & Hfailed).
  exists entries. split; [exact Hrun |]. split; [exact Hpaths |].
  split; [| exact Hfailed].
  eapply Forall_impl; [exact Hfloors |].
  intros entry [Hfloor Hstrategy]. split; [exact Hfloor |].
  intros s ->. exact Hstrategy.
Qed.




End BatchQuality.

Section Thresholds.
Import QualityValidator.


End Thresholds.


Section QualityReport.
Import QualityValidator.

(** How often [issue] occurs in a list of issues. *)
Local Abbreviation occurrences issue all :=
  (Z.of_nat (length (List.filter (String.eqb issue) all))).

Lemma countIssue_fold (all : list string) (counts : gmap string Z) :
  (forall issue n, counts !! issue = Some n -> 0 < n) ->
  (forall issue n,
      fold_left countIssue all counts !! issue = Some n -> 0 < n)
  /\ forall issue,
       or_default (fold_left countIssue all counts !! issue) 0
       = or_default (counts !! issue) 0 + occurrences issue all.
Proof.
  revert counts. induction all as [| a all IH]; intros counts Hpositive.
  - cbn. split; [exact Hpositive | intros; lia].
  - cbn [fold_left].
    assert (Hnonnegative : forall issue, 0 <= or_default (counts !! issue) 0).
    { intros issue. unfold or_default.
      destruct (counts !! issue) as [n |] eqn:Hn; [| lia].
      specialize (Hpositive _ _ Hn). destruct (n =? 0); lia. }
    assert (Hpositive' : forall issue n,
               countIssue counts a !! issue = Some n -> 0 < n).
    { intros issue n. unfold countIssue.
      destruct (decide (a = issue)) as [-> | Hne].
      - rewrite lookup_insert_eq. intros H. inversion H.
        specialize (Hnonnegative issue). lia.
      - rewrite lookup_insert_ne by exact Hne. apply Hpositive. }
    destruct (IH _ Hpositive') as [Hp Hcount]. split; [exact Hp |].
    intros issue. rewrite Hcount. unfold countIssue at 1.
    cbn [List.filter].
    destruct (String.eqb_spec issue a) as [-> | Hne].
    + rewrite lookup_insert_eq. cbn [length].
      unfold or_default at 1.
      specialize (Hnonnegative a).
      destruct (Z.eqb_spec (or_default (counts !! a) 0 + 1) 0); lia.
    + rewrite lookup_insert_ne by congruence. lia.
Qed.

Lemma commonIssues_flat (results : list ValidationResult) counts :
  fold_left
    (fun commonIssues result =>
       fold_left countIssue (issues (validation result)) commonIssues)
    results counts
  = fold_left countIssue
      (concat (map (fun r => issues (validation r)) results)) counts.
Proof.
  revert counts. induction results as [| r results IH]; intros counts;
    [reflexivity |].
  cbn [fold_left map concat]. rewrite fold_left_app. apply IH.
Qed.

Lemma filter_length_le {A : Type} (p : A -> bool) (l : list A) :
  (length (List.filter p l) <= length l)%nat.
Proof.
  induction l as [| a l IH]; cbn; [lia |]. destruct (p a); cbn; lia.
Qed.

(** X16.  [generateQualityReport] counts under [commonIssues] how many
    times each issue occurs in all the validations together, and has
    no entry for an issue that does not occur; the valid images are at
    most the total, which is the number of validations.  This is for
    issues that are not names of members of [Object.prototype], which
    the plain object used for the counts would show as present already.
    For no validations at all the averages are 0 and the compression
    ratio is 1. *)
Theorem quality_report_counts_each_issue :
  forall results,
    let all := concat (map (fun r => issues (validation r)) results) in
    forallb (fun issue => negb (Str.includes inherited issue)) all = true ->
    let report := generateQualityReport results in
    (forall issue,
        commonIssues report !! issue
        = if occurrences issue all =? 0 then None
          else Some (occurrences issue all))
    /\ r_totalImages report = Z.of_nat (length results)
    /\ 0 <= validImages report <= r_totalImages report
    /\ (results = [] ->
        (averageQualityScore report == 0)%Q
        /\ (thresholdCompliance report == 0)%Q
        /\ (o_averageCompressionRatio (overallMetrics report) == 1)%Q).
Proof.
  intros results all _ report. split; [| split; [| split]].
  - intros issue. subst report. unfold generateQualityReport.
    cbn [commonIssues]. rewrite commonIssues_flat. fold all.
    destruct (countIssue_fold all ∅) as [Hpositive Hcount].
    { intros i n H. rewrite lookup_empty in H. discriminate H. }
    specialize (Hcount issue). rewrite lookup_empty in Hcount.
    cbn [or_default] in Hcount. rewrite Z.add_0_l in Hcount.
    destruct (fold_left countIssue all ∅ !! issue) as [n |] eqn:Hn.
    + specialize (Hpositive _ _ Hn). unfold or_default in Hcount.
      destruct (Z.eqb_spec n 0); [lia |]. rewrite <- Hcount.
      destruct (Z.eqb_spec n 0); [lia | reflexivity].
    + cbn [or_default] in Hcount. rewrite <- Hcount. reflexivity.
  - reflexivity.
  - subst report. unfold generateQualityReport.
    cbn [validImages r_totalImages].
    pose proof (filter_length_le (fun r => isValid (validation r)) results).
    lia.
  - intros ->. cbn. repeat split; reflexivity.
Qed.

(** The same oversized output validated twice. *)
Lemma quality_report_counts_each_issue_witness :
  exists verdict,
    issues verdict = ["Output file is 100.0% larger than original"]
    /\ forall issue,
         commonIssues
           (generateQualityReport
              [ {| imagePath := "out/valid.webp"; validation := verdict |};
                {| imagePath := "out/valid.webp"; validation := verdict |} ])
         !! issue
         = if occurrences issue
                (concat
                   (map (fun r => issues (validation r))
                      [ {| imagePath := "out/valid.webp";
                           validation := verdict |};
                        {| imagePath := "out/valid.webp";
                           validation := verdict |} ]))
              =? 0
           then None
           else Some
                  (occurrences issue
                     (concat
                        (map (fun r => issues (validation r))
                           [ {| imagePath := "out/valid.webp";
                                validation := verdict |};
                             {| imagePath := "out/valid.webp";
                                validation := verdict |} ]))).
Proof.
  destruct oversized_output_is_invalid
    as (_ & _ & _ & _ & _ & verdict & _ & _ & _ & _ & _ & _ & _ & _ & Hissues).
  exists verdict. split; [exact Hissues |].
  refine (proj1 (quality_report_counts_each_issue
                   [ {| imagePath := "out/valid.webp"; validation := verdict |};
                     {| imagePath := "out/valid.webp"; validation := verdict |} ]
                   _)).
  cbn [map concat validation app]. rewrite Hissues. reflexivity.
Defined.

End QualityReport.


Section Checks.
Import QualityValidator.

Lemma pushed_empty {A : Type} (b : bool) (l : list A) (x : A) :
  length (if b then push l x else l) = 0%nat -> b = false /\ l = [].
Proof.
  destruct b.
  - unfold push. rewrite length_app. cbn. lia.
  - intros H. split; [reflexivity | apply length_zero_iff_nil, H].
Qed.

Lemma validateFileIntegrity_valid fs imagePath integrity :
  validateFileIntegrity fs imagePath = Ok integrity ->
  i_isValid integrity = true ->
  is_ok (sharp_metadata (sharp fs imagePath)) = true
  /\ exists size, fs_stat fs imagePath = Ok size /\ size <> 0.
Proof.
  unfold validateFileIntegrity.
  destruct (fs_pathExists fs imagePath); cbn [negb try_catch];
    [| intros H; inversion H; subst; intros Habs; discriminate Habs].
  destruct (sharp_metadata (sharp fs imagePath)) as [metadata | e];
    cbn [bind try_catch];
    [| intros H; inversion H; subst; intros Habs; discriminate Habs].
  destruct (fs_stat fs imagePath) as [size | e]; cbn [bind try_catch];
    [| intros H; inversion H; subst; intros Habs; discriminate Habs].
  destruct (Z.eqb_spec size 0); cbn [try_catch];
    intros H; inversion H; subst; intros Habs; try discriminate Habs.
  split; [reflexivity |]. eauto.
Qed.

(** X17.  A verdict of [validateOutputQuality] that is valid has no
    issues and meets the threshold: its quality score is at least the
    minimum quality threshold, the quality loss is at most 30, the
    structural similarity at least 0.8, the optimized file exists, is
    not empty and can be decoded, and its size is at most the original
    size times the maximum size increase. *)
Theorem valid_output_passed_every_check :
  forall P self fs originalPath optimizedPath targetQuality verdict,
    validateOutputQuality P self fs originalPath optimizedPath targetQuality
    = Ok verdict ->
    isValid verdict = true ->
    issues verdict = []
    /\ meetsThreshold verdict = true
    /\ (inject_Z (minimumQualityThreshold self) <= v_qualityScore verdict)%Q
    /\ (m_qualityLoss (metrics verdict) <= 30)%Q
    /\ (0.8 <= m_structuralSimilarity (metrics verdict))%Q
    /\ is_ok (sharp_metadata (sharp fs optimizedPath)) = true
    /\ exists originalSize optimizedSize,
         fs_stat fs originalPath = Ok originalSize
         /\ fs_stat fs optimizedPath = Ok optimizedSize
         /\ optimizedSize <> 0
         /\ (inject_Z optimizedSize
             <= inject_Z originalSize * maximumSizeIncrease self)%Q.
Proof.
  intros P self fs originalPath optimizedPath targetQuality verdict.
  unfold validateOutputQuality.
  destruct (fs_stat fs originalPath) as [originalSize | e] eqn:Horiginal;
    cbn [bind try_catch];
    [| intros H; inversion H; subst; intros Habs; discriminate Habs].
  destruct (fs_stat fs optimizedPath) as [optimizedSize | e] eqn:Hoptimized;
    cbn [bind try_catch];
    [| intros H; inversion H; subst; intros Habs; discriminate Habs].
  cbv zeta.
  pose proof (calculateQualityMetrics_ok P fs originalPath optimizedPath) as Hm.
  destruct (calculateQualityMetrics P fs originalPath optimizedPath)
    as [qualityMetrics | e]; [| discriminate Hm].
  cbn [bind try_catch].
  destruct (validateFileIntegrity fs optimizedPath) as [integrity | e]
    eqn:Hintegrity; cbn [bind try_catch];
    [| intros H; inversion H; subst; intros Habs; discriminate Habs].
  intros H. inversion H; subst verdict; clear H.
  cbn [isValid issues meetsThreshold v_qualityScore metrics m_qualityLoss
       m_structuralSimilarity].
  intros Hvalid. apply bool_decide_eq_true_1 in Hvalid.
  apply pushed_empty in Hvalid. destruct Hvalid as [Hintact Hvalid].
  rewrite Hintact, Hvalid. apply (f_equal (@length string)) in Hvalid.
  apply pushed_empty in Hvalid. destruct Hvalid as [Hsimilar Hvalid].
  apply (f_equal (@length string)) in Hvalid.
  apply pushed_empty in Hvalid. destruct Hvalid as [Hloss Hvalid].
  apply (f_equal (@length string)) in Hvalid.
  apply pushed_empty in Hvalid. destruct Hvalid as [Hthreshold Hvalid].
  apply (f_equal (@length string)) in Hvalid.
  apply pushed_empty in Hvalid. destruct Hvalid as [Hsize _].
  apply negb_false_iff in Hintact, Hthreshold.
  destruct (validateFileIntegrity_valid _ _ _ Hintegrity Hintact)
    as (Hdecodes & size & Hstat & Hnonzero).
  rewrite Hoptimized in Hstat. inversion Hstat; subst size.
  unfold Num.gt, Num.lt, Num.ge in *.
  apply negb_false_iff in Hsize, Hloss.
  apply negb_false_iff in Hsimilar.
  apply Qle_bool_iff in Hsize, Hloss, Hsimilar.
  split; [reflexivity |]. split; [exact Hthreshold |].
  split; [apply Qle_bool_iff, Hthreshold |].
  split; [exact Hloss |]. split; [exact Hsimilar |].
  split; [exact Hdecodes |].
  exists originalSize, optimizedSize. auto.
Qed.

(** The default validator on the red test image converted at half its
    size. *)
Lemma halved_output_is_valid :
  exists fs' verdict,
    validateOutputQuality (Scenario.platform 50) (QualityValidator.new None None)
      fs' "src/valid.jpg" "out/valid.webp" 85
    = Ok verdict
    /\ isValid verdict = true
    /\ fs_stat fs' "out/valid.webp" = Ok 411.
Proof.
  exists (<["out/valid.webp" :=
             {| file_bytes := [82; 73; 70; 70; 0; 0; 0; 0; 87; 69; 66; 80];
                file_size := 411;
                file_image := Ok Scenario.redPicture |}]> Scenario.source).
  eexists. split; [vm_compute; reflexivity |].
  split; vm_compute; reflexivity.
Qed.

Lemma valid_output_passed_every_check_witness :
  exists fs' verdict,
    validateOutputQuality (Scenario.platform 50) (QualityValidator.new None None)
      fs' "src/valid.jpg" "out/valid.webp" 85
    = Ok verdict
    /\ issues verdict = []
    /\ meetsThreshold verdict = true.
Proof.
  destruct halved_output_is_valid as (fs' & verdict & Hverdict & Hvalid & _).
  exists fs', verdict. split; [exact Hverdict |].
  destruct (valid_output_passed_every_check _ _ _ _ _ _ _ Hverdict Hvalid)
    as (Hissues & Hmeets & _).
  split; [exact Hissues | exact Hmeets].
Defined.

End Checks.


(** ** Configuration *)

Section Settings.
Import BatchProcessor.

(** X18.  Of the configuration, only the minimum quality, the maximum
    width and height and the supported formats reach the processing of
    an image: two processors whose configurations agree on these four
    treat every file alike, whatever qualities per content type,
    concurrency, progress and output settings they were given. *)
Theorem content_quality_settings_are_unused :
  forall P config1 config2 p1 p2,
    BatchProcessor.new config1 = Ok p1 ->
    BatchProcessor.new config2 = Ok p2 ->
    q_minimum (quality (getConfig p1)) = q_minimum (quality (getConfig p2)) ->
    maxWidth (dimensions (getConfig p1)) = maxWidth (dimensions (getConfig p2)) ->
    maxHeight (dimensions (getConfig p1)) = maxHeight (dimensions (getConfig p2)) ->
    supportedFormats (getConfig p1) = supportedFormats (getConfig p2) ->
    forall imagePath outputDirectory fs,
      processImage P p1 imagePath outputDirectory fs
      = processImage P p2 imagePath outputDirectory fs.
Proof.
  intros P config1 config2 p1 p2 H1 H2 Hminimum Hwidth Hheight Hformats
    imagePath outputDirectory fs.
  unfold BatchProcessor.new, ConfigManager.new in H1, H2. cbn [bind] in H1, H2.
  inversion H1; subst p1; clear H1. inversion H2; subst p2; clear H2.
  unfold getConfig, ConfigManager.getConfig in *.
  cbn [configManager ConfigManager.config] in *.
  unfold processImage.
  cbn [formatDetector qualityCalculator webpConverter qualityValidator
       configManager ConfigManager.getConfig ConfigManager.config].
  unfold ConfigManager.getConfig. cbn [ConfigManager.config].
  rewrite Hminimum, Hwidth, Hheight, Hformats. reflexivity.
Qed.

(** An update of the photo quality alone. *)
Local Abbreviation photo_quality q :=
  (Some {| u_quality :=
             Some {| u_photo := Some q; u_graphic := None; u_mixed := None;
                     u_minimum := None |};
           u_dimensions := None;
           u_processing := None;
           u_output := None;
           u_supportedFormats := None |}).

Lemma photo_quality_processors :
  exists p1 p2,
    BatchProcessor.new None = Ok p1
    /\ BatchProcessor.new (photo_quality 95) = Ok p2
    /\ q_photo (quality (getConfig p1)) = 88
    /\ q_photo (quality (getConfig p2)) = 95
    /\ q_minimum (quality (getConfig p1)) = q_minimum (quality (getConfig p2))
    /\ maxWidth (dimensions (getConfig p1))
       = maxWidth (dimensions (getConfig p2))
    /\ maxHeight (dimensions (getConfig p1))
       = maxHeight (dimensions (getConfig p2))
    /\ supportedFormats (getConfig p1) = supportedFormats (getConfig p2).
Proof. eexists _, _. repeat split; vm_compute; reflexivity. Qed.

Lemma content_quality_settings_are_unused_witness :
  exists p1 p2,
    BatchProcessor.new None = Ok p1
    /\ BatchProcessor.new (photo_quality 95) = Ok p2
    /\ q_photo (quality (getConfig p1)) = 88
    /\ q_photo (quality (getConfig p2)) = 95
    /\ forall imagePath outputDirectory fs,
         processImage (Scenario.platform 50) p1 imagePath outputDirectory fs
         = processImage (Scenario.platform 50) p2 imagePath outputDirectory fs.
Proof.
  destruct photo_quality_processors
    as (p1 & p2 & H1 & H2 & Hdefault & Hphoto & Hminimum & Hwidth & Hheight
        & Hformats).
  exists p1, p2. split; [exact H1 |]. split; [exact H2 |].
  split; [exact Hdefault |]. split; [exact Hphoto |].
  exact (content_quality_settings_are_unused (Scenario.platform 50) None
           (photo_quality 95) p1 p2 H1 H2 Hminimum Hwidth Hheight Hformats).
Defined.


(** X19.  [updateConfig] changes the configuration that the processor
    reports, not the components built from it by the constructor: the
    quality calculator keeps its minimum quality and the format detector
    its formats.  Unless the update changes the maximum width or height,
    images are processed after it exactly as before. *)
Theorem updateConfig_does_not_reach_the_components :
  forall P p updates,
    let p' := (updateConfig p updates).2 in
    maxWidth (dimensions (getConfig p')) = maxWidth (dimensions (getConfig p)) ->
    maxHeight (dimensions (getConfig p')) = maxHeight (dimensions (getConfig p)) ->
    DynamicQualityCalculator.getMinimumQuality (qualityCalculator p')
    = DynamicQualityCalculator.getMinimumQuality (qualityCalculator p)
    /\ FormatDetector.getSupportedFormats (formatDetector p')
       = FormatDetector.getSupportedFormats (formatDetector p)
    /\ forall imagePath outputDirectory fs,
         processImage P p' imagePath outputDirectory fs
         = processImage P p imagePath outputDirectory fs.
Proof.
  intros P p updates p' Hwidth Hheight. subst p'.
  unfold updateConfig, ConfigManager.updateConfig in *. cbn [snd] in *.
  split; [reflexivity |]. split; [reflexivity |].
  intros imagePath outputDirectory fs.
  unfold getConfig, ConfigManager.getConfig in *.
  cbn [configManager ConfigManager.config] in *.
  unfold processImage.
  cbn [formatDetector qualityCalculator webpConverter qualityValidator
       configManager ConfigManager.getConfig ConfigManager.config].
  unfold ConfigManager.getConfig. cbn [ConfigManager.config].
  rewrite Hwidth, Hheight. reflexivity.
Qed.

(** The default processor, asked for a minimum quality of 90. *)
Lemma raised_minimum :
  exists p,
    Scenario.processor None = Some p
    /\ q_minimum (quality (getConfig p)) = 78
    /\ q_minimum
         (quality (getConfig (updateConfig p (Some (Scenario.minimum 90))).2))
       = 90
    /\ maxWidth
         (dimensions (getConfig (updateConfig p (Some (Scenario.minimum 90))).2))
       = maxWidth (dimensions (getConfig p))
    /\ maxHeight
         (dimensions (getConfig (updateConfig p (Some (Scenario.minimum 90))).2))
       = maxHeight (dimensions (getConfig p)).
Proof. eexists. repeat split; vm_compute; reflexivity. Qed.

Lemma updateConfig_does_not_reach_the_components_witness :
  exists p,
    Scenario.processor None = Some p
    /\ q_minimum
         (quality (getConfig (updateConfig p (Some (Scenario.minimum 90))).2))
       = 90
    /\ DynamicQualityCalculator.getMinimumQuality
         (qualityCalculator (updateConfig p (Some (Scenario.minimum 90))).2)
       = DynamicQualityCalculator.getMinimumQuality (qualityCalculator p).
Proof.
  destruct raised_minimum as (p & Hp & _ & Hminimum & Hwidth & Hheight).
  exists p. split; [exact Hp |]. split; [exact Hminimum |].
  exact (proj1 (updateConfig_does_not_reach_the_components
                  (Scenario.platform 50) p (Some (Scenario.minimum 90))
                  Hwidth Hheight)).
Defined.

(** An update of the concurrency alone. *)
Local Abbreviation concurrency_update c :=
  (Some {| u_quality := None;
           u_dimensions := None;
           u_processing :=
             Some {| u_concurrency := Some c;
                     u_enableProgressReporting := None;
                     u_continueOnError := None |};
           u_output := None;
           u_supportedFormats := None |}).

Lemma lt_spec (x y : Q) :
  (Num.lt x y = true /\ (x < y)%Q) \/ (Num.lt x y = false /\ (y <= x)%Q).
Proof.
  unfold Num.lt. destruct (Qle_bool y x) eqn:Hle.
  - right. split; [reflexivity |]. apply Qle_bool_iff, Hle.
  - left. split; [reflexivity |]. apply Qnot_le_lt. intros H.
    apply Qle_bool_iff in H. congruence.
Qed.

(** A run with a positive concurrency that is followed to its end
    returns. *)
Lemma processDirectory_returns P self files sourceDirectory outputDirectory
    progressConfig startTime endTime schedule fs :
  files <> [] ->
  (0 < ConfigManager.getConcurrency (configManager self))%Q ->
  length schedule = length files ->
  is_Some
    (processDirectory P self (Ok files) sourceDirectory outputDirectory
       progressConfig startTime endTime schedule fs).1.1.1.
Proof.
  intros Hfiles Hc Hschedule. unfold processDirectory.
  destruct (length files =? 0)%nat eqn:Hlength.
  { apply Nat.eqb_eq, length_zero_iff_nil in Hlength. congruence. }
  match goal with
  | |- context [processImagesInParallel ?P ?p ?l ?out ?c ?s ?fs ?st] =>
      destruct (parallel_outcome P p l out c s fs st Hc Hschedule
                  eq_refl eq_refl eq_refl eq_refl)
        as (outcome & pool & -> & _)
  end.
  destruct outcome as [[] | message]; cbn [fst snd]; [| eauto].
  destruct (ProgressReporter.complete _ _) as [[report | message] reporter];
    cbn [fst snd]; eauto.
Qed.

(** X20.  An update that [updateConfig] rejects is applied all the
    same: the configuration is replaced before it is validated.  After
    the rejected update of the concurrency of a valid processor to a
    number below 1, the processor has that concurrency.  When the number
    is zero or negative, none of its runs on a list of files ever
    returns.  When it is positive, as 0.5 is, the semaphore still hands
    out its one permit: the runs return once every call has finished,
    with never more than one call in flight. *)
Theorem rejected_update_is_kept :
  forall P p (c : Q),
    ConfigManager.validateConfig (configManager p) = Ok tt ->
    (c < 1)%Q ->
    exists p',
      updateConfig p (concurrency_update c)
      = (Throw "Concurrency must be at least 1", p')
      /\ ConfigManager.getConcurrency (configManager p') = c
      /\ forall files sourceDirectory outputDirectory progressConfig
                startTime endTime schedule fs,
           files <> [] ->
           let ended :=
             processDirectory P p' (Ok files) sourceDirectory outputDirectory
               progressConfig startTime endTime schedule fs in
           ((c <= 0)%Q -> ended.1.1.1 = None)
           /\ ((0 < c)%Q ->
               (length schedule = length files -> is_Some ended.1.1.1)
               /\ (peak 0 ended.2 <= 1)%nat).
Proof.
  intros P p c Hvalid Hc. eexists. split; [| split].
  - unfold updateConfig, ConfigManager.updateConfig.
    f_equal.
    revert Hvalid. unfold ConfigManager.validateConfig.
    cbn -[Num.toString Z.ltb Num.lt].
    repeat match goal with
           | |- (if ?b then _ else _) = _ -> _ =>
               destruct b; [intros H; discriminate H |]
           end.
    intros _. destruct (lt_spec c 1) as [[-> _] | [_ Habs]]; [reflexivity | lra].
  - reflexivity.
  - intros files sourceDirectory outputDirectory progressConfig startTime
      endTime schedule fs Hfiles ended.
    split.
    + intros Hstarved. subst ended. unfold processDirectory.
      destruct (length files =? 0)%nat eqn:Hlength.
      { apply Nat.eqb_eq, length_zero_iff_nil in Hlength. congruence. }
      match goal with
      | |- context [processImagesInParallel ?P ?p ?l ?out ?c ?s ?fs ?st] =>
          pose proof (starved P p l out c s fs st) as Hnone;
          destruct (processImagesInParallel P p l out c s fs st)
            as [outcome pool]
      end.
      cbn [fst] in Hnone. rewrite Hnone; [reflexivity | | exact Hfiles].
      exact Hstarved.
    + intros Hpositive. split.
      * intros Hschedule. subst ended.
        apply processDirectory_returns; assumption.
      * subst ended.
        match goal with
        | |- context [processDirectory ?P ?p (Ok ?l) ?src ?out ?pc ?t0 ?t1 ?s ?fs] =>
            destruct (processDirectory_trace P p l src out pc t0 t1 s fs)
              as [state Hrun]
        end.
        cbv zeta in Hrun.
        destruct Hrun as [(_ & -> & _) | (_ & -> & _)]; [cbn; lia |].
        match goal with
        | |- context [processImagesInParallel ?P ?p ?l ?out ?c ?s ?fs ?st] =>
            destruct (bounded_run P p l out c s fs st) as [_ [_ Hpeak]]
        end.
        { cbn [ConfigManager.getConcurrency]. cbn. lra. }
        revert Hpeak.
        match goal with
        | |- context [peak 0 ?tr] => generalize (peak 0 tr)
        end.
        intros n Hpeak.
        assert (Hn : (inject_Z (Z.of_nat n) < inject_Z 2)%Q).
        { eapply Qlt_le_trans; [exact Hpeak |].
          change (inject_Z 2) with 2%Q.
          cbn [ConfigManager.getConcurrency]. cbn. lra. }
        rewrite <- Zlt_Qlt in Hn. lia.
Qed.

Lemma default_processor_is_valid :
  exists p,
    Scenario.processor None = Some p
    /\ ConfigManager.validateConfig (configManager p) = Ok tt.
Proof. eexists. split; vm_compute; reflexivity. Qed.

(** Half a permit. *)
Lemma rejected_update_is_kept_witness :
  exists p p',
    Scenario.processor None = Some p
    /\ updateConfig p (concurrency_update (1 # 2))
       = (Throw "Concurrency must be at least 1", p')
    /\ ConfigManager.getConcurrency (configManager p') = (1 # 2)%Q
    /\ is_Some
         (processDirectory (Scenario.platform 50) p'
            (Ok ["src/valid.jpg"; "src/invalid.jpg"]) "src" "out" None 0 100
            [0; 0]%nat Scenario.source).1.1.1.
Proof.
  destruct default_processor_is_valid as (p & Hp & Hvalid).
  destruct (rejected_update_is_kept (Scenario.platform 50) p (1 # 2) Hvalid
              eq_refl)
    as (p' & Hupdate & Hconcurrency & Hruns).
  exists p, p'. split; [exact Hp |]. split; [exact Hupdate |].
  split; [exact Hconcurrency |].
  apply (Hruns ["src/valid.jpg"; "src/invalid.jpg"] "src" "out" None 0 100
           [0; 0]%nat Scenario.source);
    [discriminate | reflexivity | reflexivity].
Defined.

End Settings.


Section Configuration.
Import ConfigManager.

Lemma validateConfig_accepts self :
  validateConfig self = Ok tt
  <-> (q_minimum (quality (config self)) <= q_photo (quality (config self)) <= 100
       /\ q_minimum (quality (config self)) <= q_graphic (quality (config self)) <= 100
       /\ q_minimum (quality (config self)) <= q_mixed (quality (config self)) <= 100
       /\ 1 <= q_minimum (quality (config self)) <= 100
       /\ (1 <= concurrency (processing (config self)))%Q).
Proof.
  unfold validateConfig. cbv zeta.
  destruct (lt_spec (concurrency (processing (config self))) 1)
    as [[-> Hc] | [-> Hc]];
    repeat match goal with
           | |- context [?a <? ?b] => destruct (Z.ltb_spec a b)
           end; cbn [orb]; split; intros Hgiven; try discriminate Hgiven;
    try (exfalso; lra); try lia; try reflexivity.
  repeat split; try lia. exact Hc.
Qed.

(** X21.  [mergeConfig] leaves the base configuration as it is when
    there are no updates; merging the same updates a second time
    changes nothing; updates that give every setting replace the base
    altogether; and updates without a quality part leave the quality
    settings of earlier updates in place. *)
Theorem mergeConfig_laws :
  forall base,
    mergeConfig base None = base
    /\ (forall updates,
           mergeConfig (mergeConfig base updates) updates
           = mergeConfig base updates)
    /\ (forall whole_, mergeConfig base (Some (CLI.whole whole_)) = whole_)
    /\ (forall first second,
           u_quality second = None ->
           quality (mergeConfig (mergeConfig base (Some first)) (Some second))
           = quality (mergeConfig base (Some first))).
Proof.
  intros base. split; [reflexivity |]. split; [| split].
  - intros [[[q |] [d |] [p |] [o |] [f |]] |]; cbn;
      try reflexivity;
      repeat match goal with
             | x : QualityUpdates |- _ => destruct x as [[] [] [] []]
             | x : DimensionsUpdates |- _ => destruct x as [[] [] []]
             | x : ProcessingUpdates |- _ => destruct x as [[] [] []]
             | x : OutputUpdates |- _ => destruct x as [[] [] []]
             end; reflexivity.
  - intros [[] [] [] [] ?]; reflexivity.
  - intros first second Hquality. cbn. rewrite Hquality. reflexivity.
Qed.

End Configuration.

Section CommandLine.
Import CLI.

Lemma parseQuality_range parseInt value q :
  parseQuality parseInt value = Ok q -> 1 <= q <= 100.
Proof.
  unfold parseQuality. destruct (parseInt value) as [n |];
    [| intros H; discriminate H].
  destruct (Z.ltb_spec n 1); [intros Habs; discriminate Habs |].
  destruct (Z.ltb_spec 100 n); [intros Habs; discriminate Habs |].
  intros Hq. inversion Hq; subst. lia.
Qed.

Lemma parseConcurrency_range parseInt value c :
  parseConcurrency parseInt value = Ok c -> 1 <= c.
Proof.
  unfold parseConcurrency. destruct (parseInt value) as [n |];
    [| intros H; discriminate H].
  destruct (Z.ltb_spec n 1); [intros Habs; discriminate Habs |].
  intros Hq. inversion Hq; subst. lia.
Qed.

Lemma validateOptions_thresholds H options options' :
  validateOptions H options = Ok options' ->
  cli_quality options' = cli_quality options
  /\ cli_photoQuality options' = cli_photoQuality options
  /\ cli_graphicQuality options' = cli_graphicQuality options
  /\ cli_mixedQuality options' = cli_mixedQuality options
  /\ cli_concurrency options' = cli_concurrency options
  /\ below (cli_quality options) 78 = false
  /\ below (cli_photoQuality options) 78 = false
  /\ below (cli_graphicQuality options) 78 = false
  /\ below (cli_mixedQuality options) 78 = false.
Proof.
  unfold validateOptions.
  destruct (try_catch _ _) as [[] | e]; cbn [bind];
    [| intros Habs; discriminate Habs].
  cbv zeta.
  set (resolved :=
         if negb (isAbsolute H (cli_output options))
         then set_output options (resolve H (cli_output options))
         else options).
  assert (Hsame : cli_quality resolved = cli_quality options
                  /\ cli_photoQuality resolved = cli_photoQuality options
                  /\ cli_graphicQuality resolved = cli_graphicQuality options
                  /\ cli_mixedQuality resolved = cli_mixedQuality options
                  /\ cli_concurrency resolved = cli_concurrency options).
  { subst resolved. destruct (negb _); cbn; auto. }
  destruct Hsame as (Hq & Hp & Hg & Hm & Hc).
  destruct (String.eqb _ _); [intros Habs; discriminate Habs |].
  destruct (_ && _); [intros Habs; discriminate Habs |].
  change (q_minimum (quality DEFAULT_CONFIG)) with 78.
  rewrite Hq, Hp, Hg, Hm.
  destruct (below (cli_quality options) 78); [intros Habs; discriminate Habs |].
  destruct (below (cli_photoQuality options) 78);
    [intros Habs; discriminate Habs |].
  destruct (below (cli_graphicQuality options) 78);
    [intros Habs; discriminate Habs |].
  destruct (below (cli_mixedQuality options) 78);
    [intros Habs; discriminate Habs |].
  intros Hok. inversion Hok; subst options'. auto 10.
Qed.

(** An option value as the option's parser leaves it. *)
Local Abbreviation parsed_by parser value :=
  (forall n, value = Some n -> exists text, parser text = Ok n).

Lemma first_of_range (a b : option Z) (d : Z) :
  78 <= d <= 100 ->
  (forall n, a = Some n -> 1 <= n <= 100) ->
  (forall n, b = Some n -> 1 <= n <= 100) ->
  below a 78 = false -> below b 78 = false ->
  78 <= first_of a b d <= 100.
Proof.
  intros Hd Ha Hb Hbelow_a Hbelow_b. unfold first_of, or_default, below in *.
  destruct a as [n |], b as [m |];
    try specialize (Ha _ eq_refl); try specialize (Hb _ eq_refl);
    repeat match goal with
           | H : context [?x =? 0] |- _ => destruct (Z.eqb_spec x 0)
           | |- context [?x =? 0] => destruct (Z.eqb_spec x 0)
           | H : context [?x <? 78] |- _ => destruct (Z.ltb_spec x 78)
           end; cbn in *; try discriminate; lia.
Qed.

(** X22.  Options that the command line parsers produced and that
    [validateOptions] accepts give a configuration with which the
    processor is constructed as [main] constructs it, holding exactly
    the converted configuration, and [validateConfig] accepts that
    configuration: every quality is within the minimum of 78 and 100
    and the concurrency is at least 1. *)
Theorem accepted_options_make_a_valid_configuration :
  forall H parseInt options options',
    parsed_by (parseQuality parseInt) (cli_quality options) ->
    parsed_by (parseQuality parseInt) (cli_photoQuality options) ->
    parsed_by (parseQuality parseInt) (cli_graphicQuality options) ->
    parsed_by (parseQuality parseInt) (cli_mixedQuality options) ->
    parsed_by (parseConcurrency parseInt) (cli_concurrency options) ->
    validateOptions H options = Ok options' ->
    exists processor,
      BatchProcessor.new (Some (whole (convertToOptimizationConfig options')))
      = Ok processor
      /\ BatchProcessor.getConfig processor
         = convertToOptimizationConfig options'
      /\ ConfigManager.validateConfig (BatchProcessor.configManager processor)
         = Ok tt.
Proof.
  intros H parseInt options options' Hquality Hphoto Hgraphic Hmixed
    Hconcurrency Hvalid.
  destruct (validateOptions_thresholds _ _ _ Hvalid)
    as (Hq & Hp & Hg & Hm & Hc & Bq & Bp & Bg & Bm).
  eexists. split; [reflexivity |].
  assert (Hconfig :
            ConfigManager.mergeConfig DEFAULT_CONFIG
              (Some (whole (convertToOptimizationConfig options')))
            = convertToOptimizationConfig options').
  { generalize (convertToOptimizationConfig options').
    intros [[] [] [] [] ?]; reflexivity. }
  split; [exact Hconfig |].
  apply validateConfig_accepts.
  cbn [BatchProcessor.configManager ConfigManager.config].
  rewrite Hconfig.
  assert (Rq : forall n, cli_quality options = Some n -> 1 <= n <= 100).
  { intros n Hn. destruct (Hquality n Hn) as [text Htext].
    exact (parseQuality_range _ _ _ Htext). }
  assert (Rp : forall n, cli_photoQuality options = Some n -> 1 <= n <= 100).
  { intros n Hn. destruct (Hphoto n Hn) as [text Htext].
    exact (parseQuality_range _ _ _ Htext). }
  assert (Rg : forall n, cli_graphicQuality options = Some n -> 1 <= n <= 100).
  { intros n Hn. destruct (Hgraphic n Hn) as [text Htext].
    exact (parseQuality_range _ _ _ Htext). }
  assert (Rm : forall n, cli_mixedQuality options = Some n -> 1 <= n <= 100).
  { intros n Hn. destruct (Hmixed n Hn) as [text Htext].
    exact (parseQuality_range _ _ _ Htext). }
  unfold convertToOptimizationConfig.
  cbn [quality processing q_photo q_graphic q_mixed q_minimum concurrency].
  rewrite Hq, Hp, Hg, Hm, Hc.
  change (q_minimum (quality DEFAULT_CONFIG)) with 78.
  change (q_photo (quality DEFAULT_CONFIG)) with 88.
  change (q_graphic (quality DEFAULT_CONFIG)) with 85.
  change (q_mixed (quality DEFAULT_CONFIG)) with 86.
  change (concurrency (processing DEFAULT_CONFIG)) with 4%Q.
  pose proof (first_of_range (cli_photoQuality options) (cli_quality options) 88
                ltac:(lia) Rp Rq Bp Bq).
  pose proof (first_of_range (cli_graphicQuality options) (cli_quality options) 85
                ltac:(lia) Rg Rq Bg Bq).
  pose proof (first_of_range (cli_mixedQuality options) (cli_quality options) 86
                ltac:(lia) Rm Rq Bm Bq).
  repeat split; try lia.
  destruct (cli_concurrency options) as [n |] eqn:Hn; [| discriminate].
  destruct (Hconcurrency n eq_refl) as [text Htext].
  pose proof (parseConcurrency_range _ _ _ Htext).
  destruct (Z.eqb_spec n 0); [lia |].
  change 1%Q with (inject_Z 1). rewrite <- Zle_Qle. lia.
Qed.

(** The command line [-s src -o /out -q 90 -c 2], in a directory where
    src exists. *)
Local Abbreviation sample_options :=
  ({| cli_source := "src";
      cli_output := "/out";
      cli_quality := Some 90;
      cli_photoQuality := None;
      cli_graphicQuality := None;
      cli_mixedQuality := None;
      cli_concurrency := Some 2;
      cli_continueOnError := None;
      cli_noProgress := None;
      cli_noReport := None;
      cli_reportFormat := None;
      cli_verbose := None |}).

Local Abbreviation sample_host :=
  ({| pathExists := String.eqb "src";
      isDirectory := fun _ => Ok true;
      resolve := fun p => if String.prefix "/" p then p else "/work/" +:+ p;
      relative := fun _ _ => "../../out";
      isAbsolute := String.prefix "/" |}).

(** [parseInt] on the two numbers of the command line. *)
Local Abbreviation sample_parseInt :=
  (fun text : string =>
     if String.eqb text "90" then Some 90
     else if String.eqb text "2" then Some 2
     else None).

Lemma sample_options_are_accepted :
  parsed_by (parseQuality sample_parseInt) (cli_quality sample_options)
  /\ parsed_by (parseQuality sample_parseInt) (cli_photoQuality sample_options)
  /\ parsed_by (parseQuality sample_parseInt)
       (cli_graphicQuality sample_options)
  /\ parsed_by (parseQuality sample_parseInt) (cli_mixedQuality sample_options)
  /\ parsed_by (parseConcurrency sample_parseInt)
       (cli_concurrency sample_options)
  /\ validateOptions sample_host sample_options = Ok sample_options.
Proof.
  repeat split; try (intros n Hn; discriminate Hn).
  - intros n Hn. inversion Hn. exists "90". reflexivity.
  - intros n Hn. inversion Hn. exists "2". reflexivity.
Qed.

Lemma accepted_options_make_a_valid_configuration_witness :
  exists processor,
    BatchProcessor.new
      (Some (whole (convertToOptimizationConfig sample_options)))
    = Ok processor
    /\ BatchProcessor.getConfig processor
       = convertToOptimizationConfig sample_options
    /\ ConfigManager.validateConfig (BatchProcessor.configManager processor)
       = Ok tt.
Proof.
  destruct sample_options_are_accepted
    as (Hquality & Hphoto & Hgraphic & Hmixed & Hconcurrency & Haccepted).
  exact (accepted_options_make_a_valid_configuration sample_host
           sample_parseInt sample_options sample_options Hquality Hphoto
           Hgraphic Hmixed Hconcurrency Haccepted).
Defined.

End CommandLine.


Section Reports.
Import ProgressReporter DataValidator.

(** X23.  A report that [generateFinalReport] builds passes
    [validateProcessingReport] exactly when the processing time, the
    total size reduction and the average compression ratio are not
    negative; its counts are always accepted.  [generateProcessingReport]
    of the batch processor builds the same report from the same
    results. *)
Theorem reporter_reports_validate :
  forall self totalProcessingTime,
    let report := generateFinalReport self totalProcessingTime in
    (validateProcessingReport report = true
     <-> 0 <= totalProcessingTime
         /\ 0 <= totalSizeReduction report
         /\ (0 <= averageCompressionRatio report)%Q)
    /\ BatchProcessor.generateProcessingReport (results self)
         totalProcessingTime
       = report.
Proof.
  intros self totalProcessingTime report. split; [| reflexivity].
  unfold validateProcessingReport.
  assert (Htotal : (totalImages report <? 0) = false)
    by (apply Z.ltb_ge; subst report; cbn; lia).
  assert (Hsuccessful : (successfulConversions report <? 0) = false)
    by (apply Z.ltb_ge; subst report; cbn; lia).
  assert (Hfailed : (failedConversions report <? 0) = false)
    by (apply Z.ltb_ge; subst report; cbn; lia).
  assert (Hlength : (totalImages report
                     =? Z.of_nat (length (Types.results report))) = true)
    by (apply Z.eqb_eq; reflexivity).
  rewrite Htotal, Hsuccessful, Hfailed, Hlength. cbn [negb].
  change (report_processingTime report) with totalProcessingTime.
  unfold Num.lt.
  destruct (Z.ltb_spec (totalSizeReduction report) 0).
  { split; [intros Habs; discriminate Habs | lia]. }
  destruct (Qle_bool 0 (averageCompressionRatio report)) eqn:Hratio; cbn [negb].
  - apply Qle_bool_iff in Hratio.
    destruct (Z.ltb_spec totalProcessingTime 0);
      split; try (intros Habs; discriminate Habs); try lia; auto.
  - split; [intros Habs; discriminate Habs |].
    intros (_ & _ & Habs). apply Qle_bool_iff in Habs. congruence.
Qed.

End Reports.


(** ** File names and directories *)

Section FileNames.
Import FileManager.

Lemma trimStart_suffix (s : list Z) :
  exists removed, s = (removed ++ trimStart s)%list.
Proof.
  induction s as [| c s [removed IH]]; cbn [trimStart]; [exists []; reflexivity |].
  destruct (whiteSpace c); [| exists []; reflexivity].
  exists (c :: removed). cbn. f_equal. exact IH.
Qed.

Lemma trimStart_head (s : list Z) :
  trimStart s = []
  \/ exists c rest, trimStart s = c :: rest /\ whiteSpace c = false.
Proof.
  induction s as [| c s IH]; cbn [trimStart]; [left; reflexivity |].
  destruct (whiteSpace c) eqn:Hc; [exact IH | right; eauto].
Qed.

Lemma trimStart_idempotent (s : list Z) : trimStart (trimStart s) = trimStart s.
Proof.
  destruct (trimStart_head s) as [-> | (c & rest & -> & Hc)]; [reflexivity |].
  cbn. rewrite Hc. reflexivity.
Qed.

Lemma trimStart_last (l : list Z) (c : Z) :
  whiteSpace c = false -> exists l', trimStart (l ++ [c]) = (l' ++ [c])%list.
Proof.
  intros Hc. induction l as [| a l [l' IH]]; cbn [app trimStart].
  - rewrite Hc. exists []. reflexivity.
  - destruct (whiteSpace a); [exists l'; exact IH | exists (a :: l); reflexivity].
Qed.

(** A trimmed text is left alone by both halves of [trim]. *)
Lemma trim_trimmed (s : list Z) :
  trimStart (trim s) = trim s /\ trimStart (rev (trim s)) = rev (trim s).
Proof.
  unfold trim, trimEnd. rewrite rev_involutive. split;
    [| apply trimStart_idempotent].
  destruct (trimStart_head s) as [-> | (c & rest & -> & Hc)]; [reflexivity |].
  cbn [rev]. destruct (trimStart_last (rev rest) c Hc) as [l' ->].
  rewrite rev_app_distr. cbn. rewrite Hc. reflexivity.
Qed.

Lemma trim_idempotent (s : list Z) : trim (trim s) = trim s.
Proof.
  destruct (trim_trimmed s) as [Hstart Hend].
  unfold trim at 1. rewrite Hstart. unfold trimEnd.
  rewrite Hend. apply rev_involutive.
Qed.

Lemma trim_keeps (s : list Z) (x : Z) : In x (trim s) -> In x s.
Proof.
  unfold trim, trimEnd. intros H. apply in_rev in H.
  destruct (trimStart_suffix (rev (trimStart s))) as [removed Hremoved].
  assert (H1 : In x (rev (trimStart s)))
    by (rewrite Hremoved; apply in_or_app; right; exact H).
  apply in_rev in H1.
  destruct (trimStart_suffix s) as [removed' Hremoved'].
  rewrite Hremoved'. apply in_or_app. right. exact H1.
Qed.

Lemma existsb_false {A : Type} (p : A -> bool) (l : list A) :
  existsb p l = false <-> forall x, In x l -> p x = false.
Proof.
  split.
  - intros H x Hx. destruct (p x) eqn:Hp; [| reflexivity].
    assert (existsb p l = true) by (apply existsb_exists; eauto). congruence.
  - intros H. destruct (existsb p l) eqn:He; [| reflexivity].
    apply existsb_exists in He. destruct He as (x & Hx & Hp).
    rewrite (H x Hx) in Hp. discriminate.
Qed.

(** X24.  [sanitizeFilename] always returns a name that
    [validateFilename] accepts; it returns a valid name unchanged, and
    sanitizing twice gives what sanitizing once gives. *)
Theorem sanitized_names_are_valid :
  forall filename,
    validateFilename (sanitizeFilename filename) = true
    /\ sanitizeFilename (sanitizeFilename filename) = sanitizeFilename filename
    /\ (validateFilename filename = true -> sanitizeFilename filename = filename).
Proof.
  intros filename.
  assert (Hvalid : validateFilename (sanitizeFilename filename) = true).
  { unfold sanitizeFilename.
    destruct (validateFilename filename) eqn:Hgiven; [exact Hgiven |].
    set (cleaned :=
           List.filter (fun c => negb (controlChar c))
             (map (fun c => if reservedChar c then 95 else c) filename)).
    assert (Hcleaned : forall x, In x cleaned ->
                                 reservedChar x = false /\ controlChar x = false).
    { intros x Hx. apply filter_In in Hx. destruct Hx as [Hx Hcontrol].
      apply negb_true_iff in Hcontrol. split; [| exact Hcontrol].
      apply in_map_iff in Hx. destruct Hx as (c & <- & _).
      destruct (reservedChar c) eqn:Hc; [reflexivity | exact Hc]. }
    destruct (trim cleaned) as [| c rest] eqn:Htrim; cbn [length Nat.eqb];
      [reflexivity |].
    rewrite <- Htrim. unfold validateFilename.
    rewrite trim_idempotent, Htrim. cbn [length Nat.eqb orb].
    rewrite <- Htrim.
    assert (Hreserved : existsb reservedChar (trim cleaned) = false).
    { apply existsb_false. intros x Hx. apply Hcleaned, trim_keeps, Hx. }
    assert (Hcontrol : existsb controlChar (trim cleaned) = false).
    { apply existsb_false. intros x Hx. apply Hcleaned, trim_keeps, Hx. }
    rewrite Hreserved, Hcontrol. reflexivity. }
  split; [exact Hvalid |]. split.
  - unfold sanitizeFilename at 1. rewrite Hvalid. reflexivity.
  - intros Hgiven. unfold sanitizeFilename. rewrite Hgiven. reflexivity.
Qed.

End FileNames.


Section Mapping.
Import FileManager.

Lemma generateFilenameMapping_snoc P files file outputDirectory :
  generateFilenameMapping P (files ++ [file]) outputDirectory
  = <[path_basename P file := generateWebPFilename P file]>
      (generateFilenameMapping P files outputDirectory).
Proof.
  unfold generateFilenameMapping. rewrite fold_left_app. reflexivity.
Qed.

(** X25.  [generateFilenameMapping] has one entry for each base name
    among the files, none of which is [__proto__]: files with the same
    base name share one entry, which is the WebP name of the last of
    them, and a name that no file has is absent. *)
Theorem filename_mapping_has_one_entry_for_each_name :
  forall P originalFiles outputDirectory name,
    ~ In "__proto__" (map (path_basename P) originalFiles) ->
    generateFilenameMapping P originalFiles outputDirectory !! name
    = option_map (generateWebPFilename P)
        (last (List.filter (fun file => String.eqb (path_basename P file) name)
                 originalFiles)).
Proof.
  intros P originalFiles outputDirectory name _.
  induction originalFiles as [| file files IH] using rev_ind.
  - reflexivity.
  - rewrite generateFilenameMapping_snoc, List.filter_app. cbn [List.filter].
    destruct (String.eqb_spec (path_basename P file) name) as [<- | Hne].
    + rewrite lookup_insert_eq, last_snoc. reflexivity.
    + rewrite lookup_insert_ne by exact Hne. rewrite app_nil_r. exact IH.
Qed.

(** Two files named alike in two directories. *)
Lemma filename_mapping_has_one_entry_for_each_name_witness :
  generateFilenameMapping (Scenario.platform 50)
    ["src/a/logo.png"; "src/b/logo.png"] "out"
  !! "logo.png"
  = option_map (generateWebPFilename (Scenario.platform 50))
      (last (List.filter
               (fun file =>
                  String.eqb (path_basename (Scenario.platform 50) file)
                    "logo.png")
               ["src/a/logo.png"; "src/b/logo.png"])).
Proof.
  apply filename_mapping_has_one_entry_for_each_name.
  intros [Habs | [Habs | Habs]];
    [vm_compute in Habs; discriminate Habs
    | vm_compute in Habs; discriminate Habs
    | exact Habs].
Defined.

Lemma filter_all {A : Type} (p : A -> bool) (l : list A) :
  (length l =? length (List.filter p l))%nat = forallb p l.
Proof.
  induction l as [| a l IH]; [reflexivity |]. cbn [List.filter forallb length].
  destruct (p a); cbn [length andb].
  - exact IH.
  - apply Nat.eqb_neq.
    pose proof (List.filter_length_le p l). lia.
Qed.

(** Whether [isOutputDirectorySafe] takes [file] for a report or a
    mapping of an earlier run. *)
Local Abbreviation report_file P basename_without file :=
  (let ext := Str.toLowerCase (path_extname P file) in
   let basename := Str.toLowerCase (basename_without file%string ext) in
   String.eqb ext ".json"
   && (Str.contains "mapping" basename || Str.contains "report" basename
       || Str.contains "optimization" basename)).

Lemma isOutputDirectorySafe_cases P basename_without outputPath output :
  isOutputDirectorySafe P basename_without outputPath output
  = Ok match output with
       | Missing => true
       | Directory (Ok entries) =>
           forallb (fun file => report_file P basename_without file)
             (map fst entries)
       | _ => false
       end.
Proof.
  unfold isOutputDirectorySafe.
  destruct output as [| [entries | e] | |]; cbn [pathExists negb readdir bind
                                               try_catch]; try reflexivity.
  rewrite filter_all. reflexivity.
Qed.

(** X26.  [isOutputDirectorySafe] never throws, and finds safe exactly
    an output path that does not exist or is a readable directory with
    nothing but .json files whose names contain mapping, report or
    optimization.  [validateProcessingOptions] accepts exactly a source
    that is a directory together with a safe output.  So a run into a
    directory that holds any file with another extension, such as the
    WebP files of an earlier run, is refused. *)
Theorem existing_outputs_are_refused :
  forall P basename_without self sourceDirectory outputDirectory source output,
    (exists safe,
        isOutputDirectorySafe P basename_without outputDirectory output
        = Ok safe
        /\ (safe = true
            <-> output = Missing
                \/ exists entries,
                     output = Directory (Ok entries)
                     /\ forall file,
                          In file (map fst entries) ->
                          report_file P basename_without file = true))
    /\ (BatchProcessor.validateProcessingOptions P basename_without self
          sourceDirectory outputDirectory source output
        = Ok tt
        <-> (exists listing, source = Directory listing)
            /\ isOutputDirectorySafe P basename_without outputDirectory output
               = Ok true)
    /\ (forall listing entries file,
           source = Directory listing ->
           output = Directory (Ok entries) ->
           In file (map fst entries) ->
           Str.toLowerCase (path_extname P file) <> ".json" ->
           BatchProcessor.validateProcessingOptions P basename_without self
             sourceDirectory outputDirectory source output
           = Throw ("Output directory contains files that might be overwritten: "
                    +:+ outputDirectory)).
Proof.
  intros P basename_without self sourceDirectory outputDirectory source output.
  pose proof (isOutputDirectorySafe_cases P basename_without outputDirectory
                output) as Hsafe.
  split; [| split].
  - eexists. split; [exact Hsafe |].
    destruct output as [| [entries | e] | |].
    + split; [intros Habs; discriminate Habs |].
      intros [Habs | (entries & Habs & _)]; discriminate Habs.
    + rewrite forallb_forall. split.
      * intros Hall. right. exists entries. auto.
      * intros [Habs | (entries' & Heq & Hall)]; [discriminate Habs |].
        inversion Heq; subst entries'. exact Hall.
    + split; [intros Habs; discriminate Habs |].
      intros [Habs | (entries & Habs & _)]; discriminate Habs.
    + split; [intros Habs; discriminate Habs |].
      intros [Habs | (entries & Habs & _)]; discriminate Habs.
    + split; [intros _; left; reflexivity | reflexivity].
  - unfold BatchProcessor.validateProcessingOptions. rewrite Hsafe.
    cbn [bind].
    destruct source as [| listing | |]; cbn [pathExists negb];
      try (split; [intros Habs; discriminate Habs
                  | intros [[listing Habs] _]; discriminate Habs]).
    match goal with
    | |- context [negb ?b] => destruct b
    end; cbn [negb]; split; eauto;
      try (intros Habs; discriminate Habs);
      intros [_ Habs]; inversion Habs.
  - intros listing entries file -> -> Hfile Hextension.
    unfold BatchProcessor.validateProcessingOptions.
    cbv beta iota in Hsafe. rewrite Hsafe.
    cbn [bind pathExists negb].
    match goal with
    | |- context [negb (forallb ?safe ?files)] =>
        assert (Hunsafe : forallb safe files = false)
    end.
    { match goal with
      | |- ?all = false => destruct all eqn:Hall; [| reflexivity]
      end.
      rewrite forallb_forall in Hall. specialize (Hall file Hfile).
      cbv beta in Hall.
      apply andb_true_iff in Hall. destruct Hall as [Hjson _].
      apply String.eqb_eq in Hjson. contradiction. }
    rewrite Hunsafe. reflexivity.
Qed.

End Mapping.


Section Scan.
Import FileManager.

Lemma Node_induction (Q : Node -> Prop) :
  Q RegularFile -> Q Special -> Q Missing ->
  (forall message, Q (Directory (Throw message))) ->
  (forall entries,
      Forall (fun entry : string * Node => Q entry.2) entries ->
      Q (Directory (Ok entries))) ->
  forall node, Q node.
Proof.
  intros Hfile Hspecial Hmissing Hthrow Hdir.
  fix IH 1. intros node. destruct node as [| [entries | message] | |].
  - exact Hfile.
  - apply Hdir. induction entries as [| [name entry] entries IHentries];
      constructor; [apply IH | exact IHentries].
  - apply Hthrow.
  - exact Hspecial.
  - exact Hmissing.
Qed.

Lemma scanDirectory_directory P self sourcePath entries :
  scanDirectory P self sourcePath (Directory (Ok entries))
  = try_catch
      ((fix loop (entries : list (string * Node)) (imageFiles : list string)
          : result (list string) :=
          match entries with
          | [] => Ok imageFiles
          | (name, entry) :: rest =>
              let fullPath := path_join P sourcePath name in
              match entry with
              | Directory _ =>
                  await subDirectoryFiles :=
                    scanDirectory P self fullPath entry in
                  loop rest (app imageFiles subDirectoryFiles)
              | RegularFile =>
                  if isSupportedImageFile P self name
                  then loop rest (push imageFiles fullPath)
                  else loop rest imageFiles
              | Special | Missing => loop rest imageFiles
              end
          end) entries [])
      (fun message =>
         Throw ("Failed to scan directory " +:+ sourcePath +:+ ": "
                +:+ message)).
Proof. reflexivity. Qed.

Lemma scanDirectory_listable :
  forall P self node sourcePath,
    is_ok (scanDirectory P self sourcePath node) = listable node
    /\ forall message,
         scanDirectory P self sourcePath node = Throw message ->
         exists cause,
           message = "Failed to scan directory " +:+ sourcePath +:+ ": "
                     +:+ cause.
Proof.
  intros P self node. induction node as [| | | message | entries IH]
    using Node_induction; intros sourcePath;
    try (split; [reflexivity | intros m Hm; inversion Hm; eauto]).
  rewrite scanDirectory_directory.
  change (listable (Directory (Ok entries)))
    with (forallb (fun entry : string * Node =>
                     match entry.2 with
                     | Directory _ => listable entry.2
                     | _ => true
                     end) entries).
  match goal with
  | |- context [try_catch (?loop entries []) ?handler] =>
      assert (Hloop : forall imageFiles,
                 is_ok (loop entries imageFiles)
                 = forallb (fun entry : string * Node =>
                              match entry.2 with
                              | Directory _ => listable entry.2
                              | _ => true
                              end) entries);
      [| split;
         [specialize (Hloop []); destruct (loop entries []);
          cbn [try_catch is_ok] in *; congruence
         | destruct (loop entries []); cbn [try_catch];
           intros m Hm; inversion Hm; eauto]]
  end.
  induction IH as [| [name entry] entries Hentry _ IHentries];
    intros imageFiles; [reflexivity |].
  cbn [forallb snd]. cbn [snd] in Hentry.
  destruct entry as [| listing | |]; cbn [andb]; try apply IHentries.
  - destruct (isSupportedImageFile P self name); apply IHentries.
  - destruct (Hentry (path_join P sourcePath name)) as [Hscan _].
    rewrite <- Hscan.
    destruct (scanDirectory P self (path_join P sourcePath name)
                (Directory listing)) as [files | e];
      cbn [is_ok bind andb]; [apply IHentries | reflexivity].
Qed.


Lemma scanned_files_are_supported P self node :
  forall sourcePath files,
    scanDirectory P self sourcePath node = Ok files ->
    Forall (fun file =>
              exists directory name,
                file = path_join P directory name
                /\ isSupportedImageFile P self name = true) files.
Proof.
  induction node as [| | | message | entries IH] using Node_induction;
    intros sourcePath files; try (intros Habs; discriminate Habs).
  rewrite scanDirectory_directory.
  match goal with
  | |- try_catch (?loop entries []) ?handler = _ -> _ =>
      assert (Hloop : forall imageFiles found,
                 Forall (fun file =>
                           exists directory name,
                             file = path_join P directory name
                             /\ isSupportedImageFile P self name = true)
                   imageFiles ->
                 loop entries imageFiles = Ok found ->
                 Forall (fun file =>
                           exists directory name,
                             file = path_join P directory name
                             /\ isSupportedImageFile P self name = true)
                   found);
      [| intros Hfiles; destruct (loop entries []) as [found | e] eqn:Hfound;
         cbn [try_catch] in Hfiles; [| discriminate Hfiles];
         inversion Hfiles; subst found;
         exact (Hloop [] files (List.Forall_nil _) Hfound)]
  end.
  induction IH as [| [name entry] entries Hentry _ IHentries];
    intros imageFiles found Hgood Hfound.
  - inversion Hfound; subst. exact Hgood.
  - cbn [snd] in Hentry.
    destruct entry as [| listing | |]; cbv beta iota zeta in Hfound;
      try (eapply IHentries; eassumption).
    + destruct (isSupportedImageFile P self name) eqn:Hsupported;
        [| eapply IHentries; eassumption].
      eapply IHentries; [| exact Hfound].
      unfold push. apply Forall_app. split; [exact Hgood |].
      constructor; [eauto | constructor].
    + destruct (scanDirectory P self (path_join P sourcePath name)
                  (Directory listing)) as [sub | e] eqn:Hsub;
        cbn [bind] in Hfound; [| discriminate Hfound].
      eapply IHentries; [| exact Hfound].
      apply Forall_app. split; [exact Hgood |].
      exact (Hentry _ _ Hsub).
Qed.

(** X27.  [scanDirectory] returns exactly when the path is a directory
    and every directory below it can be listed: one unreadable
    subdirectory fails the whole scan.  The error then begins with
    "Failed to scan directory", the path and a colon.  Every path that
    a scan returns was joined from a directory and a file name that
    [isSupportedImageFile] accepts. *)
Theorem scan_succeeds_exactly_on_listable_trees :
  forall P self node sourcePath,
    is_ok (scanDirectory P self sourcePath node) = listable node
    /\ (forall message,
           scanDirectory P self sourcePath node = Throw message ->
           exists cause,
             message = "Failed to scan directory " +:+ sourcePath +:+ ": "
                       +:+ cause)
    /\ (forall files,
           scanDirectory P self sourcePath node = Ok files ->
           Forall (fun file =>
                     exists directory name,
                       file = path_join P directory name
                       /\ isSupportedImageFile P self name = true) files).
Proof.
  intros P self node sourcePath.
  destruct (scanDirectory_listable P self node sourcePath) as [Hok Hthrow].
  split; [exact Hok |]. split; [exact Hthrow |].
  intros files. apply scanned_files_are_supported.
Qed.

End Scan.


(** ** Resizing and size estimates *)

Section Dimensions.
Import WebPConverter.

Lemma inject_Z_pos (z : Z) : 0 < z -> (0 < inject_Z z)%Q.
Proof. intros H. change 0%Q with (inject_Z 0). rewrite <- Zlt_Qlt. exact H. Qed.

Lemma Qmin_cases (a b : Q) :
  (Qmin a b = a /\ (a <= b)%Q) \/ (Qmin a b = b /\ (b <= a)%Q).
Proof.
  unfold Qmin, GenericMinMax.gmin.
  destruct (a ?= b)%Q eqn:Hcmp.
  - left. split; [reflexivity |]. apply Qeq_alt in Hcmp. lra.
  - left. split; [reflexivity |]. apply Qlt_alt in Hcmp. lra.
  - right. split; [reflexivity |]. apply Qgt_alt in Hcmp. lra.
Qed.

(** One side of the scaled image, for a scale that is at most the
    rounded quotient of the side's limit and the side: the new side is
    within the old one and within the limit rounded up; when the scale
    is that quotient, it is at least the limit rounded down. *)
Lemma scaled_side (side : Z) (limit scale : Q) :
  0 < side <= 2 ^ 31 -> (0 < limit)%Q ->
  (0 <= scale)%Q -> (scale <= 1)%Q ->
  (scale <= Num.double (limit / inject_Z side))%Q ->
  let newSide := Num.Math_round (Num.double (inject_Z side * scale)) in
  0 <= newSide <= side
  /\ newSide <= Qceiling limit
  /\ (scale = Num.double (limit / inject_Z side) -> Qfloor limit <= newSide).
Proof.
  intros [Hside Hsmall] Hlimit Hscale0 Hscale1 Hscale newSide.
  pose proof (inject_Z_pos side Hside) as HS.
  assert (HS' : (inject_Z side <= inject_Z (2 ^ 31))%Q)
    by (rewrite <- Zle_Qle; exact Hsmall).
  change (inject_Z (2 ^ 31)) with 2147483648%Q in HS'.
  assert (Hq0 : (0 <= limit / inject_Z side)%Q)
    by (apply Qle_shift_div_l; [exact HS | lra]).
  assert (Hq : (limit / inject_Z side * inject_Z side == limit)%Q)
    by (field; lra).
  destruct (double_error _ Hq0) as [HDlo HDhi].
  assert (Hx0 : (0 <= inject_Z side * scale)%Q)
    by (apply Qmult_le_0_compat; lra).
  assert (Hx1 : (inject_Z side * scale <= inject_Z side)%Q) by nra.
  destruct (double_error _ Hx0) as [Hylo Hyhi].
  pose proof (double_nonneg _ Hx0) as Hy0.
  assert (Hy1 : (Num.double (inject_Z side * scale) <= inject_Z side)%Q).
  { apply double_upper; [| exact Hx0 | exact Hx1].
    apply dyadic_integer. split; [exact Hside |].
    eapply Z.le_trans; [exact Hsmall |]. vm_compute. discriminate. }
  assert (Hwithin : 0 <= newSide <= side)
    by (apply Math_round_bounds; [exact Hy0 | exact Hy1]).
  change (Num.pow2 (-53)) with (1 # 9007199254740992)%Q in *.
  set (S := inject_Z side) in *. set (q := (limit / S)%Q) in *.
  set (D := Num.double q) in *. set (x := (S * scale)%Q) in *.
  set (y := Num.double x) in *.
  split; [exact Hwithin |]. split.
  - pose proof (Qle_ceiling limit) as Hceiling.
    destruct (Qlt_le_dec limit S) as [Hless | Hmore].
    + apply Math_round_upper. fold y.
      assert (H1 : (x <= S * D)%Q) by (unfold x; nra).
      assert (H2 : (S * D <= q * S + q * S * (1 # 9007199254740992))%Q) by nra.
      lra.
    + assert (H : (S <= inject_Z (Qceiling limit))%Q) by lra.
      unfold S in H. rewrite <- Zle_Qle in H. lia.
  - intros Hexact. pose proof (Qfloor_le limit) as Hfloor.
    assert (Hbound : (limit <= 2 * S)%Q).
    { assert (H : (q * S - q * S * (1 # 9007199254740992) <= S)%Q).
      { assert (H1 : (D * S <= S)%Q) by (rewrite <- Hexact; nra).
        assert (H2 : (q * S - q * S * (1 # 9007199254740992) <= D * S)%Q)
          by nra.
        lra. }
      lra. }
    apply Math_round_lower. fold y.
    assert (H1 : (x == S * D)%Q) by (unfold x; rewrite Hexact; reflexivity).
    assert (H2 : (q * S - q * S * (1 # 9007199254740992) <= S * D)%Q) by nra.
    lra.
Qed.

(** The rounding of the scale shows in the result. *)
Lemma scaled_sides_follow_the_doubles :
  applyDimensionConstraints 145 232 100 100 = Resized 62 100
  /\ Num.Math_round (145 * (100 / 232)) = 63.
Proof. split; vm_compute; reflexivity. Qed.

(** X28.  For an image with sides between 1 and 2^31 and limits that
    are positive numbers, integers or not, [applyDimensionConstraints]
    leaves the image untouched exactly when both sides are within the
    limits.  Otherwise each new side is within the old side and within
    its limit rounded up to an integer, and one of them is at least its
    limit rounded down: with integer limits the new sides are within
    the limits and one of them is exactly its limit.  A new side can be
    0.  The scale and the scaled sides are rounded as the double
    arithmetic rounds them: 145 by 232 within 100 by 100 becomes 62 by
    100, where the exact quotient gives 62.5. *)
Theorem resized_images_fit_the_limits :
  forall width height (maxWidth maxHeight : Q),
    0 < width <= 2 ^ 31 -> 0 < height <= 2 ^ 31 ->
    (0 < maxWidth)%Q -> (0 < maxHeight)%Q ->
    match applyDimensionConstraints width height maxWidth maxHeight with
    | Untouched =>
        (inject_Z width <= maxWidth)%Q /\ (inject_Z height <= maxHeight)%Q
    | Resized newWidth newHeight =>
        ((maxWidth < inject_Z width)%Q \/ (maxHeight < inject_Z height)%Q)
        /\ 0 <= newWidth <= Z.min width (Qceiling maxWidth)
        /\ 0 <= newHeight <= Z.min height (Qceiling maxHeight)
        /\ (Qfloor maxWidth <= newWidth \/ Qfloor maxHeight <= newHeight)
    end.
Proof.
  intros width height maxWidth maxHeight Hw Hh Hmw Hmh.
  unfold applyDimensionConstraints, Num.le.
  destruct (Qle_bool (inject_Z width) maxWidth
            && Qle_bool (inject_Z height) maxHeight) eqn:Hfits.
  { apply andb_true_iff in Hfits. destruct Hfits as [H1 H2].
    apply Qle_bool_iff in H1, H2. auto. }
  assert (Hlarge : (maxWidth < inject_Z width)%Q \/ (maxHeight < inject_Z height)%Q).
  { apply andb_false_iff in Hfits.
    destruct Hfits as [H | H]; [left | right]; apply Qnot_le_lt; intros Hle;
      apply Qle_bool_iff in Hle; congruence. }
  pose proof (inject_Z_pos _ (proj1 Hw)) as Qw.
  pose proof (inject_Z_pos _ (proj1 Hh)) as Qh.
  cbv zeta.
  set (widthScale := Num.double (maxWidth / inject_Z width)).
  set (heightScale := Num.double (maxHeight / inject_Z height)).
  assert (Hw0 : (0 <= maxWidth / inject_Z width)%Q)
    by (apply Qle_shift_div_l; [exact Qw | lra]).
  assert (Hh0 : (0 <= maxHeight / inject_Z height)%Q)
    by (apply Qle_shift_div_l; [exact Qh | lra]).
  pose proof (double_nonneg _ Hw0) as Hwpos. fold widthScale in Hwpos.
  pose proof (double_nonneg _ Hh0) as Hhpos. fold heightScale in Hhpos.
  assert (Hone : (Qmin widthScale heightScale <= 1)%Q).
  { assert (Hunit : Num.dyadic 1)
      by (exists 1, 0; split; [split; [reflexivity | discriminate] | reflexivity]).
    destruct Hlarge as [H | H].
    - eapply Qle_trans; [apply Q.le_min_l |].
      apply double_upper; [exact Hunit | exact Hw0 |].
      apply Qle_shift_div_r; [exact Qw | lra].
    - eapply Qle_trans; [apply Q.le_min_r |].
      apply double_upper; [exact Hunit | exact Hh0 |].
      apply Qle_shift_div_r; [exact Qh | lra]. }
  assert (Hzero : (0 <= Qmin widthScale heightScale)%Q)
    by (apply Q.min_glb; assumption).
  destruct (scaled_side width maxWidth (Qmin widthScale heightScale) Hw Hmw
              Hzero Hone (Q.le_min_l _ _)) as (Hwidth & Hwidth' & Hwidth'').
  destruct (scaled_side height maxHeight (Qmin widthScale heightScale) Hh Hmh
              Hzero Hone (Q.le_min_r _ _)) as (Hheight & Hheight' & Hheight'').
  split; [exact Hlarge |]. split; [lia |]. split; [lia |].
  destruct (Qmin_cases widthScale heightScale) as [[Hmin _] | [Hmin _]].
  - left. apply Hwidth''. exact Hmin.
  - right. apply Hheight''. exact Hmin.
Qed.

Lemma resized_images_fit_the_limits_witness :
  match applyDimensionConstraints 145 232 100 100 with
  | Untouched => (inject_Z 145 <= 100)%Q /\ (inject_Z 232 <= 100)%Q
  | Resized newWidth newHeight =>
      ((100 < inject_Z 145)%Q \/ (100 < inject_Z 232)%Q)
      /\ 0 <= newWidth <= Z.min 145 (Qceiling 100)
      /\ 0 <= newHeight <= Z.min 232 (Qceiling 100)
      /\ (Qfloor 100 <= newWidth \/ Qfloor 100 <= newHeight)
  end.
Proof.
  apply resized_images_fit_the_limits;
    solve [reflexivity | split; [reflexivity | discriminate]].
Defined.

End Dimensions.


Section Estimates.
Import WebPConverter.

Lemma Math_round_monotone (x y : Q) :
  (x <= y)%Q -> Num.Math_round x <= Num.Math_round y.
Proof. intros H. unfold Num.Math_round. apply Qfloor_resp_le. lra. Qed.

(** The size estimated for a reduction [r] at [quality]. *)
Local Abbreviation estimated size r quality :=
  (Num.Math_round
     (inject_Z size * (1 - r * (1 - quality / 100 * 0.3)))%Q).

Lemma estimated_bounds (size : Z) (r quality : Q) :
  0 <= size -> (0 <= r <= 1)%Q -> (0 <= quality <= 100)%Q ->
  0 <= estimated size r quality <= size.
Proof.
  intros Hsize Hr Hq.
  assert (Qsize : (0 <= inject_Z size)%Q)
    by (change 0%Q with (inject_Z 0); rewrite <- Zle_Qle; exact Hsize).
  set (factor := (1 - r * (1 - quality / 100 * 0.3))%Q).
  assert (Hfactor : (0 <= factor <= 1)%Q).
  { unfold factor. unfold Qdiv. change (/ 100)%Q with (1 # 100)%Q.
    split; nra. }
  apply Math_round_bounds.
  - change (inject_Z 0) with 0%Q. apply Qmult_le_0_compat; lra.
  - rewrite <- (Qmult_1_r (inject_Z size)) at 2.
    destruct Hfactor. nra.
Qed.

Lemma estimated_monotone (size : Z) (r q1 q2 : Q) :
  0 <= size -> (0 <= r)%Q -> (q1 <= q2)%Q ->
  estimated size r q1 <= estimated size r q2.
Proof.
  intros Hsize Hr Hq.
  assert (Qsize : (0 <= inject_Z size)%Q)
    by (change 0%Q with (inject_Z 0); rewrite <- Zle_Qle; exact Hsize).
  apply Math_round_monotone.
  unfold Qdiv. change (/ 100)%Q with (1 # 100)%Q.
  assert (H : (r * (1 - q2 * (1 # 100) * 0.3) <= r * (1 - q1 * (1 # 100) * 0.3))%Q)
    by nra.
  nra.
Qed.

Lemma estimateOutputSize_cases P self fs imagePath :
  (fs !! imagePath = None
   /\ forall quality,
        exists message,
          estimateOutputSize P self fs imagePath quality = Throw message)
  \/ (exists file,
         fs !! imagePath = Some file
         /\ ((forall quality,
                 estimateOutputSize P self fs imagePath quality
                 = Ok (file_size file))
             \/ exists r,
                  (r = 0.8%Q \/ r = 0.35%Q \/ r = 0.6%Q \/ r = 0.4%Q)
                  /\ forall quality,
                       estimateOutputSize P self fs imagePath quality
                       = Ok (estimated (file_size file) r quality))).
Proof.
  unfold estimateOutputSize, fs_stat.
  destruct (fs !! imagePath) as [file |] eqn:Hfile.
  - right. exists file. split; [reflexivity |]. cbn [bind].
    destruct (validateImageFile_returns P (formatDetector self) fs imagePath)
      as [v ->].
    cbn [bind]. cbv zeta.
    destruct (negb (FormatDetector.isValid v)
              || String.eqb (Str.or_default (FormatDetector.format v) "") "");
      [left; reflexivity |].
    right.
    destruct (String.eqb _ "png");
      [exists 0.8%Q; split; [auto | reflexivity] |].
    destruct (String.eqb _ "jpeg");
      [exists 0.35%Q; split; [auto | reflexivity] |].
    destruct (String.eqb _ "dng");
      [exists 0.6%Q; split; [auto | reflexivity] |].
    exists 0.4%Q. split; [auto | reflexivity].
  - left. split; [reflexivity |]. cbn. eauto.
Qed.

(** X29.  [estimateOutputSize] throws for a path that names no file.
    For a file of non-negative size and a quality from 0 to 100 it
    returns an estimate between 0 and the size of the file, and a
    higher quality never gives a smaller estimate. *)
Theorem size_estimates_stay_below_the_original :
  forall P self fs imagePath,
    (fs !! imagePath = None ->
     forall quality,
       is_ok (estimateOutputSize P self fs imagePath quality) = false)
    /\ (forall file,
           fs !! imagePath = Some file -> 0 <= file_size file ->
           (forall quality,
               (0 <= quality <= 100)%Q ->
               exists estimate,
                 estimateOutputSize P self fs imagePath quality = Ok estimate
                 /\ 0 <= estimate <= file_size file)
           /\ (forall lower higher estimate estimate',
                  (lower <= higher)%Q ->
                  estimateOutputSize P self fs imagePath lower = Ok estimate ->
                  estimateOutputSize P self fs imagePath higher = Ok estimate' ->
                  estimate <= estimate')).
Proof.
  intros P self fs imagePath.
  destruct (estimateOutputSize_cases P self fs imagePath)
    as [[Hnone Hthrow] | (file & Hfile & Hcases)].
  - split.
    + intros _ quality. destruct (Hthrow quality) as [message ->]. reflexivity.
    + intros file Hfile. congruence.
  - split; [congruence |].
    intros file' Hfile' Hsize. rewrite Hfile in Hfile'.
    inversion Hfile'; subst file'; clear Hfile'.
    destruct Hcases as [Hsame | (r & Hr & Hreduced)].
    + split.
      * intros quality _. exists (file_size file). rewrite Hsame. split; [reflexivity | lia].
      * intros lower higher estimate estimate' _. rewrite !Hsame.
        intros H1 H2. inversion H1. inversion H2. lia.
    + assert (Hrange : (0 <= r <= 1)%Q)
        by (destruct Hr as [-> | [-> | [-> | ->]]]; lra).
      split.
      * intros quality Hquality. eexists. split; [apply Hreduced |].
        apply estimated_bounds; assumption.
      * intros lower higher estimate estimate' Horder. rewrite !Hreduced.
        intros H1 H2. inversion H1. inversion H2.
        apply estimated_monotone; [exact Hsize | apply Hrange | exact Horder].
Qed.

End Estimates.
